(** * OSLC client: resource model, discovery documents, transport and CRUD

    A shallow embedding of the TypeScript OSLC client
    (src/OSLCResource.ts, src/RootServices.ts, src/ServiceProviderCatalog.ts,
    src/ServiceProvider.ts and dist/OSLCClient.js) together with the
    properties its specification states about it.

    The client is written against three collaborators that are not part of
    the repository: the rdflib triple store, the host's WHATWG [URL] class
    and the axios HTTP client.  The store is modelled concretely (a list of
    quads in insertion order, the way [IndexedFormula.statements] keeps
    them); the URL parser, the JSON parser, the DOM parser, the RDF
    parser/serializer and the network are taken as parameters.  A response
    carries its data as axios hands it over: the body text, or the value
    axios's default [transformResponse] has parsed from it when the body is
    JSON.  Left out of the model: rdflib's merging of nodes
    under owl:sameAs and functional properties.  The methods of
    [OSLCResource] take a property given as a string to be an absolute IRI,
    which is what [store.sym] accepts; where the client hands other strings
    of its caller to [sym], the check of the [NamedNode] constructor is
    modelled ([NamedNode_new]).

    A resource holds its store by value; the properties below never depend
    on two resources sharing one store.  A parse that rdflib leaves running
    when [$rdf.parse] returns (JSON-LD, N-Quads) is recorded with the state:
    its statements reach the store object, and its exception the runtime,
    after the call that started it has returned. *)

From Stdlib Require Import String Ascii List ZArith Bool Lia.
From stdpp Require Import base option strings list gmap pretty.

Local Open Scope string_scope.
Local Open Scope list_scope.

(** ** RDF terms and statements (rdflib) *)

(** rdflib terms.  A literal carries its lexical value, a language tag (the
    empty string when there is none) and the IRI of its datatype.  rdflib's
    [NamedNode] constructor rejects strings that are not absolute IRIs; the
    strings given to [sym] here are taken to be IRIs. *)
Inductive Term : Type :=
| NamedNode (value : string)
| BlankNode (id : string)
| Literal (value : string) (language : string) (datatype : string).

(** The graph (rdflib: [why]) a statement was asserted in. *)
Inductive Graph : Type :=
| DefaultGraph
| NamedGraph (iri : string).

Record Statement : Type := mkStatement
  { subject : Term; predicate : Term; object : Term; why : Graph }.

#[global] Instance Term_eq_dec : EqDecision Term.
Proof. solve_decision. Defined.
#[global] Instance Graph_eq_dec : EqDecision Graph.
Proof. solve_decision. Defined.
#[global] Instance Statement_eq_dec : EqDecision Statement.
Proof. solve_decision. Defined.

(** [term.value] *)
Definition term_value (t : Term) : string :=
  match t with
  | NamedNode v => v
  | BlankNode i => i
  | Literal v _ _ => v
  end.

(** [x instanceof $rdf.NamedNode] *)
Definition is_NamedNode (t : Term) : bool :=
  match t with NamedNode _ => true | _ => false end.

Definition xsd_string : string := "http://www.w3.org/2001/XMLSchema#string".

(** [$rdf.sym(iri)] and [store.sym(iri)] *)
Definition sym (iri : string) : Term := NamedNode iri.

(** [$rdf.literal(value)]: a plain literal, datatype xsd:string. *)
Definition literal (value : string) : Term := Literal value EmptyString xsd_string.

(** [$rdf.literal(value, datatype)] with a NamedNode as second argument. *)
Definition literal_typed (value : string) (datatype : Term) : Term :=
  Literal value EmptyString (term_value datatype).

(** ** Namespaces (src/namespaces.ts, as documented in docs/api/namespaces.md) *)

Definition dcterms (ln : string) : Term := sym ("http://purl.org/dc/terms/" +:+ ln).
Definition oslc (ln : string) : Term := sym ("http://open-services.net/ns/core#" +:+ ln).
Definition rdfs (ln : string) : Term := sym ("http://www.w3.org/2000/01/rdf-schema#" +:+ ln).
Definition oslc_cm1 (ln : string) : Term := sym ("http://open-services.net/xmlns/cm/1.0/" +:+ ln).
Definition oslc_rm (ln : string) : Term := sym ("http://open-services.net/ns/rm#" +:+ ln).
Definition oslc_qm1 (ln : string) : Term := sym ("http://open-services.net/xmlns/qm/1.0/" +:+ ln).

(** ** The triple store (rdflib IndexedFormula) *)

(** The statements of the store in insertion order.  rdflib's indexes are
    per-term lists in the same order, so a pattern query yields the matching
    statements in insertion order. *)
Definition Store : Type := list Statement.

(** [$rdf.graph()] *)
Definition graph : Store := [].

(** One position of a pattern: [undefined]/[null] is a wildcard. *)
Definition term_matches (pat : option Term) (t : Term) : bool :=
  match pat with
  | None => true
  | Some x => bool_decide (x = t)
  end.

Definition graph_matches (pat : option Graph) (g : Graph) : bool :=
  match pat with
  | None => true
  | Some x => bool_decide (x = g)
  end.

Definition statement_matches (s p o : option Term) (g : option Graph)
    (st : Statement) : bool :=
  term_matches s (subject st) && term_matches p (predicate st)
  && term_matches o (object st) && graph_matches g (why st).

(** [store.statementsMatching(s, p, o, g)] *)
Definition statementsMatching (s p o : option Term) (g : option Graph)
    (kb : Store) : list Statement :=
  List.filter (statement_matches s p o g) kb.

(** [store.each(s, p)]: the objects of the statements with that subject and
    predicate. *)
Definition each (s p : Term) (kb : Store) : list Term :=
  map object (statementsMatching (Some s) (Some p) None None kb).

(** [store.any(s, p)] and [store.the(s, p)]: of the first statement
    matching the pattern, the first position left open: the object, or the
    predicate when [p] is a wildcard as well. *)
Definition any (s : Term) (p : option Term) (kb : Store) : option Term :=
  match statementsMatching (Some s) p None None kb with
  | st :: _ =>
      match p with
      | Some _ => Some (object st)
      | None => Some (predicate st)
      end
  | [] => None
  end.

Definition the (s : Term) (p : option Term) (kb : Store) : option Term :=
  any s p kb.

(** [store.holds(s, p, o, g)] *)
Definition holds (st : Statement) (kb : Store) : bool :=
  bool_decide (st ∈ kb).

(** [store.add(quad)]: rdflib checks [holds] first and ignores a statement
    the store already has; a new one is appended to [statements] and to the
    indexes. *)
Definition add_statement (st : Statement) (kb : Store) : Store :=
  if holds st kb then kb else kb ++ [st].

(** [store.add(s, p, o)]: without a graph argument the statement goes to
    the default graph. *)
Definition add (s p o : Term) (kb : Store) : Store :=
  add_statement (mkStatement s p o DefaultGraph) kb.

(** [store.add(statements)] with an array. *)
Definition add_all (sts : list Statement) (kb : Store) : Store :=
  fold_left (fun acc st => add_statement st acc) sts kb.

(** [store.remove(st)] for one statement: the first statement of the store
    equal to it is taken out; rdflib throws when there is none ([None]). *)
Fixpoint remove_statement (st : Statement) (kb : Store) : option Store :=
  match kb with
  | [] => None
  | x :: kb' =>
      if bool_decide (x = st) then Some kb'
      else cons x <$> remove_statement st kb'
  end.

(** [store.remove(statements)] with an array: one at a time, in order. *)
Fixpoint remove (sts : list Statement) (kb : Store) : option Store :=
  match sts with
  | [] => Some kb
  | st :: sts' =>
      match remove_statement st kb with
      | Some kb' => remove sts' kb'
      | None => None
      end
  end.

(** ** Response data (axios) *)

(** A value as [JSON.parse] builds it.  A number is held by the text
    [String] gives for it. *)
#[local] Unset Elimination Schemes.
Inductive Json : Type :=
| JNull
| JBool (b : bool)
| JNumber (text : string)
| JString (s : string)
| JArray (items : list Json)
| JObject (members : list (string * Json)).
#[local] Set Elimination Schemes.

(** [items.join(sep)] *)
Fixpoint Array_join (sep : string) (items : list string) : string :=
  match items with
  | [] => EmptyString
  | [item] => item
  | item :: rest => item +:+ sep +:+ Array_join sep rest
  end.

(** [String(v)], which a template string applies to the value it embeds:
    an array is its items joined by commas, with [null] as the empty
    string; an object is the text [[object Object]]. *)
Fixpoint Json_toString (v : Json) : string :=
  match v with
  | JNull => "null"
  | JBool true => "true"
  | JBool false => "false"
  | JNumber text => text
  | JString s => s
  | JArray items =>
      Array_join ","
        (map (fun item => match item with
                          | JNull => EmptyString
                          | _ => Json_toString item
                          end) items)
  | JObject _ => "[object Object]"
  end.

(** [response.data]: the body as text, or the value axios made of it. *)
Inductive Data : Type :=
| DataText (text : string)
| DataJson (value : Json).

(** [`${response.data}`] *)
Definition Data_toString (d : Data) : string :=
  match d with
  | DataText text => text
  | DataJson value => Json_toString value
  end.

(** ** The host and the libraries around the client *)

(** The components of a parsed URL the client reads.  [site] is the
    serialization up to the path (scheme, credentials, host and port), so
    that [href] is [site], [pathname], [search] and [hash] in a row;
    [origin] leaves the credentials out. *)
Record URL : Type := mkURL
  { site : string; origin : string; pathname : string;
    search : string; hash : string }.

(** [url.toString()] *)
Definition href (u : URL) : string :=
  site u +:+ pathname u +:+ search u +:+ hash u.

(** [url.pathname = p] *)
Definition set_pathname (u : URL) (p : string) : URL :=
  {| site := site u; origin := origin u; pathname := p;
     search := search u; hash := hash u |}.

(** What the client takes from its runtime:
    - [URL_new s] is [new URL(s)], [None] when the constructor throws;
    - [isNodeEnvironment] tells Node.js from a browser;
    - [URLSearchParams_toString] is the form encoding of a list of pairs;
    - [JSON_parse s] is [JSON.parse(s)], [None] when it throws;
    - [DOMParser_parseFromString data mimeType] is the message of the
      exception [new DOMParser().parseFromString] throws, [None] when it
      returns a document;
    - [rdf_parse data base contentType] is the parser [$rdf.parse] runs on
      the response data: the statements it asserts, in order, and the
      message of the exception it stopped with, if any;
    - [rdf_serialize] is [store.serialize(null, 'application/rdf+xml')]. *)
Class Host : Type :=
  { URL_new : string -> option URL;
    isNodeEnvironment : bool;
    URLSearchParams_toString : list (string * string) -> string;
    JSON_parse : string -> option Json;
    DOMParser_parseFromString : Data -> string -> option string;
    rdf_parse : Data -> string -> option string -> list Statement * option string;
    rdf_serialize : list Statement -> string }.

(** ** OSLCResource (src/OSLCResource.ts) *)

(** The result of [get]: [string | string[] | undefined]. *)
Inductive PropertyValue : Type :=
| PVundefined
| PVstring (v : string)
| PVarray (vs : list string).

(** The value argument of [set]: [RDFNode | RDFNode[] | undefined]. *)
Inductive SetValue : Type :=
| SVundefined
| SVnode (v : Term)
| SVarray (vs : list Term).

(** A property argument: [string | NamedNode]. *)
Inductive Property : Type :=
| PropString (iri : string)
| PropNode (iri : string).

Module OSLCResource.

(** The fields of the class.  [store] is the graph the resource reads and
    writes; a missing [etag] or [queryURI] is [None]. *)
Record t : Type := mk
  { uri : Term; store : Store; etag : option string; queryURI : option string }.

Definition with_store (r : t) (kb : Store) : t :=
  {| uri := uri r; store := kb; etag := etag r; queryURI := queryURI r |}.

(** [typeof property === 'string' ? this.store.sym(property) : property] *)
Definition property_node (property : Property) : Term :=
  match property with
  | PropString iri => sym iri
  | PropNode iri => NamedNode iri
  end.

(** The constructor.  [u], [st] and [tag] are [None] for [null]; an empty
    [u] is falsy as well.  [fresh] is the identifier [$rdf.blankNode()]
    hands out.  The result is [None] when [new URL(uri)] throws. *)
Definition new `{Host} (fresh : string) (u : option string)
    (st : option Store) (tag : option string) : option t :=
  match u with
  | Some u' =>
      if bool_decide (u' = EmptyString) then
        Some {| uri := BlankNode fresh; store := graph; etag := None; queryURI := None |}
      else
        match URL_new u' with
        | Some resourceURI =>
            Some {| uri := sym (origin resourceURI +:+ pathname resourceURI);
                    store := default graph st;
                    etag := tag;
                    queryURI := Some u' |}
        | None => None
        end
  | None =>
      Some {| uri := BlankNode fresh; store := graph; etag := None; queryURI := None |}
  end.

Definition getURI (r : t) : string := term_value (uri r).

(** [get(property)]: one value unwraps to its string, several become the
    array of their strings, none is [undefined]. *)
Definition get (r : t) (property : Property) : PropertyValue :=
  let p := property_node property in
  let result := each (uri r) p (store r) in
  match result with
  | [v] => PVstring (term_value v)
  | _ :: _ :: _ => PVarray (map term_value result)
  | [] => PVundefined
  end.

(** [Array.isArray(result) ? result[0] : result] *)
Definition first_value (result : PropertyValue) : option string :=
  match result with
  | PVarray (v :: _) => Some v
  | PVarray [] => None
  | PVstring v => Some v
  | PVundefined => None
  end.

Definition getIdentifier (r : t) : option string :=
  first_value (get r (PropNode (term_value (dcterms "identifier")))).
Definition getTitle (r : t) : option string :=
  first_value (get r (PropNode (term_value (dcterms "title")))).
Definition getShortTitle (r : t) : option string :=
  first_value (get r (PropNode (term_value (oslc "shortTitle")))).
Definition getDescription (r : t) : option string :=
  first_value (get r (PropNode (term_value (dcterms "description")))).

(** [set(property, value)]: the current values are removed first, then
    the new value or values are added.  [None] when [store.remove]
    throws. *)
Definition set (r : t) (property : Property) (value : SetValue) : option t :=
  let p := property_node property in
  let subject := uri r in
  match remove (statementsMatching (Some subject) (Some p) None None (store r))
               (store r) with
  | None => None
  | Some kb =>
      match value with
      | SVundefined => Some (with_store r kb)
      | SVarray vs =>
          Some (with_store r (fold_left (fun acc v => add subject p v acc) vs kb))
      | SVnode v => Some (with_store r (add subject p v kb))
      end
  end.

Definition setTitle (r : t) (value : string) : option t :=
  set r (PropNode (term_value (dcterms "title"))) (SVnode (literal value)).
Definition setDescription (r : t) (value : string) : option t :=
  set r (PropNode (term_value (dcterms "description"))) (SVnode (literal value)).

(** [getLinkTypes()]: the predicates of the resource's statements whose
    object is a NamedNode. *)
Definition getLinkTypes (r : t) : gset string :=
  fold_left
    (fun linkTypes statement =>
       if is_NamedNode (object statement)
       then linkTypes ∪ {[ term_value (predicate statement) ]}
       else linkTypes)
    (statementsMatching (Some (uri r)) None None None (store r))
    ∅.

(** [getProperties()]: a second value for a key turns the entry into an
    array, further values are pushed onto it. *)
Definition getProperties (r : t) : gmap string PropertyValue :=
  fold_left
    (fun (result : gmap string PropertyValue) statement =>
       let key := term_value (predicate statement) in
       let value := term_value (object statement) in
       match result !! key with
       | Some (PVarray vs) => <[key := PVarray (vs ++ [value])]> result
       | Some (PVstring v) => <[key := PVarray ([v] ++ [value])]> result
       | Some PVundefined | None => <[key := PVstring value]> result
       end)
    (statementsMatching (Some (uri r)) None None None (store r))
    ∅.

End OSLCResource.

(** ** JavaScript string operations *)

(** The double quote character. *)
Definition dquote : ascii := ascii_of_nat 34.

(** [s.startsWith(t)] *)
Fixpoint startsWith (s t : string) : bool :=
  match t, s with
  | EmptyString, _ => true
  | String b t', String a s' => bool_decide (a = b) && startsWith s' t'
  | String _ _, EmptyString => false
  end.

(** [s.endsWith(t)] *)
Definition endsWith (s t : string) : bool :=
  let n := String.length s in
  let k := String.length t in
  bool_decide (k <= n) && bool_decide (substring (n - k) k s = t).

(** [s.includes(t)] *)
Fixpoint includes (s t : string) : bool :=
  startsWith s t
  || match s with
     | EmptyString => false
     | String _ s' => includes s' t
     end.

(** [s.split(sep)] for a one-character separator. *)
Fixpoint split (sep : ascii) (s : string) : list string :=
  match s with
  | EmptyString => [EmptyString]
  | String c s' =>
      if bool_decide (c = sep) then EmptyString :: split sep s'
      else match split sep s' with
           | w :: ws => String c w :: ws
           | [] => [String c EmptyString]
           end
  end.

(** [s.endsWith("/") ? s.slice(0, -1) : s] *)
Definition strip_slash (s : string) : string :=
  if endsWith s "/" then substring 0 (String.length s - 1) s else s.

(** [x || null] on an optional term's value: a missing term and an empty
    value both give [null]. *)
Definition value_or_null (x : option Term) : option string :=
  match x with
  | Some t => if bool_decide (term_value t = EmptyString) then None else Some (term_value t)
  | None => None
  end.

(** A synchronous call that returns or throws an [Error] with a message. *)
Inductive Thrown (A : Type) : Type :=
| Returned (a : A)
| Raised (message : string).
Arguments Returned {A} a.
Arguments Raised {A} message.

(** [new NamedNode(iri)], which [$rdf.sym] and [store.sym] call: the IRI
    must not be empty, must have a colon and must have no space. *)
Definition NamedNode_new (iri : string) : Thrown Term :=
  if bool_decide (iri = EmptyString) then Raised "Missing IRI for NamedNode"
  else if negb (includes iri ":") then
    Raised ("NamedNode IRI " +:+ String dquote (iri +:+ String dquote " must be absolute."))
  else if includes iri " " then
    Raised ("Error: NamedNode IRI "
            +:+ String dquote (iri +:+ String dquote " must not contain unencoded spaces."))
  else Returned (NamedNode iri).

(** A [for ... of] loop whose body may [return]. *)
Inductive Flow (R : Type) : Type :=
| Return (r : R)
| Continue.
Arguments Return {R} r.
Arguments Continue {R}.

Fixpoint for_of {A R : Type} (xs : list A) (body : A -> Flow R) : Flow R :=
  match xs with
  | [] => Continue
  | x :: xs' =>
      match body x with
      | Return r => Return r
      | Continue => for_of xs' body
      end
  end.

(** ** RootServices (src/RootServices.ts) *)

Module RootServices.

(** [serviceProviderCatalog(serviceProviders)]: the value of the first
    object of that predicate on the document's subject.  The argument is
    [None] when the caller passes [undefined], which the store reads as a
    wildcard. *)
Definition serviceProviderCatalog (r : OSLCResource.t)
    (serviceProviders : option Term) : option string :=
  let catalog := the (OSLCResource.uri r) serviceProviders (OSLCResource.store r) in
  term_value <$> catalog.

End RootServices.

(** ** ServiceProviderCatalog (src/ServiceProviderCatalog.ts) *)

Definition rdf_XMLLiteral : string :=
  "http://www.w3.org/1999/02/22-rdf-syntax-ns#XMLLiteral".

Module ServiceProviderCatalog.

(** [serviceProvider(serviceProviderTitle)]: the subject of the first
    statement, on any subject, whose predicate is dcterms:title and whose
    object is the XMLLiteral-typed literal of that title. *)
Definition serviceProvider (r : OSLCResource.t)
    (serviceProviderTitle : string) : option string :=
  let sp :=
    statementsMatching None (Some (dcterms "title"))
      (Some (literal_typed serviceProviderTitle (sym rdf_XMLLiteral)))
      None (OSLCResource.store r) in
  match sp with
  | [] => None
  | st :: _ => Some (term_value (subject st))
  end.

End ServiceProviderCatalog.

(** ** ServiceProvider (src/ServiceProvider.ts) *)

(** A resource type argument: [string | NamedNode]. *)
Inductive ResourceType : Type :=
| RTString (s : string)
| RTNode (n : Term).

Module ServiceProvider.

(** The loops of [getQueryBase], once the resource type is a node. *)
Definition queryBase_of (r : OSLCResource.t) (resourceTypeSym : Term)
    : option string :=
  let kb := OSLCResource.store r in
  let services := each (OSLCResource.uri r) (oslc "service") kb in
  match
    for_of services (fun service =>
      let queryCapabilities := each service (oslc "queryCapability") kb in
      for_of queryCapabilities (fun queryCapability =>
        if negb (Nat.eqb (length (statementsMatching (Some queryCapability)
                   (Some (oslc "resourceType")) (Some resourceTypeSym) None kb)) 0)
        then Return (value_or_null (the queryCapability (Some (oslc "queryBase")) kb))
        else Continue))
  with
  | Return res => res
  | Continue => None
  end.

(** [getQueryBase(resourceType)]: a string goes through [store.sym] first,
    which throws when it is no absolute IRI. *)
Definition getQueryBase (r : OSLCResource.t) (resourceType : ResourceType)
    : Thrown (option string) :=
  match resourceType with
  | RTString s =>
      match NamedNode_new s with
      | Returned resourceTypeSym => Returned (queryBase_of r resourceTypeSym)
      | Raised message => Raised message
      end
  | RTNode n => Returned (queryBase_of r n)
  end.

Definition getCreationFactory (r : OSLCResource.t) (resourceType : ResourceType)
    : option string :=
  let kb := OSLCResource.store r in
  let services := each (OSLCResource.uri r) (oslc "service") kb in
  match
    for_of services (fun service =>
      let creationFactories := each service (oslc "creationFactory") kb in
      for_of creationFactories (fun creationFactory =>
        match resourceType with
        | RTString s =>
            let types := each creationFactory (oslc "resourceType") kb in
            for_of types (fun aType =>
              if endsWith (term_value aType) s
              then Return (value_or_null (the creationFactory (Some (oslc "creation")) kb))
              else Continue)
        | RTNode n =>
            if Nat.eqb (length (statementsMatching (Some creationFactory)
                 (Some (oslc "resourceType")) (Some n) None kb)) 1
            then Return (value_or_null (the creationFactory (Some (oslc "creation")) kb))
            else Continue
        end))
  with
  | Return res => res
  | Continue => None
  end.

End ServiceProvider.

(** ** Compact (src/Compact.ts) *)

(** [PreviewInfo] *)
Record PreviewInfo : Type := mkPreview
  { document : string; hintHeight : option string; hintWidth : option string }.

Module Compact.

Definition getShortTitle (r : OSLCResource.t) : option string :=
  OSLCResource.first_value (OSLCResource.get r (PropNode (term_value (oslc "shortTitle")))).
Definition getIcon (r : OSLCResource.t) : option string :=
  OSLCResource.first_value (OSLCResource.get r (PropNode (term_value (oslc "icon")))).
Definition getIconTitle (r : OSLCResource.t) : option string :=
  OSLCResource.first_value (OSLCResource.get r (PropNode (term_value (oslc "iconTitle")))).
Definition getIconSrcSet (r : OSLCResource.t) : option string :=
  OSLCResource.first_value (OSLCResource.get r (PropNode (term_value (oslc "iconSrcSet")))).

(** The body the two preview getters share, for the preview property
    [which]: no preview node gives [null]; a preview node gives a record,
    its document the empty string when the node has none. *)
Definition preview_info (r : OSLCResource.t) (which : Term) : option PreviewInfo :=
  let kb := OSLCResource.store r in
  match the (OSLCResource.uri r) (Some which) kb with
  | None => None
  | Some preview =>
      let hintHeight := the preview (Some (oslc "hintHeight")) kb in
      let hintWidth := the preview (Some (oslc "hintWidth")) kb in
      let document := the preview (Some (oslc "document")) kb in
      Some {| document := default EmptyString (value_or_null document);
              hintHeight := term_value <$> hintHeight;
              hintWidth := term_value <$> hintWidth |}
  end.

Definition getSmallPreview (r : OSLCResource.t) : option PreviewInfo :=
  preview_info r (oslc "smallPreview").
Definition getLargePreview (r : OSLCResource.t) : option PreviewInfo :=
  preview_info r (oslc "largePreview").

End Compact.

(** ** HTTP messages (axios) *)

Inductive Method : Type := GET | POST | PUT | DELETE.

(** The two [validateStatus] functions the client configures: the client's
    default, [status === 401 || status < 400], and the login POST's,
    [status === 302]. *)
Inductive ValidateStatus : Type := ValidateDefault | ValidateLogin.

Definition validate (v : ValidateStatus) (status : Z) : bool :=
  match v with
  | ValidateDefault => (status =? 401)%Z || (status <? 400)%Z
  | ValidateLogin => (status =? 302)%Z
  end.

(** A request configuration after axios has merged the client defaults. *)
Record Request : Type := mkRequest
  { method : Method;
    url : string;
    headers : gmap string string;
    data : option string;
    auth : option (string * string);
    maxRedirects : option nat;
    validateStatus : ValidateStatus }.

(** What the network hands back for one request. *)
Record RawResponse : Type := mkRaw
  { raw_status : Z; raw_headers : gmap string string; raw_data : string }.

(** An axios response: [response.config] is the request it answers. *)
Record Response : Type := mkResponse
  { status : Z;
    response_headers : gmap string string;
    response_data : Data;
    config : Request }.

(** The exceptions and rejections of the client. *)
Inductive Error : Type :=
| JsError (message : string)            (* new Error(message) *)
| TypeError (message : string)          (* thrown by the runtime *)
| DOMParserError (message : string)     (* thrown by DOMParser.parseFromString *)
| AxiosError (response : option Response).
    (* axios rejection: a response whose status fails validateStatus, or no
       response at all (network failure, timeout) *)

(** ** The client's effects *)

(** The mutable state a call runs in: the world behind the network (servers
    and the cookie jar), the requests put on the network so far, the console,
    rdflib's blank node counter, the fields [use] assigns, and the parses
    [$rdf.parse] has left running: for each, the statements it will assert
    into the store it was given and the exception it will end with, both
    after the call that started it has returned, the exception outside
    every handler of the client. *)
Record State (W : Type) : Type := mkState
  { world : W;
    sent : list Request;
    console : list string;
    nextId : nat;
    base_url : option string;
    rootservices : option OSLCResource.t;
    spc : option OSLCResource.t;
    sp : option OSLCResource.t;
    deferred : list (list Statement * option string) }.
Arguments mkState {W}.
Arguments world {W}.
Arguments sent {W}.
Arguments console {W}.
Arguments nextId {W}.
Arguments base_url {W}.
Arguments rootservices {W}.
Arguments spc {W}.
Arguments sp {W}.
Arguments deferred {W}.

(** The client's fields, assigned. *)
Definition with_base_url {W} (s : State W) (b : string) : State W :=
  mkState (world s) (sent s) (console s) (nextId s)
          (Some b) (rootservices s) (spc s) (sp s) (deferred s).
Definition with_rootservices {W} (s : State W) (r : OSLCResource.t) : State W :=
  mkState (world s) (sent s) (console s) (nextId s)
          (base_url s) (Some r) (spc s) (sp s) (deferred s).
Definition with_spc {W} (s : State W) (r : OSLCResource.t) : State W :=
  mkState (world s) (sent s) (console s) (nextId s)
          (base_url s) (rootservices s) (Some r) (sp s) (deferred s).
Definition with_sp {W} (s : State W) (r : OSLCResource.t) : State W :=
  mkState (world s) (sent s) (console s) (nextId s)
          (base_url s) (rootservices s) (spc s) (Some r) (deferred s).

(** One more line on the console. *)
Definition with_console_line {W} (s : State W) (line : string) : State W :=
  mkState (world s) (sent s) (console s ++ [line]) (nextId s)
          (base_url s) (rootservices s) (spc s) (sp s) (deferred s).

(** One more parse left running. *)
Definition with_deferred {W} (s : State W) (job : list Statement * option string)
    : State W :=
  mkState (world s) (sent s) (console s) (nextId s)
          (base_url s) (rootservices s) (spc s) (sp s) (deferred s ++ [job]).

(** How an asynchronous call ends: with a value, with an exception (a
    rejected promise), or not within the steps allowed. *)
Inductive Outcome (A : Type) : Type :=
| Ok (a : A)
| Throw (e : Error)
| OutOfFuel.
Arguments Ok {A} a.
Arguments Throw {A} e.
Arguments OutOfFuel {A}.

Definition M (W A : Type) : Type := State W -> Outcome A * State W.

Definition ret {W A} (a : A) : M W A := fun s => (Ok a, s).
Definition throw {W A} (e : Error) : M W A := fun s => (Throw e, s).
Definition out_of_fuel {W A} : M W A := fun s => (OutOfFuel, s).

Definition bind {W A B} (m : M W A) (k : A -> M W B) : M W B :=
  fun s =>
    match m s with
    | (Ok a, s') => k a s'
    | (Throw e, s') => (Throw e, s')
    | (OutOfFuel, s') => (OutOfFuel, s')
    end.

Notation "'let!' x ':=' m 'in' k" := (bind m (fun x => k))
  (at level 10, x binder, m at level 100, k at level 200).

(** [try { body } catch (error) { handler }] *)
Definition try_catch {W A} (body : M W A) (handler : Error -> M W A) : M W A :=
  fun s =>
    match body s with
    | (Throw e, s') => handler e s'
    | r => r
    end.

(** [console.error], [console.warn]: one more line on the console. *)
Definition console_log {W} (line : string) : M W unit :=
  fun s => (Ok tt, with_console_line s line).

(** [$rdf.blankNode()]: the identifier is the letter n and the counter. *)
Definition blankNode_id {W} : M W string :=
  fun s =>
    (Ok ("n" +:+ pretty (nextId s)),
     mkState (world s) (sent s) (console s) (S (nextId s))
             (base_url s) (rootservices s) (spc s) (sp s) (deferred s)).

(** [new OSLCResource(uri, store, etag)] and the constructors of its
    subclasses, which only call [super]. *)
Definition construct `{Host} {W} (u : option string) (st : option Store)
    (tag : option string) : M W OSLCResource.t :=
  fun s =>
    match OSLCResource.new ("n" +:+ pretty (nextId s)) u st tag with
    | Some r =>
        match OSLCResource.uri r with
        | BlankNode _ => (let! _ := blankNode_id in ret r) s
        | _ => (Ok r, s)
        end
    | None => (Throw (TypeError "Invalid URL"), s)
    end.

(** ** The transport: axios client and response interceptor
       (dist/OSLCClient.js, constructor) *)

(** The constructor's arguments. *)
Record Credentials : Type := mkCredentials
  { userid : string; password : string; configuration_context : option string }.

(** [s.slice(n)] *)
Definition string_drop (n : nat) (s : string) : string :=
  substring n (String.length s - n) s.

(** The longest run of characters other than the double quote at the head
    of [s], and what follows it. *)
Fixpoint span_not_quote (s : string) : string * string :=
  match s with
  | EmptyString => (EmptyString, EmptyString)
  | String c s' =>
      if bool_decide (c = dquote) then (EmptyString, s)
      else let '(a, b) := span_not_quote s' in (String c a, b)
  end.

(** A match, anchored at the head of [s], of the regular expression that
    reads token_uri= and then, between double quotes, one or more characters
    other than the double quote: the captured group. *)
Definition token_uri_here (s : string) : option string :=
  let key := "token_uri=" +:+ String dquote EmptyString in
  if startsWith s key then
    let '(v, rest) := span_not_quote (string_drop (String.length key) s) in
    match v, rest with
    | String _ _, String _ _ => Some v
    | _, _ => None
    end
  else None.

(** The first group of the leftmost match of that expression in [s]. *)
Fixpoint token_uri_match (s : string) : option string :=
  match token_uri_here s with
  | Some v => Some v
  | None =>
      match s with
      | EmptyString => None
      | String _ s' => token_uri_match s'
      end
  end.

(** The login endpoint of the form challenge: the first path segment of the
    request's URL, if it has one, followed by j_security_check. *)
Definition login_url (u : URL) : string :=
  let paths := split "/" (pathname u) in
  let first := nth 1 paths EmptyString in
  href (set_pathname u
          (if bool_decide (first = EmptyString) then "/j_security_check"
           else "/" +:+ first +:+ "/j_security_check")).

Module Transport.
Section WithNetwork.
Context `{Host}.
Context {W : Type}.

(** The network: one request, one raw response or a failure ([None]), and
    the world after it. *)
Variable adapter : W -> Request -> W * option RawResponse.
Variable cred : Credentials.

(** The headers of [baseConfig], with Configuration-Context when given. *)
Definition default_headers : gmap string string :=
  let base : gmap string string :=
    <["Accept" := "application/rdf+xml, text/turtle;q=0.9, application/ld+json;q=0.8, application/json;q=0.7, application/xml;q=0.6, text/xml;q=0.5, */*;q=0.1"]>
    (<["OSLC-Core-Version" := "2.0"]> ∅) in
  match configuration_context cred with
  | Some c => if bool_decide (c = EmptyString) then base
              else <["Configuration-Context" := c]> base
  | None => base
  end.

(** [client.get(url, { headers })] and friends: the request configuration
    axios builds, the call's headers over the defaults. *)
Definition make_request (m : Method) (u : string) (body : option string)
    (hs : gmap string string) : Request :=
  {| method := m; url := u; headers := hs ∪ default_headers; data := body;
     auth := None; maxRedirects := None; validateStatus := ValidateDefault |}.

(** The login POST of the form challenge. *)
Definition login_request (u : string) : Request :=
  {| method := POST; url := u;
     headers := (<["Content-Type" := "application/x-www-form-urlencoded"]> ∅)
                ∪ default_headers;
     data := Some (URLSearchParams_toString
                     [("j_username", userid cred); ("j_password", password cred)]);
     auth := None; maxRedirects := Some 0%nat; validateStatus := ValidateLogin |}.

(** The token POST of the jauth challenge. *)
Definition token_request (token_uri : string) : Request :=
  make_request POST token_uri
    (Some (URLSearchParams_toString
             [("username", userid cred); ("password", password cred)]))
    (<["Content-Type" := "application/x-www-form-urlencoded"]>
       (<["Accept" := "text/plain"]> ∅)).

(** axios's default [transformResponse]: a body that is not empty and that
    [JSON.parse] accepts becomes the parsed value, every other body stays
    the text it is. *)
Definition transformResponse (body : string) : Data :=
  if bool_decide (body = EmptyString) then DataText body
  else match JSON_parse body with
       | Some value => DataJson value
       | None => DataText body
       end.

(** [originalRequest.headers["Authorization"] = `Bearer ${newToken}`] *)
Definition with_bearer (req : Request) (newToken : Data) : Request :=
  {| method := method req; url := url req;
     headers := <["Authorization" := "Bearer " +:+ Data_toString newToken]> (headers req);
     data := data req; auth := auth req; maxRedirects := maxRedirects req;
     validateStatus := validateStatus req |}.

(** [requestWithAuth.auth = { username, password }] *)
Definition with_basic_auth (req : Request) : Request :=
  {| method := method req; url := url req; headers := headers req;
     data := data req; auth := Some (userid cred, password cred);
     maxRedirects := maxRedirects req; validateStatus := validateStatus req |}.

(** Put one request on the network. *)
Definition dispatch (req : Request) : M W (option RawResponse) :=
  fun s =>
    let '(w', raw) := adapter (world s) req in
    (Ok raw,
     mkState w' (sent s ++ [req]) (console s) (nextId s)
             (base_url s) (rootservices s) (spc s) (sp s) (deferred s)).

(** The response interceptor.  [client] is [this.client.request]: the
    login, token and retried requests go out through the client the
    interceptor is installed on. *)
Definition interceptor (client : Request -> M W Response) (response : Response)
    : M W Response :=
  let originalRequest := config response in
  let wwwAuthenticate := response_headers response !! "www-authenticate" in
  if bool_decide (response_headers response !! "x-com-ibm-team-repository-web-auth-msg"
                  = Some "authrequired") then
    try_catch
      (match URL_new (url (config response)) with
       | None => throw (TypeError "Invalid URL")
       | Some u =>
           let! _ := (if isNodeEnvironment then ret tt
                      else console_log "Form-based authentication in browser requires CORS-enabled backend or proxy") in
           let! _ := client (login_request (login_url u)) in
           client originalRequest
       end)
      (fun error =>
         let! _ := console_log "Error during JEE authentication:" in
         throw error)
  else if (status response =? 401)%Z
          && from_option (fun h => includes h "jauth realm") false wwwAuthenticate then
    match wwwAuthenticate ≫= token_uri_match with
    | None => throw (JsError "No token_uri found in jauth challenge")
    | Some token_uri =>
        try_catch
          (let! tokenResponse := client (token_request token_uri) in
           let newToken := response_data tokenResponse in
           client (with_bearer originalRequest newToken))
          (fun error =>
             let! _ := console_log "Error during jauth realm authentication:" in
             throw error)
    end
  else if (status response =? 401)%Z then
    client (with_basic_auth originalRequest)
  else
    ret response.

(** [this.client.request(config)]: the request goes on the network, the
    body of the answer runs through [transformResponse], the response is
    settled against [validateStatus], and a fulfilled response runs through
    the interceptor.  [fuel] bounds the depth of requests
    issued from inside the interceptor. *)
Fixpoint request (fuel : nat) (req : Request) : M W Response :=
  match fuel with
  | O => out_of_fuel
  | S fuel' =>
      let! raw := dispatch req in
      match raw with
      | None => throw (AxiosError None)
      | Some r =>
          let response :=
            {| status := raw_status r; response_headers := raw_headers r;
               response_data := transformResponse (raw_data r); config := req |} in
          if validate (validateStatus req) (status response)
          then interceptor (request fuel') response
          else throw (AxiosError (Some response))
      end
  end.

End WithNetwork.
End Transport.

(** ** OSLCClient (dist/OSLCClient.js) *)

(** The table of catalog predicates, keyed by domain. *)
Definition serviceProviders (domain : string) : option Term :=
  if bool_decide (domain = "CM") then Some (oslc_cm1 "cmServiceProviders")
  else if bool_decide (domain = "RM") then Some (oslc_rm "rmServiceProviders")
  else if bool_decide (domain = "QM") then Some (oslc_qm1 "qmServiceProviders")
  else None.

(** What [getResource] resolves to: a parsed XML document (kept as the data
    and content type handed to the DOM parser), an Atom feed, or a resource
    over the parsed graph. *)
Inductive Fetched : Type :=
| FetchedXml (etag : option string) (data : Data) (contentType : string)
| FetchedFeed (etag : option string) (feed : Data)
| FetchedResource (r : OSLCResource.t).

(** [QueryParams] *)
Record QueryParams : Type := mkQuery
  { prefix : option string; select : option string;
    where_ : option string; orderBy : option string }.

(** The content types whose parser [$rdf.parse] starts and does not wait
    for: JSON-LD and N-Quads.  [$rdf.parse] compares what stands before the
    first semicolon of the content type. *)
Definition parsed_later (contentType : option string) : bool :=
  match contentType with
  | Some ct =>
      let mime := hd EmptyString (split ";" ct) in
      bool_decide (mime = "application/ld+json")
      || bool_decide (mime = "application/n-quads")
      || bool_decide (mime = "application/nquads")
  | None => false
  end.

(** A string in a condition: [undefined], [null] and the empty string are
    falsy. *)
Definition truthy (x : option string) : bool :=
  match x with
  | Some v => negb (bool_decide (v = EmptyString))
  | None => false
  end.

Module OSLCClient.
Section WithClient.
Context `{Host}.
Context {W : Type}.

(** [this.client.request]: the transport the methods call. *)
Variable http : Request -> M W Response.
Variable cred : Credentials.

Definition http_get (u : string) (hs : gmap string string) : M W Response :=
  http (Transport.make_request cred GET u None hs).

(** [$rdf.parse(data, store, base, contentType)] inside [try]/[catch].
    For a content type parsed before [$rdf.parse] returns, the statements go
    into the store and the exception goes to the console.  For one parsed
    later, [$rdf.parse] returns at once: the store is as it was, the [catch]
    sees nothing, and the parse is left running. *)
Definition parse_into (data : Data) (base : string) (contentType : option string)
    (kb : Store) : M W Store :=
  let '(sts, err) := rdf_parse data base contentType in
  if parsed_later contentType then
    fun s => (Ok kb, with_deferred s (sts, err))
  else
    let kb' := add_all sts kb in
    match err with
    | Some msg => let! _ := console_log msg in ret kb'
    | None => ret kb'
    end.

(** [getResource(url, oslc_version, accept)] *)
Definition getResource (u : string) (oslc_version accept : string) : M W Fetched :=
  let hs : gmap string string :=
    <["Accept" := accept]> (<["OSLC-Core-Version" := oslc_version]> ∅) in
  let! response :=
    try_catch (http_get u hs)
      (fun error => let! _ := console_log "Error fetching resource:" in throw error) in
  let etag := response_headers response !! "etag" in
  match response_headers response !! "content-type" with
  | None => throw (TypeError "Cannot read properties of undefined (reading 'includes')")
  | Some contentType =>
      if includes contentType "text/xml" || includes contentType "application/xml" then
        match DOMParser_parseFromString (response_data response) contentType with
        | Some msg => throw (DOMParserError msg)
        | None => ret (FetchedXml etag (response_data response) contentType)
        end
      else if includes contentType "application/atom+xml" then
        ret (FetchedFeed etag (response_data response))
      else
        let! g := parse_into (response_data response) u (Some contentType) graph in
        let! r := construct (Some u) (Some g) etag in
        ret (FetchedResource r)
  end.

(** [resource.getURI()], [resource.store], [resource.etag] on what
    [getResource] returned: only a resource has the method. *)
Definition as_resource (f : Fetched) : M W OSLCResource.t :=
  match f with
  | FetchedResource r => ret r
  | _ => throw (TypeError "resource.getURI is not a function")
  end.

(** [new RootServices(resource.getURI(), resource.store, resource.etag)] and
    the like. *)
Definition rewrap (f : Fetched) : M W OSLCResource.t :=
  let! resource := as_resource f in
  construct (Some (OSLCResource.getURI resource))
            (Some (OSLCResource.store resource)) (OSLCResource.etag resource).

(** [this.base_url = ...], [this.rootservices = ...], [this.spc = ...],
    [this.sp = ...] *)
Definition set_base_url (b : string) : M W unit :=
  fun s => (Ok tt, with_base_url s b).
Definition set_rootservices (r : OSLCResource.t) : M W unit :=
  fun s => (Ok tt, with_rootservices s r).
Definition set_spc (r : OSLCResource.t) : M W unit :=
  fun s => (Ok tt, with_spc s r).
Definition set_sp (r : OSLCResource.t) : M W unit :=
  fun s => (Ok tt, with_sp s r).

(** One step of discovery: [getResource(url)] and the document class built
    over what it returned. *)
Definition read_document (u : string) : M W OSLCResource.t :=
  let! resource := getResource u "2.0" "application/rdf+xml" in
  rewrap resource.

(** [use(server_url, serviceProviderName, domain)] *)
Definition use (server_url serviceProviderName domain : string) : M W unit :=
  let base := strip_slash server_url in
  let! _ := set_base_url base in
  let! rs :=
    try_catch
      (let! rs := read_document (base +:+ "/rootservices") in
       let! _ := set_rootservices rs in
       ret rs)
      (fun error =>
         let! _ := console_log "Error fetching rootservices:" in
         throw (JsError "Failed to fetch rootservices document")) in
  match RootServices.serviceProviderCatalog rs (serviceProviders domain) with
  | None => throw (JsError ("No ServiceProviderCatalog for " +:+ domain +:+ " services"))
  | Some spcURL =>
      if bool_decide (spcURL = EmptyString) then
        throw (JsError ("No ServiceProviderCatalog for " +:+ domain +:+ " services"))
      else
        let! catalog :=
          try_catch
            (let! c := read_document spcURL in
             let! _ := set_spc c in
             ret c)
            (fun error =>
               let! _ := console_log "Error fetching ServiceProviderCatalog:" in
               throw error) in
        match ServiceProviderCatalog.serviceProvider catalog serviceProviderName with
        | None => throw (JsError (serviceProviderName +:+ " not found in service catalog"))
        | Some spURL =>
            if bool_decide (spURL = EmptyString) then
              throw (JsError (serviceProviderName +:+ " not found in service catalog"))
            else
              let! p := read_document spURL in
              set_sp p
        end
  end.



(** The parameters of a query, in the order they are appended. *)
Definition query_params (query : option QueryParams) : list (string * string) :=
  let field (name : string) (f : QueryParams -> option string) :=
    match query ≫= f with
    | Some v => if truthy (Some v) then [(name, v)] else []
    | None => []
    end in
  field "oslc.prefix" prefix ++ field "oslc.select" select
  ++ field "oslc.where" where_ ++ field "oslc.orderBy" orderBy
  ++ [("oslc.paging", "false")].

Definition query_headers : gmap string string :=
  <["OSLC-Core-Version" := "2.0"]>
  (<["Accept" := "application/rdf+xml"]>
  (<["X-Jazz-CSRF-Prevent" := "1"]> ∅)).

(** [store.any(sym(subject), oslc("nextPage"), null)?.value]: [sym] throws
    when [subject] is no absolute IRI. *)
Definition next_page (subject : string) (kb : Store) : M W (option string) :=
  match NamedNode_new subject with
  | Returned node => ret (term_value <$> any node (Some (oslc "nextPage")) kb)
  | Raised message => throw (JsError message)
  end.

(** The [while (nextPage)] loop of [queryWithBase]; [fuel] bounds the
    number of iterations. *)
Fixpoint follow_pages (fuel : nat) (u : string) (contentType : option string)
    (kb : Store) (nextPage : option string) : M W Store :=
  if truthy nextPage then
    match fuel, nextPage with
    | S fuel', Some np =>
        let! response := http_get np query_headers in
        let! kb' := parse_into (response_data response) u contentType kb in
        let! nextPage' := next_page np kb' in
        follow_pages fuel' u contentType kb' nextPage'
    | _, _ => out_of_fuel
    end
  else ret kb.

(** [queryWithBase(queryBase, query)] *)
Definition queryWithBase (fuel : nat) (queryBase : string)
    (query : option QueryParams) : M W Store :=
  let params := URLSearchParams_toString (query_params query) in
  let u := queryBase +:+ "?" +:+ params in
  let! response := http_get u query_headers in
  if negb (status response =? 200)%Z then
    throw (JsError ("Failed to query resource. Status: "
                    +:+ pretty (status response) +:+ String (ascii_of_nat 10) EmptyString
                    +:+ Data_toString (response_data response)))
  else
    let contentType := response_headers response !! "content-type" in
    let! kb := parse_into (response_data response) u contentType graph in
    let! nextPage := next_page queryBase kb in
    follow_pages fuel u contentType kb nextPage.

(** *** Reading compact resources, creating, deleting, querying *)

(** rdflib's [toString] of a term, as a template string applies it. *)
Variable Node_toString : Term -> string.

(** What [getResource] does when the server sent no Location and the URL
    it is given is [undefined]. *)
Variable getResource_undefined : M W Fetched.

(** [this.jar.getCookiesSync(url)]: the name and value of each cookie the
    jar holds for the URL; [None] when the call throws. *)
Variable getCookiesSync : W -> string -> option (list (string * string)).

(** [`${resourceType}`] *)
Definition describe (resourceType : ResourceType) : string :=
  match resourceType with
  | RTString s => s
  | RTNode n => Node_toString n
  end.

(** [getCompactResource(url, oslc_version, accept)]: here [$rdf.parse] is
    not inside a [try], so its exception leaves the method. *)
Definition getCompactResource (u : string) (oslc_version accept : string)
    : M W OSLCResource.t :=
  let hs : gmap string string :=
    <["Accept" := accept]> (<["OSLC-Core-Version" := oslc_version]> ∅) in
  let! response :=
    try_catch (http_get u hs)
      (fun error =>
         let! _ := console_log "Error fetching Compact resource:" in throw error) in
  match rdf_parse (response_data response) u (Some "application/rdf+xml") with
  | (_, Some msg) => throw (JsError msg)
  | (sts, None) => construct (Some u) (Some (add_all sts graph)) None
  end.






(** [query(resourceType, query)] *)
Definition query (fuel : nat) (resourceType : ResourceType)
    (q : option QueryParams) : M W Store :=
  fun s =>
    match sp s with
    | None => (Throw (JsError "ServiceProvider not initialized. Call use() first."), s)
    | Some provider =>
        match ServiceProvider.getQueryBase provider resourceType with
        | Raised message => (Throw (JsError message), s)
        | Returned None =>
            (Throw (JsError ("No query capability found for " +:+ describe resourceType)), s)
        | Returned (Some queryBase) => queryWithBase fuel queryBase q s
        end
    end.

(** A [for ... of] loop whose body awaits and pushes one result. *)
Fixpoint for_each {A B : Type} (xs : list A) (body : A -> M W B) : M W (list B) :=
  match xs with
  | [] => ret []
  | x :: xs' =>
      let! y := body x in
      let! ys := for_each xs' body in
      ret (y :: ys)
  end.

(** The resources [queryResources] builds from a result graph: one for
    each member statement, over the statements about that member. *)
Definition member_resources (kb : Store) : M W (list OSLCResource.t) :=
  let members := statementsMatching None (Some (rdfs "member")) None None kb in
  for_each members (fun member =>
    let memberStatements :=
      statementsMatching (Some (object member)) None None None kb in
    let memberKb := add_all memberStatements graph in
    construct (Some (term_value (object member))) (Some memberKb) None).

(** [queryResources(resourceType, query)] *)
Definition queryResources (fuel : nat) (resourceType : ResourceType)
    (q : option QueryParams) : M W (list OSLCResource.t) :=
  let! kb := query fuel resourceType q in
  member_resources kb.

(** [getOwner(url)], with the cache [this.ownerMap] passed in and handed
    back. *)
Definition getOwner (ownerMap : gmap string string) (u : string)
    : M W (string * gmap string string) :=
  match ownerMap !! u with
  | Some name => ret (name, ownerMap)
  | None =>
      let! response :=
        http_get u (<["Accept" := "application/rdf+xml"]> ∅) in
      if negb (status response =? 200)%Z then ret ("Unknown", ownerMap)
      else
        let contentLocation :=
          if truthy (response_headers response !! "content-location")
          then default u (response_headers response !! "content-location")
          else u in
        let contentType := response_headers response !! "content-type" in
        let! kb := parse_into (response_data response) u contentType graph in
        match NamedNode_new contentLocation with
        | Raised message => throw (JsError message)
        | Returned subject =>
            let name :=
              term_value <$> any subject
                                 (Some (sym "http://xmlns.com/foaf/0.1/name")) kb in
            match name with
            | Some n =>
                if truthy name then ret (n, <[u := n]> ownerMap)
                else ret ("Unknown", ownerMap)
            | None => ret ("Unknown", ownerMap)
            end
        end
  end.

End WithClient.
End OSLCClient.

(** * Reference definitions

    The vocabulary the properties below are stated in. *)

(** The values a [set] argument stands for. *)
Definition set_values (v : SetValue) : list Term :=
  match v with
  | SVundefined => []
  | SVnode t => [t]
  | SVarray ts => ts
  end.

(** [vs] with every node kept at its first occurrence only. *)
Fixpoint first_occurrences (vs : list Term) : list Term :=
  match vs with
  | [] => []
  | v :: vs' =>
      v :: List.filter (fun x => negb (bool_decide (x = v))) (first_occurrences vs')
  end.

(** Every statement of [kb] about [s] and [p] lies in the default graph. *)
Definition only_default (s p : Term) (kb : Store) : Prop :=
  forall st, st ∈ kb -> subject st = s -> predicate st = p -> why st = DefaultGraph.

(** The values of a property after one more is added, as the loop of
    [set] adds them: a value already there is not added again. *)
Definition add_new (M : list Term) (v : Term) : list Term :=
  if bool_decide (v ∈ M) then M else M ++ [v].

(** How [get] presents a list of value strings. *)
Definition view (l : list string) : PropertyValue :=
  match l with
  | [] => PVundefined
  | [v] => PVstring v
  | _ => PVarray l
  end.

(** The operations of a resource, and what a caller sees of each. *)
Inductive Op : Type :=
| OpGetURI
| OpGet (p : Property)
| OpGetIdentifier
| OpGetTitle
| OpGetShortTitle
| OpGetDescription
| OpSetTitle (value : string)
| OpSetDescription (value : string)
| OpSet (p : Property) (value : SetValue)
| OpGetLinkTypes
| OpGetProperties.

Inductive Observation : Type :=
| ObsVoid
| ObsString (v : option string)
| ObsValue (v : PropertyValue)
| ObsLinkTypes (v : gset string)
| ObsProperties (v : gmap string PropertyValue).

(** One call on a resource: what it returns and the resource afterwards;
    [None] when the call throws. *)
Definition perform (r : OSLCResource.t) (op : Op)
    : option (Observation * OSLCResource.t) :=
  match op with
  | OpGetURI => Some (ObsString (Some (OSLCResource.getURI r)), r)
  | OpGet p => Some (ObsValue (OSLCResource.get r p), r)
  | OpGetIdentifier => Some (ObsString (OSLCResource.getIdentifier r), r)
  | OpGetTitle => Some (ObsString (OSLCResource.getTitle r), r)
  | OpGetShortTitle => Some (ObsString (OSLCResource.getShortTitle r), r)
  | OpGetDescription => Some (ObsString (OSLCResource.getDescription r), r)
  | OpSetTitle v => pair ObsVoid <$> OSLCResource.setTitle r v
  | OpSetDescription v => pair ObsVoid <$> OSLCResource.setDescription r v
  | OpSet p v => pair ObsVoid <$> OSLCResource.set r p v
  | OpGetLinkTypes => Some (ObsLinkTypes (OSLCResource.getLinkTypes r), r)
  | OpGetProperties => Some (ObsProperties (OSLCResource.getProperties r), r)
  end.

(** A sequence of calls on one resource. *)
Fixpoint run_ops (ops : list Op) (r : OSLCResource.t) : option OSLCResource.t :=
  match ops with
  | [] => Some r
  | op :: ops' =>
      match perform r op with
      | Some (_, r') => run_ops ops' r'
      | None => None
      end
  end.

(** The creation factories of a provider, in the order the loops of
    [getCreationFactory] visit them: service by service. *)
Definition creation_factories (r : OSLCResource.t) : list Term :=
  flat_map (fun service => each service (oslc "creationFactory") (OSLCResource.store r))
           (each (OSLCResource.uri r) (oslc "service") (OSLCResource.store r)).

(** Whether a creation factory is one for the resource type asked for: by a
    string, some resource type of the factory ends with it; by a node, the
    store has exactly one resourceType statement from the factory to it. *)
Definition factory_matches (kb : Store) (resourceType : ResourceType)
    (creationFactory : Term) : bool :=
  match resourceType with
  | RTString s =>
      existsb (fun aType => endsWith (term_value aType) s)
              (each creationFactory (oslc "resourceType") kb)
  | RTNode n =>
      Nat.eqb (length (statementsMatching (Some creationFactory)
                         (Some (oslc "resourceType")) (Some n) None kb)) 1
  end.

(** The response axios builds from what the network returned for [req]. *)
Definition response_of `{Host} (raw : RawResponse) (req : Request) : Response :=
  {| status := raw_status raw; response_headers := raw_headers raw;
     response_data := Transport.transformResponse (raw_data raw); config := req |}.

(** The state after [req] went on the network and the world became [w]. *)
Definition after_dispatch {W} (s : State W) (w : W) (req : Request) : State W :=
  mkState w (sent s ++ [req]) (console s) (nextId s)
          (base_url s) (rootservices s) (spc s) (sp s) (deferred s).

(** The form challenge: the marker header asks for authentication. *)
Definition form_challenge (raw : RawResponse) : Prop :=
  raw_headers raw !! "x-com-ibm-team-repository-web-auth-msg" = Some "authrequired".




(** A call that only ever adds to the list of requests sent, starting with
    the requests [pre]. *)
Definition sends_first {W A} (m : M W A) (pre : list Request) : Prop :=
  forall s, exists rest, sent (m s).2 = sent s ++ pre ++ rest.



(** [x] is the first element of [l] with the property [P]. *)
Definition first_of {A : Type} (P : A -> Prop) (l : list A) (x : A) : Prop :=
  exists pre post, l = pre ++ x :: post /\ P x /\ forall y, y ∈ pre -> ~ P y.

(** [x] is the only element of [l] with the property [P]. *)
Definition only_of {A : Type} (P : A -> Prop) (l : list A) (x : A) : Prop :=
  exists pre post, l = pre ++ x :: post /\ P x /\ forall y, y ∈ pre ++ post -> ~ P y.

(** A statement about the subject [s] with the predicate [p]. *)
Definition about (s p : Term) (st : Statement) : Prop :=
  subject st = s /\ predicate st = p.

#[global] Instance about_dec (s p : Term) (st : Statement) : Decision (about s p st).
Proof. unfold about. apply _. Defined.

(** [u] is what the store gives for [p] of [s]: the value, not empty, of
    the object of the first statement about [s] with [p]. *)
Definition has_value (kb : Store) (s p : Term) (u : string) : Prop :=
  exists st, first_of (about s p) kb st /\ term_value (object st) = u /\ u <> EmptyString.

(** The nodes a provider reaches through one of its services by the
    predicate [p]: the store says that the provider has the service and
    that the service has the node. *)
Definition offered (r : OSLCResource.t) (p : Term) (node : Term) : Prop :=
  exists st1 st2,
    st1 ∈ OSLCResource.store r /\ about (OSLCResource.uri r) (oslc "service") st1
    /\ st2 ∈ OSLCResource.store r /\ about (object st1) p st2 /\ object st2 = node.

(** The nodes a provider reaches through its services by the predicate
    [p], in the order of the store: service statement by service
    statement, and for each service the statements about it. *)
Definition reached (r : OSLCResource.t) (p : Term) : list Term :=
  let kb := OSLCResource.store r in
  flat_map
    (fun st1 =>
       map object (List.filter (fun st2 => bool_decide (about (object st1) p st2)) kb))
    (List.filter
       (fun st1 => bool_decide (about (OSLCResource.uri r) (oslc "service") st1)) kb).

(** The creation factory [cf] is one for the resource type asked for: by a
    string, the store has a resourceType statement about the factory whose
    object ends with the string; by a node, the store has one resourceType
    statement from the factory to the node, and only one. *)
Definition factory_for (kb : Store) (resourceType : ResourceType) (cf : Term) : Prop :=
  match resourceType with
  | RTString s =>
      exists st pre,
        st ∈ kb /\ about cf (oslc "resourceType") st
        /\ term_value (object st) = pre +:+ s
  | RTNode n =>
      exists st, only_of (fun x => about cf (oslc "resourceType") x /\ object x = n) kb st
  end.

(** The query capability [qc] is one for the resource type [node]: the
    store has a resourceType statement from the capability to the node. *)
Definition capability_for (kb : Store) (node : Term) (qc : Term) : Prop :=
  exists st, st ∈ kb /\ about qc (oslc "resourceType") st /\ object st = node.

(** The console after a parse: the parser's exception, if it threw. *)
Definition with_parse_error {W} (s : State W) (err : option string) : State W :=
  match err with
  | Some msg => with_console_line s msg
  | None => s
  end.





(** A string [sym] takes for an IRI: not empty, with a colon, without a
    space. *)
Definition absolute_IRI (iri : string) : Prop :=
  iri <> EmptyString /\ includes iri ":" = true /\ includes iri " " = false.




(** A statement that gives its subject the title [title] the way the
    catalog lookup asks for it: predicate dcterms:title, object the
    XMLLiteral-typed literal with exactly that lexical value. *)
Definition is_title_statement (title : string) (st : Statement) : Prop :=
  predicate st = dcterms "title"
  /\ object st = Literal title EmptyString rdf_XMLLiteral.

(** The entry [getProperties] holds for a key whose values, in store
    order, are [l]: no entry, the one string, or the array. *)
Definition entry_of (l : list string) : option PropertyValue :=
  match l with
  | [] => None
  | [v] => Some (PVstring v)
  | _ => Some (PVarray l)
  end.

(** The strings of the objects of the statements in [sts] whose predicate
    reads [key]. *)
Definition values_under (key : string) (sts : list Statement) : list string :=
  map (fun st => term_value (object st))
      (List.filter (fun st => bool_decide (term_value (predicate st) = key)) sts).

(** One step of the loop of [getProperties]. *)
Definition add_property (result : gmap string PropertyValue) (statement : Statement)
    : gmap string PropertyValue :=
  let key := term_value (predicate statement) in
  let value := term_value (object statement) in
  match result !! key with
  | Some (PVarray vs) => <[key := PVarray (vs ++ [value])]> result
  | Some (PVstring v) => <[key := PVarray ([v] ++ [value])]> result
  | Some PVundefined | None => <[key := PVstring value]> result
  end.

(** The query capabilities of a provider, in the order the loops of
    [getQueryBase] visit them. *)
Definition query_capabilities (r : OSLCResource.t) : list Term :=
  flat_map (fun service => each service (oslc "queryCapability") (OSLCResource.store r))
           (each (OSLCResource.uri r) (oslc "service") (OSLCResource.store r)).

(** Whether a query capability is one for the resource type: the store has
    a resourceType statement from the capability to that node. *)
Definition capability_matches (kb : Store) (resourceType : Term)
    (queryCapability : Term) : bool :=
  negb (Nat.eqb (length (statementsMatching (Some queryCapability)
                           (Some (oslc "resourceType")) (Some resourceType) None kb)) 0).

(** The token-realm challenge: status 401, no form marker, and a
    www-authenticate header [h] that names the jauth realm. *)
Definition jauth_challenge (raw : RawResponse) (h : string) : Prop :=
  raw_status raw = 401%Z
  /\ ~ form_challenge raw
  /\ raw_headers raw !! "www-authenticate" = Some h
  /\ includes h "jauth realm" = true.







(** What the token endpoint is looked up after, and a string without a
    double quote. *)
Definition token_uri_key : string := "token_uri=" +:+ String dquote EmptyString.

Definition quote_free (v : string) : Prop :=
  includes v (String dquote EmptyString) = false.

(** The client's fields are the same in the state [s'] as in [s]. *)
Definition same_client {W} (s s' : State W) : Prop :=
  base_url s' = base_url s /\ rootservices s' = rootservices s
  /\ spc s' = spc s /\ sp s' = sp s.

(** A call that leaves the client's fields as they are. *)
Definition keeps_client {W A} (m : M W A) : Prop :=
  forall s, same_client s (m s).2.

(** A content type [getResource] does not read as RDF: none at all, XML,
    or an Atom feed. *)
Definition not_rdf (contentType : option string) : bool :=
  match contentType with
  | None => true
  | Some ct =>
      includes ct "text/xml" || includes ct "application/xml"
      || includes ct "application/atom+xml"
  end.



(** * Fixtures

    A concrete host and concrete documents, for evaluating the client. *)

(** [s] up to its first character satisfying [stop], and the rest. *)
Fixpoint break_at (stop : ascii -> bool) (s : string) : string * string :=
  match s with
  | EmptyString => (EmptyString, EmptyString)
  | String c s' =>
      if stop c then (EmptyString, s)
      else let '(a, b) := break_at stop s' in (String c a, b)
  end.

(** The scheme of [s] and what follows the first colon and two slashes. *)
Fixpoint scheme_split (s : string) : option (string * string) :=
  if startsWith s "://" then Some (EmptyString, string_drop 3 s)
  else match s with
       | EmptyString => None
       | String c s' =>
           match scheme_split s' with
           | Some (a, b) => Some (String c a, b)
           | None => None
           end
       end.

Definition is_char (l : list ascii) (c : ascii) : bool := bool_decide (c ∈ l).

(** A URL parser for plain absolute URLs (lower-case scheme and host, no
    credentials, no default port, no dot segments), on which the WHATWG
    parser changes nothing but an empty path. *)
Definition plain_URL (s : string) : option URL :=
  match scheme_split s with
  | None => None
  | Some (scheme, rest) =>
      let '(authority, rest1) := break_at (is_char ["/"; "?"; "#"]%char) rest in
      let '(path, rest2) := break_at (is_char ["?"; "#"]%char) rest1 in
      let '(query, fragment) := break_at (is_char ["#"]%char) rest2 in
      Some {| site := scheme +:+ "://" +:+ authority;
              origin := scheme +:+ "://" +:+ authority;
              pathname := if bool_decide (path = EmptyString) then "/" else path;
              search := query;
              hash := fragment |}
  end.

(** Form encoding without escapes: name=value pairs joined by an ampersand. *)
Fixpoint plain_form (params : list (string * string)) : string :=
  match params with
  | [] => EmptyString
  | [(k, v)] => k +:+ "=" +:+ v
  | (k, v) :: rest => k +:+ "=" +:+ v +:+ "&" +:+ plain_form rest
  end.

(** A parser that knows a table of documents by their text; any other text
    is a parse error with nothing asserted. *)
Fixpoint table_parse (table : list (string * (list Statement * option string)))
    (text : string) : list Statement * option string :=
  match table with
  | [] => ([], Some "parse error")
  | (t, r) :: table' => if bool_decide (t = text) then r else table_parse table' text
  end.

(** A JSON parser for the JSON texts among the bodies the fixtures use: an
    empty object and a number in exponent notation. *)
Definition fixture_json (body : string) : option Json :=
  if bool_decide (body = "{}") then Some (JObject [])
  else if bool_decide (body = "1e3") then Some (JNumber "1000")
  else None.

(** A DOM parser that takes text under one of the two XML content types,
    given without parameters, and throws on everything else. *)
Definition fixture_dom (data : Data) (mimeType : string) : option string :=
  match data with
  | DataText _ =>
      if bool_decide (mimeType = "text/xml") || bool_decide (mimeType = "application/xml")
      then None
      else Some "the provided mimeType is not valid"
  | DataJson _ => Some "source is not a string"
  end.

Definition fixture_host (table : list (string * (list Statement * option string)))
    : Host :=
  {| URL_new := plain_URL;
     isNodeEnvironment := true;
     URLSearchParams_toString := plain_form;
     JSON_parse := fixture_json;
     DOMParser_parseFromString := fixture_dom;
     rdf_parse := fun data _ _ =>
       match data with
       | DataText text => table_parse table text
       | DataJson _ => ([], Some "parse error")
       end;
     rdf_serialize := fun kb => "statements:" +:+ pretty (length kb) |}.

(** A resource with an empty graph. *)
Definition blank_work_item : OSLCResource.t :=
  {| OSLCResource.uri := sym "https://srv/ccm/resource/1";
     OSLCResource.store := graph;
     OSLCResource.etag := None;
     OSLCResource.queryURI := Some "https://srv/ccm/resource/1" |}.

(** A provider with one service and two creation factories: the first for
    ChangeRequest, asserted in two graphs, the second for Defect. *)
Definition provider_fixture : OSLCResource.t :=
  let sp := sym "https://srv/ccm/oslc/sp/1" in
  let svc := BlankNode "svc" in
  let cf1 := BlankNode "cf1" in
  let cf2 := BlankNode "cf2" in
  let g := NamedGraph "https://srv/ccm/oslc/sp/1" in
  {| OSLCResource.uri := sp;
     OSLCResource.store :=
       [ mkStatement sp (oslc "service") svc g;
         mkStatement svc (oslc "creationFactory") cf1 g;
         mkStatement svc (oslc "creationFactory") cf2 g;
         mkStatement cf1 (oslc "resourceType")
           (sym "http://open-services.net/ns/cm#ChangeRequest") g;
         mkStatement cf1 (oslc "resourceType")
           (sym "http://open-services.net/ns/cm#ChangeRequest") DefaultGraph;
         mkStatement cf1 (oslc "creation") (sym "https://srv/ccm/oslc/create/cr") g;
         mkStatement cf2 (oslc "resourceType")
           (sym "http://open-services.net/ns/cm#Defect") g;
         mkStatement cf2 (oslc "creation") (sym "https://srv/ccm/oslc/create/defect") g ];
     OSLCResource.etag := None;
     OSLCResource.queryURI := Some "https://srv/ccm/oslc/sp/1" |}.

(** A client of user alice, a request for a work item, a fresh state over
    a world without state, and a server that answers every request with a
    bare 401. *)
Definition alice : Credentials :=
  {| userid := "alice"; password := "secret"; configuration_context := None |}.

Definition initial_state : State unit :=
  mkState tt [] [] 0 None None None None [].


Definition work_item_request : Request :=
  Transport.make_request alice GET "https://srv/ccm/resource/1" None ∅.

(** A server that asks every request for form authentication, with a 401
    that also carries a jauth challenge. *)
Definition form_server (w : unit) (req : Request) : unit * option RawResponse :=
  (w, Some (mkRaw 401
              (<["x-com-ibm-team-repository-web-auth-msg" := "authrequired"]>
               (<["www-authenticate" := "jauth realm=jazz token_uri=none"]> ∅))
              "Login required")).




(** A Jazz server with a root services document for change management
    only, a catalog of two providers (one titled by an XML literal, one by a
    plain literal), a provider, and a query answered in three pages; a
    document that breaks off in the middle; and a resource that may be PUT
    with the concurrency token v2. *)
Definition root_url : string := "https://srv/ccm/rootservices".
Definition catalog_url : string := "https://srv/ccm/oslc/catalog".
Definition provider_url : string := "https://srv/ccm/oslc/sp/1".
Definition query_base_url : string := "https://srv/ccm/oslc/query".
Definition page2_url : string := "https://srv/ccm/oslc/query?page=2".
Definition page3_url : string := "https://srv/ccm/oslc/query?page=3".
Definition broken_url : string := "https://srv/ccm/resource/2".
Definition broken_query_url : string := "https://srv/ccm/oslc/broken".

Definition catalog_statements : list Statement :=
  [ mkStatement (sym provider_url) (dcterms "title")
      (literal_typed "Alpha Project" (sym rdf_XMLLiteral)) (NamedGraph catalog_url);
    mkStatement (sym "https://srv/ccm/oslc/sp/2") (dcterms "title")
      (literal "Beta Project") (NamedGraph catalog_url) ].

Definition page1_statements : list Statement :=
  [ mkStatement (sym query_base_url) (rdfs "member") (sym "https://srv/ccm/resource/1")
      (NamedGraph query_base_url);
    mkStatement (sym query_base_url) (oslc "nextPage") (sym page2_url)
      (NamedGraph query_base_url) ].
Definition page2_statements : list Statement :=
  [ mkStatement (sym query_base_url) (rdfs "member") (sym "https://srv/ccm/resource/2")
      (NamedGraph query_base_url);
    mkStatement (sym page2_url) (oslc "nextPage") (sym page3_url)
      (NamedGraph query_base_url) ].
Definition page3_statements : list Statement :=
  [ mkStatement (sym query_base_url) (rdfs "member") (sym "https://srv/ccm/resource/3")
      (NamedGraph query_base_url) ].

Definition documents : list (string * (list Statement * option string)) :=
  [ ("rootservices.rdf",
     ([ mkStatement (sym root_url) (oslc_cm1 "cmServiceProviders") (sym catalog_url)
          (NamedGraph root_url) ], None));
    ("catalog.rdf", (catalog_statements, None));
    ("provider.rdf", (OSLCResource.store provider_fixture, None));
    ("page1.rdf", (page1_statements, None));
    ("page2.rdf", (page2_statements, None));
    ("page3.rdf", (page3_statements, None));
    ("broken.rdf",
     ([ mkStatement (sym broken_url) (dcterms "title") (literal "Bug 2")
          (NamedGraph broken_url) ], Some "unexpected end of input")) ].

Definition jazz : Host := fixture_host documents.

Definition rdf_document (body : string) : RawResponse :=
  mkRaw 200 (<["content-type" := "application/rdf+xml"]> (<["etag" := "v2"]> ∅)) body.

Definition jazz_server (w : unit) (req : Request) : unit * option RawResponse :=
  (w,
   Some
     match method req with
     | GET =>
         if bool_decide (url req = root_url) then rdf_document "rootservices.rdf"
         else if bool_decide (url req = catalog_url) then rdf_document "catalog.rdf"
         else if bool_decide (url req = provider_url) then rdf_document "provider.rdf"
         else if bool_decide (url req = query_base_url +:+ "?oslc.paging=false")
              then rdf_document "page1.rdf"
         else if bool_decide (url req = page2_url) then rdf_document "page2.rdf"
         else if bool_decide (url req = page3_url) then rdf_document "page3.rdf"
         else if bool_decide (url req = broken_url) then rdf_document "broken.rdf"
         else if bool_decide (url req = broken_query_url +:+ "?oslc.paging=false")
              then rdf_document "broken.rdf"
         else mkRaw 404 ∅ "Not Found"
     | PUT =>
         match headers req !! "If-Match" with
         | Some tag =>
             if bool_decide (tag = "v2") then mkRaw 200 ∅ "updated"
             else mkRaw 412 ∅ "Precondition Failed"
         | None => mkRaw 200 ∅ "updated"
         end
     | _ => mkRaw 404 ∅ "Not Found"
     end).

(** The work item the server holds, as a client read it. *)
Definition work_item : OSLCResource.t :=
  {| OSLCResource.uri := sym "https://srv/ccm/resource/1";
     OSLCResource.store :=
       [ mkStatement (sym "https://srv/ccm/resource/1") (dcterms "title")
           (literal "Bug 1") (NamedGraph "https://srv/ccm/resource/1") ];
     OSLCResource.etag := Some "v1";
     OSLCResource.queryURI := Some "https://srv/ccm/resource/1" |}.

(** The catalog of the server, as a client read it. *)
Definition catalog_fixture : OSLCResource.t :=
  {| OSLCResource.uri := sym catalog_url;
     OSLCResource.store := catalog_statements;
     OSLCResource.etag := Some "v2";
     OSLCResource.queryURI := Some catalog_url |}.

(** The root services document of the server, as a client read it, and the
    request that reads a document. *)
Definition rootservices_fixture : OSLCResource.t :=
  {| OSLCResource.uri := sym root_url;
     OSLCResource.store :=
       [ mkStatement (sym root_url) (oslc_cm1 "cmServiceProviders") (sym catalog_url)
           (NamedGraph root_url) ];
     OSLCResource.etag := Some "v2";
     OSLCResource.queryURI := Some root_url |}.

Definition document_request (u : string) : Request :=
  Transport.make_request alice GET u None
    (<["Accept" := "application/rdf+xml"]> (<["OSLC-Core-Version" := "2.0"]> ∅)).

(** A work item with a title, a description, two subjects and a link. *)
Definition described_item : OSLCResource.t :=
  let me := sym "https://srv/ccm/resource/7" in
  let g := NamedGraph "https://srv/ccm/resource/7" in
  {| OSLCResource.uri := me;
     OSLCResource.store :=
       [ mkStatement me (dcterms "title") (literal "Bug 7") g;
         mkStatement me (dcterms "subject") (literal "ui") g;
         mkStatement me (dcterms "description") (literal "It crashes") g;
         mkStatement me (dcterms "subject") (literal "crash") g;
         mkStatement me (oslc "serviceProvider") (sym provider_url) g;
         mkStatement (sym provider_url) (dcterms "title") (literal "Alpha Project") g ];
     OSLCResource.etag := Some "v7";
     OSLCResource.queryURI := Some "https://srv/ccm/resource/7" |}.

(** A provider whose first query capability for change requests has no
    query base, and whose second has one. *)
Definition provider_without_base : OSLCResource.t :=
  let me := sym "https://srv/ccm/oslc/sp/3" in
  let svc := BlankNode "svc" in
  let qc1 := BlankNode "qc1" in
  let qc2 := BlankNode "qc2" in
  let cr := sym "http://open-services.net/ns/cm#ChangeRequest" in
  {| OSLCResource.uri := me;
     OSLCResource.store :=
       [ mkStatement me (oslc "service") svc DefaultGraph;
         mkStatement svc (oslc "queryCapability") qc1 DefaultGraph;
         mkStatement svc (oslc "queryCapability") qc2 DefaultGraph;
         mkStatement qc1 (oslc "resourceType") cr DefaultGraph;
         mkStatement qc2 (oslc "resourceType") cr DefaultGraph;
         mkStatement qc2 (oslc "queryBase") (sym query_base_url) DefaultGraph ];
     OSLCResource.etag := None;
     OSLCResource.queryURI := Some "https://srv/ccm/oslc/sp/3" |}.

(** A server behind a token realm: without a bearer token it answers 401
    and names its token endpoint, the endpoint hands out the token t0k3n,
    and with that token it answers 200.  And a server whose login form
    turns every login down with 200 and the login page. *)
Definition token_endpoint : string := "https://srv/jts/jauth-issue-token".




Definition realm_without_endpoint (w : unit) (req : Request) : unit * option RawResponse :=
  (w, Some (mkRaw 401 (<["www-authenticate" := "jauth realm=ccm"]> ∅) "Unauthorized")).

Definition failing_login_server (w : unit) (req : Request) : unit * option RawResponse :=
  (w,
   Some
     (if bool_decide (url req = "https://srv/ccm/j_security_check")
      then mkRaw 200 ∅ "Login failed"
      else mkRaw 200 (<["x-com-ibm-team-repository-web-auth-msg" := "authrequired"]> ∅)
             "Login required")).

(** A network that is down, and a server that answers every request with
    an XML document. *)
Definition offline (w : unit) (req : Request) : unit * option RawResponse :=
  (w, None).

Definition xml_server (w : unit) (req : Request) : unit * option RawResponse :=
  (w, Some (mkRaw 200 (<["content-type" := "application/xml"]> ∅) "<rootservices/>")).

(** A provider with one query capability for change requests. *)
Definition provider_with_query : OSLCResource.t :=
  let me := sym "https://srv/ccm/oslc/sp/4" in
  let svc := BlankNode "svc" in
  let qc := BlankNode "qc" in
  {| OSLCResource.uri := me;
     OSLCResource.store :=
       [ mkStatement me (oslc "service") svc DefaultGraph;
         mkStatement svc (oslc "queryCapability") qc DefaultGraph;
         mkStatement qc (oslc "resourceType")
           (sym "http://open-services.net/ns/cm#ChangeRequest") DefaultGraph;
         mkStatement qc (oslc "queryBase") (sym query_base_url) DefaultGraph ];
     OSLCResource.etag := None;
     OSLCResource.queryURI := Some "https://srv/ccm/oslc/sp/4" |}.

(** A client that has chosen its provider. *)
Definition provider_state (provider : OSLCResource.t) : State unit :=
  mkState tt [] [] 0 (Some "https://srv/ccm") None None (Some provider) [].





(** A compact resource with a small preview the store says nothing about
    and a large preview with a document and a height. *)
Definition compact_item : OSLCResource.t :=
  let me := sym "https://srv/ccm/resource/1" in
  let large := BlankNode "large" in
  {| OSLCResource.uri := me;
     OSLCResource.store :=
       [ mkStatement me (oslc "smallPreview") (BlankNode "small") DefaultGraph;
         mkStatement me (oslc "largePreview") large DefaultGraph;
         mkStatement large (oslc "document") (sym "https://srv/ccm/resource/1/large")
           DefaultGraph;
         mkStatement large (oslc "hintHeight") (literal "20em") DefaultGraph ];
     OSLCResource.etag := None;
     OSLCResource.queryURI := Some "https://srv/ccm/resource/1" |}.











(** * Properties *)

(** ** The store *)

Lemma remove_statement_first (pre : list Statement) (st : Statement) (kb : Store) :
  st ∉ pre -> remove_statement st (pre ++ st :: kb) = Some (pre ++ kb).
Proof.
  induction pre as [|x pre IH]; intros Hnot; simpl.
  - by rewrite bool_decide_eq_true_2.
  - apply not_elem_of_cons in Hnot as [Hne Hnot].
    rewrite bool_decide_eq_false_2 by congruence.
    by rewrite IH.
Qed.

(** Removing the statements a pattern selects never throws and leaves the
    others, in order. *)
Lemma remove_filter (m : Statement -> bool) (pre kb : Store) :
  (forall x, x ∈ pre -> m x = false) ->
  remove (List.filter m kb) (pre ++ kb)
  = Some (pre ++ List.filter (fun x => negb (m x)) kb).
Proof.
  revert pre. induction kb as [|x kb IH]; intros pre Hpre; simpl.
  - done.
  - destruct (m x) eqn:Hx; simpl.
    + rewrite remove_statement_first.
      * by apply IH.
      * intros Hin. apply Hpre in Hin. congruence.
    + specialize (IH (pre ++ [x])).
      rewrite <- !app_assoc in IH. simpl in IH. apply IH.
      intros y Hy. apply elem_of_app in Hy as [Hy|Hy]; [by apply Hpre|].
      apply list_elem_of_singleton in Hy. by subst.
Qed.

Lemma remove_statementsMatching (s p o : option Term) (g : option Graph) (kb : Store) :
  remove (statementsMatching s p o g kb) kb
  = Some (List.filter (fun x => negb (statement_matches s p o g x)) kb).
Proof.
  unfold statementsMatching.
  apply (remove_filter (statement_matches s p o g) [] kb).
  intros x Hx. by apply elem_of_nil in Hx.
Qed.

Lemma statementsMatching_app s p o g (kb1 kb2 : Store) :
  statementsMatching s p o g (kb1 ++ kb2)
  = statementsMatching s p o g kb1 ++ statementsMatching s p o g kb2.
Proof. unfold statementsMatching. apply List.filter_app. Qed.

Lemma statementsMatching_removed s p o g (kb : Store) :
  statementsMatching s p o g
    (List.filter (fun x => negb (statement_matches s p o g x)) kb) = [].
Proof.
  unfold statementsMatching. induction kb as [|x kb IH]; simpl; [done|].
  destruct (statement_matches s p o g x) eqn:Hx; simpl; [done|].
  by rewrite Hx.
Qed.

Lemma statement_matches_sp (s p : Term) (st : Statement) :
  statement_matches (Some s) (Some p) None None st = true
  <-> subject st = s /\ predicate st = p.
Proof.
  unfold statement_matches; simpl.
  rewrite !andb_true_r, andb_true_iff, !bool_decide_eq_true.
  intuition congruence.
Qed.

Lemma elem_of_statementsMatching s p o g (kb : Store) (st : Statement) :
  st ∈ statementsMatching s p o g kb
  <-> st ∈ kb /\ statement_matches s p o g st = true.
Proof.
  unfold statementsMatching. rewrite !list_elem_of_In. apply List.filter_In.
Qed.

Lemma holds_each (s p v : Term) (kb : Store) :
  only_default s p kb ->
  mkStatement s p v DefaultGraph ∈ kb <-> v ∈ each s p kb.
Proof.
  intros Hdef. unfold each. rewrite list_elem_of_fmap. split.
  - intros Hin. exists (mkStatement s p v DefaultGraph). split; [done|].
    apply elem_of_statementsMatching. split; [done|].
    by apply statement_matches_sp.
  - intros (st & -> & Hst).
    apply elem_of_statementsMatching in Hst as [Hin Hm].
    apply statement_matches_sp in Hm as [Hs Hp].
    pose proof (Hdef st Hin Hs Hp) as Hw.
    destruct st as [s' p' o' w']; simpl in *. by subst.
Qed.

Lemma each_add (s p v : Term) (kb : Store) :
  only_default s p kb ->
  each s p (add s p v kb)
  = if bool_decide (v ∈ each s p kb) then each s p kb else each s p kb ++ [v].
Proof.
  intros Hdef. unfold add, add_statement, holds.
  pose proof (holds_each s p v kb Hdef) as Hiff.
  destruct (bool_decide (mkStatement s p v DefaultGraph ∈ kb)) eqn:Hh.
  - apply bool_decide_eq_true in Hh. by rewrite bool_decide_eq_true_2 by tauto.
  - apply bool_decide_eq_false in Hh. rewrite bool_decide_eq_false_2 by tauto.
    unfold each. rewrite statementsMatching_app, map_app. f_equal.
    unfold statementsMatching; simpl.
    assert (statement_matches (Some s) (Some p) None None
              (mkStatement s p v DefaultGraph) = true) as ->; [|done].
    by apply statement_matches_sp.
Qed.

Lemma only_default_add (s p v : Term) (kb : Store) :
  only_default s p kb -> only_default s p (add s p v kb).
Proof.
  intros Hdef st Hin Hs Hp. unfold add, add_statement in Hin.
  destruct (holds _ kb); [by apply Hdef|].
  apply elem_of_app in Hin as [Hin|Hin]; [by apply Hdef|].
  apply list_elem_of_singleton in Hin. by subst.
Qed.

Lemma each_fold_add (s p : Term) (vs : list Term) (kb : Store) :
  only_default s p kb ->
  each s p (fold_left (fun acc v => add s p v acc) vs kb)
  = fold_left add_new vs (each s p kb).
Proof.
  revert kb. induction vs as [|v vs IH]; intros kb Hdef; simpl; [done|].
  rewrite IH by by apply only_default_add.
  by rewrite each_add.
Qed.

Lemma filter_filter_absorb (M : list Term) (v : Term) (l : list Term) :
  v ∈ M ->
  List.filter (fun x => negb (bool_decide (x ∈ M)))
    (List.filter (fun x => negb (bool_decide (x = v))) l)
  = List.filter (fun x => negb (bool_decide (x ∈ M))) l.
Proof.
  intros Hv. induction l as [|x l IH]; simpl; [done|].
  destruct (bool_decide (x = v)) eqn:Hx; simpl.
  - apply bool_decide_eq_true in Hx. subst x.
    by rewrite bool_decide_eq_true_2.
  - destruct (bool_decide (x ∈ M)); simpl; by rewrite IH.
Qed.

Lemma filter_snoc_split (M : list Term) (v : Term) (l : list Term) :
  List.filter (fun x => negb (bool_decide (x ∈ M ++ [v]))) l
  = List.filter (fun x => negb (bool_decide (x ∈ M)))
      (List.filter (fun x => negb (bool_decide (x = v))) l).
Proof.
  induction l as [|x l IH]; simpl; [done|].
  destruct (decide (x = v)) as [->|Hne].
  - rewrite (bool_decide_eq_true_2 (v = v)) by done. simpl.
    rewrite bool_decide_eq_true_2; [done|].
    apply elem_of_app. right. by apply list_elem_of_singleton.
  - rewrite (bool_decide_eq_false_2 (x = v)) by done. simpl.
    destruct (decide (x ∈ M)) as [Hin|Hnin].
    + rewrite !bool_decide_eq_true_2; [done|done|].
      apply elem_of_app. by left.
    + rewrite !bool_decide_eq_false_2; [simpl; by rewrite IH|done|].
      intros Hin. apply elem_of_app in Hin as [?|Hin]; [done|].
      by apply list_elem_of_singleton in Hin.
Qed.

Lemma fold_add_new (vs M : list Term) :
  fold_left add_new vs M
  = M ++ List.filter (fun x => negb (bool_decide (x ∈ M))) (first_occurrences vs).
Proof.
  revert M. induction vs as [|v vs IH]; intros M; simpl.
  - by rewrite app_nil_r.
  - rewrite IH. unfold add_new.
    destruct (decide (v ∈ M)) as [Hin|Hnin].
    + rewrite !bool_decide_eq_true_2 by done. simpl.
      by rewrite filter_filter_absorb.
    + rewrite !bool_decide_eq_false_2 by done. simpl.
      rewrite <- app_assoc. simpl. by rewrite filter_snoc_split.
Qed.

Lemma fold_add_new_nil (vs : list Term) :
  fold_left add_new vs [] = first_occurrences vs.
Proof.
  rewrite fold_add_new. simpl.
  induction (first_occurrences vs) as [|x l IH]; [done|].
  cbn [List.filter]. by rewrite IH.
Qed.

Lemma filter_other_id (v : Term) (l : list Term) :
  v ∉ l -> List.filter (fun x => negb (bool_decide (x = v))) l = l.
Proof.
  induction l as [|x l IH]; intros Hnin; simpl; [done|].
  apply not_elem_of_cons in Hnin as [Hne Hnin].
  rewrite bool_decide_eq_false_2 by congruence. simpl. by rewrite IH.
Qed.

Lemma first_occurrences_NoDup (vs : list Term) :
  NoDup vs -> first_occurrences vs = vs.
Proof.
  induction 1 as [|v vs Hnin Hnd IH]; simpl; [done|].
  by rewrite IH, filter_other_id.
Qed.

(** ** OSLCResource: get and set *)

Lemma get_view (r : OSLCResource.t) (P : Property) :
  OSLCResource.get r P
  = view (map term_value
            (each (OSLCResource.uri r) (OSLCResource.property_node P)
                  (OSLCResource.store r))).
Proof.
  unfold OSLCResource.get.
  destruct (each _ _ _) as [|v [|w l]]; reflexivity.
Qed.

Lemma only_default_removed (s p : Term) (kb : Store) :
  only_default s p
    (List.filter (fun x => negb (statement_matches (Some s) (Some p) None None x)) kb).
Proof.
  intros st Hin Hs Hp.
  rewrite list_elem_of_In in Hin. apply List.filter_In in Hin as [_ Hm].
  assert (statement_matches (Some s) (Some p) None None st = true) as Ht
    by by apply statement_matches_sp.
  rewrite Ht in Hm. discriminate.
Qed.

Lemma each_after_replace (s p : Term) (vs : list Term) (kb : Store) :
  each s p
    (fold_left (fun acc v => add s p v acc) vs
       (List.filter (fun x => negb (statement_matches (Some s) (Some p) None None x)) kb))
  = first_occurrences vs.
Proof.
  rewrite each_fold_add by apply only_default_removed.
  unfold each at 1. rewrite statementsMatching_removed. simpl.
  apply fold_add_new_nil.
Qed.

(** What [set] does to the store, for every kind of value. *)
Lemma set_store (r : OSLCResource.t) (P : Property) (vs : SetValue) :
  OSLCResource.set r P vs
  = Some (OSLCResource.with_store r
            (fold_left
               (fun acc v => add (OSLCResource.uri r) (OSLCResource.property_node P) v acc)
               (set_values vs)
               (List.filter
                  (fun x => negb (statement_matches (Some (OSLCResource.uri r))
                                    (Some (OSLCResource.property_node P)) None None x))
                  (OSLCResource.store r)))).
Proof.
  unfold OSLCResource.set. rewrite remove_statementsMatching.
  destruct vs; reflexivity.
Qed.

(** Statements about another subject or property are not touched by the
    additions of [set]. *)
Lemma others_fold_add (s p : Term) (vs : list Term) (kb : Store) :
  List.filter (fun x => negb (statement_matches (Some s) (Some p) None None x))
    (fold_left (fun acc v => add s p v acc) vs kb)
  = List.filter (fun x => negb (statement_matches (Some s) (Some p) None None x)) kb.
Proof.
  revert kb. induction vs as [|v vs IH]; intros kb; simpl; [done|].
  rewrite IH. unfold add, add_statement. destruct (holds _ kb); [done|].
  rewrite List.filter_app. simpl.
  assert (statement_matches (Some s) (Some p) None None
            (mkStatement s p v DefaultGraph) = true) as ->
    by by apply statement_matches_sp.
  simpl. by rewrite app_nil_r.
Qed.

Lemma filter_negb_idem (m : Statement -> bool) (kb : Store) :
  List.filter (fun x => negb (m x)) (List.filter (fun x => negb (m x)) kb)
  = List.filter (fun x => negb (m x)) kb.
Proof.
  induction kb as [|x kb IH]; simpl; [done|].
  destruct (m x) eqn:Hx; simpl; [done|]. rewrite Hx. simpl. by rewrite IH.
Qed.

(** C1 (as amended): [set] never throws; afterwards the values of the
    property on the resource's subject are exactly the nodes given, each
    kept once at its first occurrence, whatever the store held before; [get]
    returns their strings: the single string for one node, the ordered list
    for several, [undefined] for none.  Statements about other subjects or
    properties stay as they were. *)
Theorem set_then_get (r : OSLCResource.t) (P : Property) (vs : SetValue) :
  exists r',
    OSLCResource.set r P vs = Some r'
    /\ OSLCResource.uri r' = OSLCResource.uri r
    /\ each (OSLCResource.uri r') (OSLCResource.property_node P) (OSLCResource.store r')
       = first_occurrences (set_values vs)
    /\ OSLCResource.get r' P = view (map term_value (first_occurrences (set_values vs)))
    /\ List.filter
         (fun x => negb (statement_matches (Some (OSLCResource.uri r))
                           (Some (OSLCResource.property_node P)) None None x))
         (OSLCResource.store r')
       = List.filter
           (fun x => negb (statement_matches (Some (OSLCResource.uri r))
                             (Some (OSLCResource.property_node P)) None None x))
           (OSLCResource.store r).
Proof.
  eexists. split; [apply set_store|].
  split; [reflexivity|].
  assert (each (OSLCResource.uri r) (OSLCResource.property_node P)
            (fold_left
               (fun acc v => add (OSLCResource.uri r) (OSLCResource.property_node P) v acc)
               (set_values vs)
               (List.filter
                  (fun x => negb (statement_matches (Some (OSLCResource.uri r))
                                    (Some (OSLCResource.property_node P)) None None x))
                  (OSLCResource.store r)))
          = first_occurrences (set_values vs)) as Heach
    by apply each_after_replace.
  split; [exact Heach|].
  split.
  - rewrite get_view. simpl. by rewrite Heach.
  - simpl. rewrite others_fold_add. apply filter_negb_idem.
Qed.

(** C1, as stated, fails on an array that repeats a node: the store keeps
    one statement, and [get] returns a single string. *)
Lemma set_get_repeated_value :
  exists r',
    OSLCResource.set blank_work_item (PropString "http://purl.org/dc/terms/subject")
      (SVarray [literal "a"; literal "a"]) = Some r'
    /\ OSLCResource.get r' (PropString "http://purl.org/dc/terms/subject") = PVstring "a"
    /\ OSLCResource.get r' (PropString "http://purl.org/dc/terms/subject")
       <> view (map term_value (set_values (SVarray [literal "a"; literal "a"]))).
Proof.
  eexists. split; [reflexivity|]. split; [reflexivity|]. discriminate.
Qed.

(** Round trips on a resource that already has a title. *)
Example set_get_single :
  (OSLCResource.setTitle work_item "Bug 1, again" ≫= fun r =>
     Some (OSLCResource.get r (PropString "http://purl.org/dc/terms/title"),
           OSLCResource.getTitle r))
  = Some (PVstring "Bug 1, again", Some "Bug 1, again").
Proof. reflexivity. Qed.

Example set_get_several :
  (OSLCResource.set work_item (PropString "http://purl.org/dc/terms/title")
     (SVarray [literal "a"; sym "b"; literal "c"]) ≫= fun r =>
     Some (OSLCResource.get r (PropString "http://purl.org/dc/terms/title")))
  = Some (PVarray ["a"; "b"; "c"]).
Proof. reflexivity. Qed.

Example set_get_absent :
  (OSLCResource.set work_item (PropString "http://purl.org/dc/terms/title")
     SVundefined ≫= fun r =>
     Some (OSLCResource.get r (PropString "http://purl.org/dc/terms/title"),
           OSLCResource.store r))
  = Some (PVundefined, []).
Proof. reflexivity. Qed.

(** With pairwise distinct nodes the round trip is exact. *)
Corollary set_then_get_distinct (r r' : OSLCResource.t) (P : Property) (vs : SetValue) :
  NoDup (set_values vs) ->
  OSLCResource.set r P vs = Some r' ->
  OSLCResource.get r' P = view (map term_value (set_values vs)).
Proof.
  intros Hnd Hset. rewrite set_store in Hset. injection Hset as <-.
  rewrite get_view. simpl. rewrite each_after_replace.
  by rewrite first_occurrences_NoDup.
Qed.

(** ** OSLCResource: the canonical URI *)

Lemma set_fields (r r' : OSLCResource.t) (P : Property) (vs : SetValue) :
  OSLCResource.set r P vs = Some r' ->
  OSLCResource.uri r' = OSLCResource.uri r
  /\ OSLCResource.queryURI r' = OSLCResource.queryURI r
  /\ OSLCResource.etag r' = OSLCResource.etag r.
Proof. rewrite set_store. intros [= <-]. done. Qed.

Lemma perform_total (r : OSLCResource.t) (op : Op) :
  exists obs r',
    perform r op = Some (obs, r')
    /\ OSLCResource.uri r' = OSLCResource.uri r
    /\ OSLCResource.queryURI r' = OSLCResource.queryURI r.
Proof.
  destruct op; simpl;
    try (eexists _, r; split; [reflexivity|done]);
    unfold OSLCResource.setTitle, OSLCResource.setDescription;
    rewrite set_store; simpl; eexists _, _; (split; [reflexivity|done]).
Qed.

Lemma run_ops_total (ops : list Op) (r : OSLCResource.t) :
  exists r',
    run_ops ops r = Some r'
    /\ OSLCResource.uri r' = OSLCResource.uri r
    /\ OSLCResource.queryURI r' = OSLCResource.queryURI r.
Proof.
  revert r. induction ops as [|op ops IH]; intros r; simpl.
  - by exists r.
  - destruct (perform_total r op) as (obs & r1 & -> & Hu & Hq).
    destruct (IH r1) as (r' & Hrun & Hu' & Hq').
    exists r'. split; [done|]. split; congruence.
Qed.

(** C9: a resource constructed from a URL [u] has the origin and path of
    [u] as its subject URI and keeps [u] as its query URI; every sequence of
    operations on it runs through and leaves both as they were. *)
Theorem canonical_uri_fixed `{Host} (fresh u : string) (st : option Store)
    (tag : option string) (U : URL) :
  u <> EmptyString ->
  URL_new u = Some U ->
  exists r,
    OSLCResource.new fresh (Some u) st tag = Some r
    /\ OSLCResource.uri r = NamedNode (origin U +:+ pathname U)
    /\ OSLCResource.getURI r = origin U +:+ pathname U
    /\ OSLCResource.queryURI r = Some u
    /\ forall ops : list Op,
         exists r',
           run_ops ops r = Some r'
           /\ OSLCResource.uri r' = OSLCResource.uri r
           /\ OSLCResource.queryURI r' = OSLCResource.queryURI r.
Proof.
  intros Hu HU. unfold OSLCResource.new.
  rewrite bool_decide_eq_false_2 by done. rewrite HU.
  eexists. split; [reflexivity|]. simpl.
  split; [done|]. split; [done|]. split; [done|].
  intros ops. apply run_ops_total.
Qed.

(** A resource read through a query URL is addressed by origin and path. *)
Lemma canonical_uri_fixed_witness :
  exists r,
    @OSLCResource.new (fixture_host []) "n0"
      (Some "https://srv/ccm/oslc/query?oslc.where=dcterms:title") None None = Some r
    /\ OSLCResource.uri r = NamedNode ("https://srv" +:+ "/ccm/oslc/query")
    /\ OSLCResource.getURI r = "https://srv" +:+ "/ccm/oslc/query"
    /\ OSLCResource.queryURI r
       = Some "https://srv/ccm/oslc/query?oslc.where=dcterms:title"
    /\ forall ops : list Op,
         exists r',
           run_ops ops r = Some r'
           /\ OSLCResource.uri r' = OSLCResource.uri r
           /\ OSLCResource.queryURI r' = OSLCResource.queryURI r.
Proof.
  apply (@canonical_uri_fixed (fixture_host []) "n0"
           "https://srv/ccm/oslc/query?oslc.where=dcterms:title" None None
           (mkURL "https://srv" "https://srv" "/ccm/oslc/query"
                  "?oslc.where=dcterms:title" EmptyString)).
  - discriminate.
  - reflexivity.
Defined.

(** ** JavaScript strings *)

Lemma substring_whole (t : string) : substring 0 (String.length t) t = t.
Proof. induction t as [|c t IH]; simpl; [done|]. by rewrite IH. Qed.

Lemma substring_after (pre t : string) :
  substring (String.length pre) (String.length t) (pre +:+ t) = t.
Proof. induction pre as [|c pre IH]; simpl; [apply substring_whole|done]. Qed.

Lemma length_app_string (a b : string) :
  String.length (a +:+ b) = String.length a + String.length b.
Proof. induction a as [|c a IH]; simpl; [done|]. by rewrite IH. Qed.

Lemma substring_split (s : string) (n k : nat) :
  n + k = String.length s -> s = substring 0 n s +:+ substring n k s.
Proof.
  revert n k. induction s as [|c s IH]; intros n k Hlen; simpl in *.
  - destruct n; simpl; [|lia]. destruct k; [done|lia].
  - destruct n as [|n]; simpl.
    + destruct k as [|k]; [lia|]. injection Hlen as ->. by rewrite substring_whole.
    + change (String c s = String c (substring 0 n s +:+ substring n k s)).
      f_equal. apply IH. lia.
Qed.

(** [endsWith] is the suffix test. *)
Lemma endsWith_suffix (s t : string) :
  endsWith s t = true <-> exists pre, s = pre +:+ t.
Proof.
  unfold endsWith. rewrite andb_true_iff, !bool_decide_eq_true. split.
  - intros [Hle Hsub].
    exists (substring 0 (String.length s - String.length t) s).
    pose proof (substring_split s (String.length s - String.length t)
                  (String.length t)) as Hs.
    rewrite Hsub in Hs. apply Hs. lia.
  - intros [pre ->]. rewrite length_app_string. split; [lia|].
    replace (String.length pre + String.length t - String.length t)
      with (String.length pre) by lia.
    apply substring_after.
Qed.

(** ** Loops *)

Lemma for_of_app {A R} (l1 l2 : list A) (body : A -> Flow R) :
  for_of (l1 ++ l2) body
  = match for_of l1 body with
    | Return r => Return r
    | Continue => for_of l2 body
    end.
Proof.
  induction l1 as [|x l1 IH]; simpl; [done|].
  destruct (body x); [done|apply IH].
Qed.

Lemma for_of_flat_map {A B R} (xs : list A) (g : A -> list B) (body : B -> Flow R) :
  for_of xs (fun x => for_of (g x) body) = for_of (flat_map g xs) body.
Proof.
  induction xs as [|x xs IH]; simpl; [done|].
  rewrite for_of_app, IH. reflexivity.
Qed.

Lemma for_of_find {A R} (xs : list A) (P : A -> bool) (f : A -> R)
    (body : A -> Flow R) :
  (forall x, body x = if P x then Return (f x) else Continue) ->
  for_of xs body
  = match List.find P xs with
    | Some x => Return (f x)
    | None => Continue
    end.
Proof.
  intros Hbody. induction xs as [|x xs IH]; simpl; [done|].
  rewrite Hbody. destruct (P x); [done|apply IH].
Qed.

Lemma for_of_existsb {A R} (xs : list A) (E : A -> bool) (c : R) :
  for_of xs (fun x => if E x then Return c else Continue)
  = if existsb E xs then Return c else Continue.
Proof.
  induction xs as [|x xs IH]; simpl; [done|].
  destruct (E x); [done|apply IH].
Qed.

(** ** ServiceProvider *)

Lemma find_first_of {A} (P : A -> bool) (l : list A) (x : A) :
  List.find P l = Some x <-> first_of (fun y => P y = true) l x.
Proof.
  split.
  - induction l as [|a l IH]; simpl; [discriminate|].
    destruct (P a) eqn:Ha.
    + intros [= ->]. exists [], l. split; [done|]. split; [done|].
      intros y Hy. by apply elem_of_nil in Hy.
    + intros Hf. destruct (IH Hf) as (pre & post & -> & Hx & Hpre).
      exists (a :: pre), post. split; [done|]. split; [done|].
      intros y Hy. apply elem_of_cons in Hy as [->|Hy]; [congruence|by apply Hpre].
  - intros (pre & post & -> & Hx & Hpre). induction pre as [|a pre IH]; simpl.
    + by rewrite Hx.
    + destruct (P a) eqn:Ha.
      * exfalso. apply (Hpre a); [apply list_elem_of_here|done].
      * apply IH. intros y Hy. apply Hpre. by apply list_elem_of_further.
Qed.

Lemma find_none_iff {A} (P : A -> bool) (l : list A) :
  List.find P l = None <-> forall y, y ∈ l -> P y <> true.
Proof.
  induction l as [|a l IH]; simpl.
  - split; [|done]. intros _ y Hy. by apply elem_of_nil in Hy.
  - destruct (P a) eqn:Ha.
    + split; [discriminate|]. intros Hall. exfalso.
      apply (Hall a); [apply list_elem_of_here|done].
    + rewrite IH. split.
      * intros Hall y Hy. apply elem_of_cons in Hy as [->|Hy]; [congruence|by apply Hall].
      * intros Hall y Hy. apply Hall. by apply list_elem_of_further.
Qed.

Lemma first_of_ext {A} (P Q : A -> Prop) (l : list A) (x : A) :
  (forall y, P y <-> Q y) -> first_of P l x -> first_of Q l x.
Proof.
  intros HPQ (pre & post & Hl & Hx & Hpre). exists pre, post.
  split; [done|]. split; [by apply HPQ|].
  intros y Hy Hq. apply (Hpre y Hy). by apply HPQ.
Qed.

Lemma only_of_ext {A} (P Q : A -> Prop) (l : list A) (x : A) :
  (forall y, P y <-> Q y) -> only_of P l x -> only_of Q l x.
Proof.
  intros HPQ (pre & post & Hl & Hx & Hrest). exists pre, post.
  split; [done|]. split; [by apply HPQ|].
  intros y Hy Hq. apply (Hrest y Hy). by apply HPQ.
Qed.

Lemma filter_none {A} (f : A -> bool) (l : list A) :
  List.filter f l = [] <-> forall y, y ∈ l -> f y <> true.
Proof.
  induction l as [|a l IH]; simpl.
  - split; [|done]. intros _ y Hy. by apply elem_of_nil in Hy.
  - destruct (f a) eqn:Ha.
    + split; [discriminate|]. intros Hall. exfalso.
      apply (Hall a); [apply list_elem_of_here|done].
    + rewrite IH. split.
      * intros Hall y Hy. apply elem_of_cons in Hy as [->|Hy]; [congruence|by apply Hall].
      * intros Hall y Hy. apply Hall. by apply list_elem_of_further.
Qed.

Lemma filter_some {A} (f : A -> bool) (l : list A) :
  negb (Nat.eqb (length (List.filter f l)) 0) = true
  <-> exists y, y ∈ l /\ f y = true.
Proof.
  rewrite negb_true_iff, Nat.eqb_neq, length_zero_iff_nil, filter_none. split.
  - intros Hnot. induction l as [|a l IH].
    + exfalso. apply Hnot. intros y Hy. by apply elem_of_nil in Hy.
    + destruct (f a) eqn:Ha.
      * exists a. split; [apply list_elem_of_here|done].
      * destruct IH as (y & Hy & Hfy).
        -- intros Hall. apply Hnot. intros y Hy.
           apply elem_of_cons in Hy as [->|Hy]; [congruence|by apply Hall].
        -- exists y. split; [by apply list_elem_of_further|done].
  - intros (y & Hy & Hfy) Hall. by apply (Hall y Hy).
Qed.

Lemma filter_one {A} (f : A -> bool) (l : list A) :
  length (List.filter f l) = 1%nat <-> exists x, only_of (fun y => f y = true) l x.
Proof.
  split.
  - induction l as [|a l IH]; simpl; [discriminate|].
    destruct (f a) eqn:Ha; simpl.
    + intros [= Hlen]. apply length_zero_iff_nil in Hlen.
      pose proof (proj1 (filter_none f l) Hlen) as Hnone.
      exists a, [], l. split; [done|]. by split.
    + intros Hlen. destruct (IH Hlen) as (x & pre & post & -> & Hx & Hrest).
      exists x, (a :: pre), post. split; [done|]. split; [done|].
      intros y Hy. simpl in Hy.
      apply elem_of_cons in Hy as [->|Hy]; [congruence|by apply Hrest].
  - intros (x & pre & post & -> & Hx & Hrest).
    rewrite List.filter_app. simpl. rewrite Hx.
    assert (List.filter f pre = []) as ->.
    { apply filter_none. intros y Hy. apply Hrest, elem_of_app. by left. }
    assert (List.filter f post = []) as ->; [|done].
    apply filter_none. intros y Hy. apply Hrest, elem_of_app. by right.
Qed.

Lemma statement_matches_spo (s p o : Term) (st : Statement) :
  statement_matches (Some s) (Some p) (Some o) None st = true
  <-> about s p st /\ object st = o.
Proof.
  unfold statement_matches, about; simpl.
  rewrite !andb_true_r, !andb_true_iff, !bool_decide_eq_true.
  intuition congruence.
Qed.

Lemma statement_matches_decide (s p : Term) (st : Statement) :
  statement_matches (Some s) (Some p) None None st = bool_decide (about s p st).
Proof.
  case_bool_decide as Ha.
  - by apply statement_matches_sp.
  - apply not_true_is_false. intros Hm. by apply Ha, statement_matches_sp.
Qed.

Lemma each_about (s p : Term) (kb : Store) :
  each s p kb = map object (List.filter (fun st => bool_decide (about s p st)) kb).
Proof.
  unfold each, statementsMatching. f_equal.
  apply List.filter_ext. intros st. apply statement_matches_decide.
Qed.

Lemma elem_of_each (s p v : Term) (kb : Store) :
  v ∈ each s p kb <-> exists st, st ∈ kb /\ about s p st /\ object st = v.
Proof.
  unfold each. rewrite list_elem_of_fmap. split.
  - intros (st & -> & Hst). apply elem_of_statementsMatching in Hst as [Hin Hm].
    exists st. split; [done|]. split; [|done]. by apply statement_matches_sp.
  - intros (st & Hin & Ha & <-). exists st. split; [done|].
    apply elem_of_statementsMatching. split; [done|]. by apply statement_matches_sp.
Qed.

Lemma flat_map_fmap {A B C} (f : B -> list C) (g : A -> B) (l : list A) :
  flat_map f (map g l) = flat_map (fun x => f (g x)) l.
Proof. induction l as [|a l IH]; simpl; [done|]. by rewrite IH. Qed.

(** The nodes the loops of [getCreationFactory] and [getQueryBase] visit
    are the nodes reached, in that order. *)
Lemma creation_factories_reached (r : OSLCResource.t) :
  creation_factories r = reached r (oslc "creationFactory").
Proof.
  unfold creation_factories, reached. rewrite each_about, flat_map_fmap.
  apply flat_map_ext. intros st. apply each_about.
Qed.

Lemma query_capabilities_reached (r : OSLCResource.t) :
  query_capabilities r = reached r (oslc "queryCapability").
Proof.
  unfold query_capabilities, reached. rewrite each_about, flat_map_fmap.
  apply flat_map_ext. intros st. apply each_about.
Qed.

Lemma elem_of_reached (r : OSLCResource.t) (p node : Term) :
  node ∈ reached r p <-> offered r p node.
Proof.
  unfold reached, offered. rewrite list_elem_of_In, in_flat_map. split.
  - intros (st1 & Hst1 & Hnode).
    apply List.filter_In in Hst1 as [Hin1 Ha1]. apply bool_decide_eq_true in Ha1.
    apply in_map_iff in Hnode as (st2 & Ho & Hst2).
    apply List.filter_In in Hst2 as [Hin2 Ha2]. apply bool_decide_eq_true in Ha2.
    exists st1, st2. by rewrite !list_elem_of_In.
  - intros (st1 & st2 & Hin1 & Ha1 & Hin2 & Ha2 & Ho).
    exists st1. split.
    + apply List.filter_In. split; [by apply list_elem_of_In|].
      by apply bool_decide_eq_true.
    + apply in_map_iff. exists st2. split; [done|].
      apply List.filter_In. split; [by apply list_elem_of_In|].
      by apply bool_decide_eq_true.
Qed.

(** [the] answers with the object of the first statement about the subject
    with the predicate. *)
Lemma the_first (s p : Term) (kb : Store) :
  the s (Some p) kb
  = object <$> List.find (statement_matches (Some s) (Some p) None None) kb.
Proof.
  unfold the, any, statementsMatching. induction kb as [|st kb IH]; simpl; [done|].
  by destruct (statement_matches (Some s) (Some p) None None st).
Qed.

Lemma value_or_null_the (s p : Term) (kb : Store) (u : string) :
  value_or_null (the s (Some p) kb) = Some u <-> has_value kb s p u.
Proof.
  rewrite the_first. unfold has_value. split.
  - destruct (List.find _ kb) as [st|] eqn:Hf; simpl; [|discriminate].
    case_bool_decide as Hv; [discriminate|]. intros [= <-].
    exists st. split; [|done].
    apply find_first_of in Hf. revert Hf. apply first_of_ext.
    intros y. apply statement_matches_sp.
  - intros (st & Hfirst & Hv & Hne).
    assert (List.find (statement_matches (Some s) (Some p) None None) kb = Some st)
      as ->.
    { apply find_first_of. revert Hfirst. apply first_of_ext.
      intros y. symmetry. apply statement_matches_sp. }
    simpl. rewrite Hv. by rewrite bool_decide_eq_false_2.
Qed.

(** A search for the first node that matches, answered with a value of
    that node. *)
Lemma search_some {A} (P : A -> bool) (Q : A -> Prop) (l : list A)
    (v : A -> option string) (V : A -> string -> Prop) (u : string) :
  (forall x, P x = true <-> Q x) ->
  (forall x w, v x = Some w <-> V x w) ->
  match List.find P l with Some x => v x | None => None end = Some u
  <-> exists x, first_of Q l x /\ V x u.
Proof.
  intros HPQ HvV. split.
  - destruct (List.find P l) as [x|] eqn:Hf; [|discriminate].
    intros Hv. exists x. split; [|by apply HvV].
    apply find_first_of in Hf. revert Hf. apply first_of_ext, HPQ.
  - intros (x & Hfirst & Hv).
    assert (List.find P l = Some x) as ->; [|by apply HvV].
    apply find_first_of. revert Hfirst. apply first_of_ext.
    intros y. symmetry. apply HPQ.
Qed.

Lemma search_none {A} (P : A -> bool) (Q : A -> Prop) (l : list A)
    (v : A -> option string) (V : A -> string -> Prop) :
  (forall x, P x = true <-> Q x) ->
  (forall x w, v x = Some w <-> V x w) ->
  match List.find P l with Some x => v x | None => None end = None
  <-> (forall x, x ∈ l -> ~ Q x)
      \/ exists x, first_of Q l x /\ forall w, ~ V x w.
Proof.
  intros HPQ HvV. split.
  - destruct (List.find P l) as [x|] eqn:Hf.
    + intros Hv. right. exists x. split.
      * apply find_first_of in Hf. revert Hf. apply first_of_ext, HPQ.
      * intros w Hw. apply HvV in Hw. congruence.
    + intros _. left. intros x Hx Hq.
      apply (proj1 (find_none_iff P l) Hf x Hx). by apply HPQ.
  - intros [Hnone|(x & Hfirst & Hv)].
    + assert (List.find P l = None) as ->; [|done].
      apply find_none_iff. intros x Hx Hp. apply (Hnone x Hx). by apply HPQ.
    + assert (List.find P l = Some x) as ->.
      { apply find_first_of. revert Hfirst. apply first_of_ext.
        intros y. symmetry. apply HPQ. }
      destruct (v x) as [w|] eqn:Hw; [|done].
      exfalso. apply (Hv w). by apply HvV.
Qed.

(** The loops of [getCreationFactory] are a search over the factories. *)
Lemma getCreationFactory_search (r : OSLCResource.t) (resourceType : ResourceType) :
  ServiceProvider.getCreationFactory r resourceType
  = match List.find (factory_matches (OSLCResource.store r) resourceType)
            (reached r (oslc "creationFactory")) with
    | Some cf => value_or_null (the cf (Some (oslc "creation")) (OSLCResource.store r))
    | None => None
    end.
Proof.
  rewrite <- creation_factories_reached.
  unfold ServiceProvider.getCreationFactory, creation_factories.
  rewrite for_of_flat_map.
  rewrite (for_of_find _ (factory_matches (OSLCResource.store r) resourceType)
             (fun cf => value_or_null
                          (the cf (Some (oslc "creation")) (OSLCResource.store r)))).
  - by destruct (List.find _ _).
  - intros cf. destruct resourceType as [s|n]; simpl.
    + apply for_of_existsb.
    + reflexivity.
Qed.

Lemma factory_matches_for (kb : Store) (resourceType : ResourceType) (cf : Term) :
  factory_matches kb resourceType cf = true <-> factory_for kb resourceType cf.
Proof.
  destruct resourceType as [s|n]; simpl.
  - rewrite existsb_exists. split.
    + intros (aType & Hin & Hends).
      apply list_elem_of_In, elem_of_each in Hin as (st & Hin & Ha & Ho).
      apply endsWith_suffix in Hends as [pre Hpre].
      exists st, pre. by rewrite Ho.
    + intros (st & pre & Hin & Ha & Hv). exists (object st). split.
      * apply list_elem_of_In, elem_of_each. by exists st.
      * apply endsWith_suffix. by exists pre.
  - rewrite Nat.eqb_eq. unfold statementsMatching. rewrite filter_one.
    split; intros [st Hst]; exists st; revert Hst; apply only_of_ext;
      intros y; [|symmetry]; apply statement_matches_spo.
Qed.

(** C10: [getCreationFactory] returns a URI exactly when the first creation
    factory that matches, among those of the provider's services in store
    order, has a creation URI, and then that URI; it returns [null]
    exactly when no factory matches or the first that does has no creation
    URI.  Asked by a string, a factory matches when the store has a
    resourceType statement about it whose object ends with the string,
    which need not equal it; asked by a node, when the store has one
    resourceType statement from the factory to the node and only one. *)
Theorem getCreationFactory_first_match (r : OSLCResource.t)
    (resourceType : ResourceType) :
  let kb := OSLCResource.store r in
  let factories := reached r (oslc "creationFactory") in
  (forall u : string,
      ServiceProvider.getCreationFactory r resourceType = Some u
      <-> exists cf, first_of (factory_for kb resourceType) factories cf
                     /\ has_value kb cf (oslc "creation") u)
  /\ (ServiceProvider.getCreationFactory r resourceType = None
      <-> (forall cf, cf ∈ factories -> ~ factory_for kb resourceType cf)
          \/ exists cf, first_of (factory_for kb resourceType) factories cf
                        /\ forall u, ~ has_value kb cf (oslc "creation") u)
  /\ (forall cf, cf ∈ factories <-> offered r (oslc "creationFactory") cf).
Proof.
  intros kb factories. split; [|split].
  - intros u. rewrite getCreationFactory_search.
    apply (search_some _ (factory_for kb resourceType) _ _
             (fun cf w => has_value kb cf (oslc "creation") w));
      [apply factory_matches_for|].
    intros cf w. apply value_or_null_the.
  - rewrite getCreationFactory_search.
    apply (search_none _ (factory_for kb resourceType) _ _
             (fun cf w => has_value kb cf (oslc "creation") w));
      [apply factory_matches_for|].
    intros cf w. apply value_or_null_the.
  - intros cf. apply elem_of_reached.
Qed.

(** A suffix is enough for a string: the first factory of the fixture has a
    resource type that ends with Request, and its creation URI is the
    answer. *)
Lemma getCreationFactory_first_match_witness :
  ServiceProvider.getCreationFactory provider_fixture (RTString "Request")
  = Some "https://srv/ccm/oslc/create/cr".
Proof.
  apply (proj1 (getCreationFactory_first_match provider_fixture (RTString "Request"))).
  exists (BlankNode "cf1"). split.
  - exists [], [BlankNode "cf2"]. split; [reflexivity|]. split.
    + exists (mkStatement (BlankNode "cf1") (oslc "resourceType")
                (sym "http://open-services.net/ns/cm#ChangeRequest")
                (NamedGraph "https://srv/ccm/oslc/sp/1")),
             "http://open-services.net/ns/cm#Change".
      split; [|split; [split|]; reflexivity].
      do 3 apply list_elem_of_further. apply list_elem_of_here.
    + intros y Hy. by apply elem_of_nil in Hy.
  - exists (mkStatement (BlankNode "cf1") (oslc "creation")
              (sym "https://srv/ccm/oslc/create/cr")
              (NamedGraph "https://srv/ccm/oslc/sp/1")).
    split; [|split; [reflexivity|discriminate]].
    exists (firstn 5 (OSLCResource.store provider_fixture)),
           (skipn 6 (OSLCResource.store provider_fixture)).
    split; [reflexivity|]. split; [split; reflexivity|].
    intros y Hy [Hs Hp]. simpl in Hy.
    repeat (apply elem_of_cons in Hy as [->|Hy]; [discriminate|]).
    by apply elem_of_nil in Hy.
Defined.

(** A suffix is enough for a string, and a statement asserted twice is too
    many for a node. *)
Example getCreationFactory_by_suffix :
  ServiceProvider.getCreationFactory provider_fixture (RTString "Request")
  = Some "https://srv/ccm/oslc/create/cr".
Proof. reflexivity. Qed.

Example getCreationFactory_by_node_twice :
  ServiceProvider.getCreationFactory provider_fixture
    (RTNode (sym "http://open-services.net/ns/cm#ChangeRequest")) = None
  /\ ServiceProvider.getCreationFactory provider_fixture
       (RTNode (sym "http://open-services.net/ns/cm#Defect"))
     = Some "https://srv/ccm/oslc/create/defect".
Proof. split; reflexivity. Qed.

(** ** The effects *)

Section Effects.
Context {W : Type}.

Lemma sends_first_ret {A} (a : A) : sends_first (W:=W) (ret a) [].
Proof. intros s. exists []. simpl. by rewrite app_nil_r. Qed.

Lemma sends_first_throw {A} (e : Error) : sends_first (W:=W) (A:=A) (throw e) [].
Proof. intros s. exists []. simpl. by rewrite app_nil_r. Qed.

Lemma sends_first_out {A} : sends_first (W:=W) (A:=A) out_of_fuel [].
Proof. intros s. exists []. simpl. by rewrite app_nil_r. Qed.

Lemma sends_first_console (line : string) : sends_first (W:=W) (console_log line) [].
Proof. intros s. exists []. simpl. by rewrite app_nil_r. Qed.

Lemma sends_first_weaken {A} (m : M W A) (pre : list Request) :
  sends_first m pre -> sends_first m [].
Proof. intros Hm s. destruct (Hm s) as [rest Hrest]. by exists (pre ++ rest). Qed.

Lemma sends_first_bind {A B} (m : M W A) (k : A -> M W B) (pre : list Request) :
  sends_first m pre -> (forall a, sends_first (k a) []) ->
  sends_first (bind m k) pre.
Proof.
  intros Hm Hk s. unfold bind. destruct (Hm s) as [rest Hrest].
  destruct (m s) as [[a|e|] s1]; simpl in *.
  - destruct (Hk a s1) as [rest' Hrest']. exists (rest ++ rest').
    rewrite Hrest', Hrest. simpl. by rewrite <- !app_assoc.
  - by exists rest.
  - by exists rest.
Qed.

Lemma sends_first_bind_quiet {A B} (m : M W A) (k : A -> M W B) (pre : list Request) :
  (forall s, exists a s1, m s = (Ok a, s1) /\ sent s1 = sent s) ->
  (forall a, sends_first (k a) pre) ->
  sends_first (bind m k) pre.
Proof.
  intros Hm Hk s. unfold bind. destruct (Hm s) as (a & s1 & -> & Hsent).
  destruct (Hk a s1) as [rest Hrest]. exists rest. by rewrite Hrest, Hsent.
Qed.

Lemma sends_first_try_catch {A} (body : M W A) (handler : Error -> M W A)
    (pre : list Request) :
  sends_first body pre -> (forall e, sends_first (handler e) []) ->
  sends_first (try_catch body handler) pre.
Proof.
  intros Hb Hh s. unfold try_catch. destruct (Hb s) as [rest Hrest].
  destruct (body s) as [[a|e|] s1]; simpl in *.
  - by exists rest.
  - destruct (Hh e s1) as [rest' Hrest']. exists (rest ++ rest').
    rewrite Hrest', Hrest. simpl. by rewrite <- !app_assoc.
  - by exists rest.
Qed.





End Effects.

(** ** The transport *)

Section TransportProperties.
Context `{Host}.
Context {W : Type}.
Variable adapter : W -> Request -> W * option RawResponse.
Variable cred : Credentials.

Abbreviation request := (Transport.request adapter cred).
Abbreviation interceptor := (Transport.interceptor cred).

(** One round of [request]: dispatch, settle, intercept. *)
Lemma request_step (n : nat) (req : Request) (s : State W) :
  request (S n) req s
  = match adapter (world s) req with
    | (w', None) => (Throw (AxiosError None), after_dispatch s w' req)
    | (w', Some raw) =>
        if validate (validateStatus req) (raw_status raw)
        then interceptor (request n) (response_of raw req) (after_dispatch s w' req)
        else (Throw (AxiosError (Some (response_of raw req))), after_dispatch s w' req)
    end.
Proof.
  simpl. unfold bind, Transport.dispatch.
  destruct (adapter (world s) req) as [w' [raw|]]; [|reflexivity].
  unfold response_of. simpl. destruct (validate _ _); reflexivity.
Qed.

Lemma interceptor_sends (client : Request -> M W Response) (response : Response) :
  (forall req, sends_first (client req) []) ->
  sends_first (interceptor client response) [].
Proof.
  intros Hc. unfold Transport.interceptor.
  destruct (bool_decide _).
  - apply sends_first_try_catch.
    + destruct (URL_new _); [|apply sends_first_throw].
      apply sends_first_bind.
      * destruct isNodeEnvironment; [apply sends_first_ret|apply sends_first_console].
      * intros _. apply sends_first_bind; [apply Hc|]. intros _. apply Hc.
    + intros e. apply sends_first_bind; [apply sends_first_console|].
      intros _. apply sends_first_throw.
  - destruct (_ && _).
    + destruct (_ ≫= _); [|apply sends_first_throw].
      apply sends_first_try_catch.
      * apply sends_first_bind; [apply Hc|]. intros r. apply Hc.
      * intros e. apply sends_first_bind; [apply sends_first_console|].
        intros _. apply sends_first_throw.
    + destruct (_ =? _)%Z; [apply Hc|apply sends_first_ret].
Qed.

(** A request that gets to run goes on the network first, and whatever
    the negotiation does afterwards only adds to the requests sent. *)
Lemma request_sends (n : nat) (req : Request) :
  sends_first (request n req) [] /\ sends_first (request (S n) req) [req].
Proof.
  revert req. induction n as [|n IH]; intros req.
  - split; [apply sends_first_out|].
    intros s. rewrite request_step.
    destruct (adapter (world s) req) as [w' [raw|]].
    + destruct (validate _ _).
      * destruct (interceptor_sends (request 0) (response_of raw req)
                    (fun r => sends_first_out) (after_dispatch s w' req))
          as [rest Hrest].
        exists rest. rewrite Hrest. simpl. by rewrite <- !app_assoc.
      * by exists [].
    + by exists [].
  - split; [apply (sends_first_weaken _ [req]), IH|].
    intros s. rewrite request_step.
    destruct (adapter (world s) req) as [w' [raw|]].
    + destruct (validate _ _).
      * destruct (interceptor_sends (request (S n)) (response_of raw req)
                    (fun r => sends_first_weaken _ _ (proj2 (IH r)))
                    (after_dispatch s w' req)) as [rest Hrest].
        exists rest. rewrite Hrest. simpl. by rewrite <- !app_assoc.
      * by exists [].
    + by exists [].
Qed.



(** The interceptor on a token-realm challenge. *)
Lemma interceptor_jauth (client : Request -> M W Response) (raw : RawResponse)
    (req : Request) (h : string) (s : State W) :
  jauth_challenge raw h ->
  interceptor client (response_of raw req) s
  = match token_uri_match h with
    | None => (Throw (JsError "No token_uri found in jauth challenge"), s)
    | Some token_uri =>
        try_catch
          (let! tokenResponse := client (Transport.token_request cred token_uri) in
           client (Transport.with_bearer req (response_data tokenResponse)))
          (fun error =>
             let! _ := console_log "Error during jauth realm authentication:" in
             throw error) s
    end.
Proof.
  intros (Hst & Hform & Hwww & Hrealm). unfold Transport.interceptor.
  cbn [response_of response_headers status config].
  rewrite bool_decide_eq_false_2 by exact Hform.
  rewrite Hwww, Hst. cbn [from_option]. rewrite Hrealm.
  change ((401 =? 401)%Z && true) with true. cbv iota.
  cbn [mbind option_bind]. by destruct (token_uri_match h).
Qed.







End TransportProperties.

Arguments Transport.request : simpl never.

(** The login endpoint and the token endpoint of two challenges. *)
Example login_url_first_segment :
  login_url (mkURL "https://srv" "https://srv" "/ccm/oslc/workitems/catalog"
                   "?a=b" EmptyString)
  = "https://srv/ccm/j_security_check?a=b"
  /\ login_url (mkURL "https://srv" "https://srv" "/" EmptyString EmptyString)
     = "https://srv/j_security_check".
Proof. split; reflexivity. Qed.

Example token_uri_of_challenge :
  token_uri_match
    ("jauth realm=" +:+ String dquote ("ccm" +:+ String dquote
       (" token_uri=" +:+ String dquote ("https://srv/jts/jauth-issue-token"
          +:+ String dquote EmptyString))))
  = Some "https://srv/jts/jauth-issue-token"
  /\ token_uri_match "jauth realm=ccm token_uri=none" = None.
Proof. split; reflexivity. Qed.

Section TransportClaims.
Context `{Host}.
Context {W : Type}.
Variable adapter : W -> Request -> W * option RawResponse.
Variable cred : Credentials.

Abbreviation request := (Transport.request adapter cred).
Abbreviation interceptor := (Transport.interceptor cred).





End TransportClaims.





(** ** The client *)

Lemma startsWith_app (t b : string) : startsWith (t +:+ b) t = true.
Proof.
  induction t as [|c t IH]; simpl; [by destruct b|].
  by rewrite bool_decide_eq_true_2, IH.
Qed.

Lemma includes_app_r (a s t : string) :
  includes s t = true -> includes (a +:+ s) t = true.
Proof.
  intros Hs. induction a as [|c a IH]; simpl; [done|].
  rewrite IH. apply orb_true_r.
Qed.

Lemma includes_startsWith (s t : string) :
  startsWith s t = true -> includes s t = true.
Proof. intros Hs. destruct s; simpl in *; by rewrite Hs. Qed.

Lemma includes_prefix (t b : string) : includes (t +:+ b) t = true.
Proof. apply includes_startsWith, startsWith_app. Qed.

(** A string includes each of its pieces. *)
Lemma includes_middle (a t b : string) : includes (a +:+ t +:+ b) t = true.
Proof. apply includes_app_r, includes_prefix. Qed.

Lemma includes_itself (t : string) : includes t t = true.
Proof.
  apply includes_startsWith.
  induction t as [|c t IH]; simpl; [done|]. by rewrite bool_decide_eq_true_2, IH.
Qed.

Lemma includes_end (a t : string) : includes (a +:+ t) t = true.
Proof. apply includes_app_r, includes_itself. Qed.





Section ClientProperties.
Context `{Host}.
Context {W : Type}.
Variable http : Request -> M W Response.
Variable cred : Credentials.

(** A parse of a content type parsed at once never throws: the statements
    read go into the store, the exception goes to the console. *)
Lemma parse_into_now (data : Data) (base : string) (ct : option string) (kb : Store)
    (s : State W) :
  parsed_later ct = false ->
  OSLCClient.parse_into data base ct kb s
  = (Ok (add_all (rdf_parse data base ct).1 kb),
     with_parse_error s (rdf_parse data base ct).2).
Proof.
  intros Hct. unfold OSLCClient.parse_into. rewrite Hct.
  destruct (rdf_parse data base ct) as [sts [msg|]]; reflexivity.
Qed.

(** A parse of a content type parsed later returns the store as it was and
    leaves the parse running. *)
Lemma parse_into_later (data : Data) (base : string) (ct : option string) (kb : Store)
    (s : State W) :
  parsed_later ct = true ->
  OSLCClient.parse_into data base ct kb s
  = (Ok kb, with_deferred s (rdf_parse data base ct)).
Proof.
  intros Hct. unfold OSLCClient.parse_into. rewrite Hct.
  by destruct (rdf_parse data base ct) as [sts err].
Qed.

(** Either way the parse step returns, and sends nothing. *)
Lemma parse_into_returns (data : Data) (base : string) (ct : option string)
    (kb : Store) (s : State W) :
  exists kb' s',
    OSLCClient.parse_into data base ct kb s = (Ok kb', s')
    /\ sent s' = sent s /\ world s' = world s /\ same_client s s'.
Proof.
  destruct (parsed_later ct) eqn:Hct.
  - rewrite parse_into_later by done. eexists _, _. split; [done|]. by repeat split.
  - rewrite parse_into_now by done. eexists _, _. split; [done|].
    destruct (rdf_parse data base ct).2; by repeat split.
Qed.

Lemma NamedNode_new_absolute (iri : string) :
  absolute_IRI iri -> NamedNode_new iri = Returned (sym iri).
Proof.
  intros (Hne & Hcolon & Hspace). unfold NamedNode_new.
  rewrite bool_decide_eq_false_2 by exact Hne. by rewrite Hcolon, Hspace.
Qed.

Lemma NamedNode_new_raised (iri message : string) :
  NamedNode_new iri = Raised message -> ~ absolute_IRI iri.
Proof.
  intros Hnew Habs. by rewrite (NamedNode_new_absolute iri Habs) in Hnew.
Qed.

Lemma NamedNode_new_returned (iri : string) (node : Term) :
  NamedNode_new iri = Returned node -> absolute_IRI iri /\ node = sym iri.
Proof.
  unfold NamedNode_new, absolute_IRI. case_bool_decide as Hne; [discriminate|].
  destruct (includes iri ":"); [|discriminate].
  destruct (includes iri " "); [discriminate|]. by intros [= <-].
Qed.




End ClientProperties.

(** ** Queries *)





Section Paging.
Context `{Host}.
Context {W : Type}.
Variable adapter : W -> Request -> W * option RawResponse.
Variable cred : Credentials.
Variable n : nat.

Abbreviation http := (Transport.request adapter cred (S n)).





End Paging.







(** ** Discovery *)

Lemma filter_nil_iff {A} (m : A -> bool) (l : list A) :
  List.filter m l = [] <-> forall x, x ∈ l -> m x = false.
Proof.
  induction l as [|x l IH]; simpl.
  - split; [|done]. intros _ y Hy. by apply elem_of_nil in Hy.
  - destruct (m x) eqn:Hx.
    + split; [discriminate|]. intros Hall.
      rewrite Hall in Hx; [discriminate|apply list_elem_of_here].
    + rewrite IH. split.
      * intros Hall y Hy. apply elem_of_cons in Hy as [->|Hy]; [done|by apply Hall].
      * intros Hall y Hy. apply Hall. by apply list_elem_of_further.
Qed.

(** The head of a filtered list is the first element that passes. *)
Lemma filter_head_iff {A} (m : A -> bool) (l : list A) (a : A) :
  (exists rest, List.filter m l = a :: rest)
  <-> exists pre post,
        l = pre ++ a :: post /\ m a = true /\ forall x, x ∈ pre -> m x = false.
Proof.
  induction l as [|x l IH]; simpl.
  - split.
    + intros [rest Hr]. discriminate.
    + intros (pre & post & Hl & _). by destruct pre.
  - destruct (m x) eqn:Hx.
    + split.
      * intros [rest [= -> _]]. exists [], l. split; [done|]. split; [done|].
        intros y Hy. by apply elem_of_nil in Hy.
      * intros (pre & post & Hl & Ha & Hpre). destruct pre as [|y pre].
        -- injection Hl as -> _. by eexists.
        -- injection Hl as -> _. rewrite Hpre in Hx; [discriminate|].
           apply list_elem_of_here.
    + rewrite IH. split.
      * intros (pre & post & -> & Ha & Hpre). exists (x :: pre), post.
        split; [done|]. split; [done|].
        intros y Hy. apply elem_of_cons in Hy as [->|Hy]; [done|by apply Hpre].
      * intros (pre & post & Hl & Ha & Hpre). destruct pre as [|y pre].
        -- injection Hl as -> _. congruence.
        -- injection Hl as -> ->. exists pre, post. split; [done|]. split; [done|].
           intros z Hz. apply Hpre. by apply list_elem_of_further.
Qed.

Lemma title_pattern (title : string) (st : Statement) :
  statement_matches None (Some (dcterms "title"))
    (Some (literal_typed title (sym rdf_XMLLiteral))) None st = true
  <-> is_title_statement title st.
Proof.
  unfold statement_matches, is_title_statement; simpl.
  rewrite andb_true_r, andb_true_iff, !bool_decide_eq_true.
  unfold literal_typed. simpl. intuition congruence.
Qed.

Lemma title_pattern_false (title : string) (st : Statement) :
  statement_matches None (Some (dcterms "title"))
    (Some (literal_typed title (sym rdf_XMLLiteral))) None st = false
  <-> ~ is_title_statement title st.
Proof. rewrite <- title_pattern. by destruct (statement_matches _ _ _ _ _). Qed.

(** The catalog lookup: first statement that titles a subject with exactly
    the XML literal asked for. *)
Lemma serviceProvider_first (r : OSLCResource.t) (title u : string) :
  ServiceProviderCatalog.serviceProvider r title = Some u
  <-> exists pre st post,
        OSLCResource.store r = pre ++ st :: post
        /\ is_title_statement title st
        /\ term_value (subject st) = u
        /\ forall x, x ∈ pre -> ~ is_title_statement title x.
Proof.
  unfold ServiceProviderCatalog.serviceProvider, statementsMatching. split.
  - destruct (List.filter _ _) as [|st rest] eqn:Hf; [discriminate|].
    intros [= <-].
    destruct (proj1 (filter_head_iff _ _ st) (ex_intro _ rest Hf))
      as (pre & post & Hl & Hst & Hpre).
    exists pre, st, post. split; [done|]. split; [by apply title_pattern|].
    split; [done|]. intros x Hx. by apply title_pattern_false, Hpre.
  - intros (pre & st & post & Hl & Hst & Hu & Hpre).
    destruct (proj2 (filter_head_iff
                       (statement_matches None (Some (dcterms "title"))
                          (Some (literal_typed title (sym rdf_XMLLiteral))) None)
                       (OSLCResource.store r) st)) as [rest ->].
    + exists pre, post. split; [done|]. split; [by apply title_pattern|].
      intros x Hx. by apply title_pattern_false, Hpre.
    + by rewrite Hu.
Qed.

Lemma serviceProvider_none (r : OSLCResource.t) (title : string) :
  ServiceProviderCatalog.serviceProvider r title = None
  <-> forall st, st ∈ OSLCResource.store r -> ~ is_title_statement title st.
Proof.
  unfold ServiceProviderCatalog.serviceProvider, statementsMatching. split.
  - destruct (List.filter _ _) as [|st rest] eqn:Hf; [|discriminate].
    intros _ st Hst. apply title_pattern_false.
    by apply (proj1 (filter_nil_iff _ _) Hf).
  - intros Hall.
    assert (List.filter
              (statement_matches None (Some (dcterms "title"))
                 (Some (literal_typed title (sym rdf_XMLLiteral))) None)
              (OSLCResource.store r) = []) as ->; [|done].
    apply filter_nil_iff. intros x Hx. by apply title_pattern_false, Hall.
Qed.

Section DiscoveryClaims.
Context `{Host}.
Context {W : Type}.
Variable http : Request -> M W Response.
Variable cred : Credentials.

(** [use] up to the lookup of the catalog predicate, once the root
    services document has been read. *)
Lemma use_after_rootservices (server_url name domain : string) (s s1 : State W)
    (rs : OSLCResource.t) :
  OSLCClient.read_document http cred (strip_slash server_url +:+ "/rootservices")
    (with_base_url s (strip_slash server_url)) = (Ok rs, s1) ->
  OSLCClient.use http cred server_url name domain s
  = match RootServices.serviceProviderCatalog rs (serviceProviders domain) with
    | None =>
        (Throw (JsError ("No ServiceProviderCatalog for " +:+ domain +:+ " services")),
         with_rootservices s1 rs)
    | Some spcURL =>
        if bool_decide (spcURL = EmptyString) then
          (Throw (JsError ("No ServiceProviderCatalog for " +:+ domain +:+ " services")),
           with_rootservices s1 rs)
        else
          match OSLCClient.read_document http cred spcURL (with_rootservices s1 rs) with
          | (Ok c, s2) =>
              match ServiceProviderCatalog.serviceProvider c name with
              | None =>
                  (Throw (JsError (name +:+ " not found in service catalog")),
                   with_spc s2 c)
              | Some spURL =>
                  if bool_decide (spURL = EmptyString) then
                    (Throw (JsError (name +:+ " not found in service catalog")),
                     with_spc s2 c)
                  else
                    (let! p := OSLCClient.read_document http cred spURL in
                     OSLCClient.set_sp p) (with_spc s2 c)
              end
          | (Throw e, s2) =>
              (Throw e, with_console_line s2 "Error fetching ServiceProviderCatalog:")
          | (OutOfFuel, s2) => (OutOfFuel, s2)
          end
    end.
Proof.
  intros Hroot. unfold OSLCClient.use.
  unfold bind at 1. unfold OSLCClient.set_base_url.
  unfold bind at 1. unfold try_catch at 1. unfold bind at 1. rewrite Hroot.
  unfold bind at 1. unfold OSLCClient.set_rootservices. unfold ret at 1.
  destruct (RootServices.serviceProviderCatalog rs (serviceProviders domain))
    as [spcURL|]; [|reflexivity].
  destruct (bool_decide (spcURL = EmptyString)); [reflexivity|].
  unfold bind at 1. unfold try_catch at 1. unfold bind at 1.
  destruct (OSLCClient.read_document http cred spcURL (with_rootservices s1 rs))
    as [[c|e|] s2]; [|reflexivity|reflexivity].
  unfold bind at 1. unfold OSLCClient.set_spc. unfold ret at 1.
  destruct (ServiceProviderCatalog.serviceProvider c name) as [spURL|]; [|reflexivity].
  destruct (bool_decide (spURL = EmptyString)); reflexivity.
Qed.

(** C5: when the root services document has been read and none of its
    statements about the document itself has the catalog predicate of the
    domain asked for, [use] fails with the error that names the domain, and
    sends nothing further. *)
Theorem use_domain_not_available (server_url name domain : string)
    (s s1 : State W) (rs : OSLCResource.t) :
  domain = "CM" \/ domain = "RM" \/ domain = "QM" ->
  OSLCClient.read_document http cred (strip_slash server_url +:+ "/rootservices")
    (with_base_url s (strip_slash server_url)) = (Ok rs, s1) ->
  (forall st, st ∈ OSLCResource.store rs ->
              subject st = OSLCResource.uri rs ->
              Some (predicate st) <> serviceProviders domain) ->
  OSLCClient.use http cred server_url name domain s
  = (Throw (JsError ("No ServiceProviderCatalog for " +:+ domain +:+ " services")),
     with_rootservices s1 rs)
  /\ sent (with_rootservices s1 rs) = sent s1.
Proof.
  intros Hdomain Hroot Hlacks. split; [|reflexivity].
  rewrite (use_after_rootservices _ _ _ _ _ _ Hroot).
  assert (exists pred, serviceProviders domain = Some pred) as [pred Hpred].
  { destruct Hdomain as [->|[->| ->]]; by eexists. }
  assert (RootServices.serviceProviderCatalog rs (serviceProviders domain) = None)
    as ->; [|reflexivity].
  unfold RootServices.serviceProviderCatalog, the, any, statementsMatching.
  rewrite Hpred.
  assert (List.filter
            (statement_matches (Some (OSLCResource.uri rs)) (Some pred) None None)
            (OSLCResource.store rs) = []) as ->; [|reflexivity].
  apply filter_nil_iff. intros st Hst.
  destruct (statement_matches _ _ _ _ st) eqn:Hm; [|reflexivity].
  apply statement_matches_sp in Hm as [Hs Hp].
  exfalso. apply (Hlacks st Hst Hs). by rewrite Hp, Hpred.
Qed.

(** C4 (as amended): the catalog lookup returns the subject of the first
    statement that titles it with the XMLLiteral-typed literal whose
    lexical value is exactly the string given, and [undefined] when the
    store has no such statement; a title that differs in case or in white
    space, or that is a literal of another datatype, is no match.  On
    [undefined], [use] fails with the error that names the provider. *)
Theorem serviceProvider_exact_title :
  (forall (r : OSLCResource.t) (title u : string),
      ServiceProviderCatalog.serviceProvider r title = Some u
      <-> exists pre st post,
            OSLCResource.store r = pre ++ st :: post
            /\ is_title_statement title st
            /\ term_value (subject st) = u
            /\ forall x, x ∈ pre -> ~ is_title_statement title x)
  /\ (forall (r : OSLCResource.t) (title : string),
        ServiceProviderCatalog.serviceProvider r title = None
        <-> forall st, st ∈ OSLCResource.store r -> ~ is_title_statement title st)
  /\ (forall (server_url name domain spcURL : string) (s s1 s2 : State W)
            (rs c : OSLCResource.t),
        OSLCClient.read_document http cred (strip_slash server_url +:+ "/rootservices")
          (with_base_url s (strip_slash server_url)) = (Ok rs, s1) ->
        RootServices.serviceProviderCatalog rs (serviceProviders domain) = Some spcURL ->
        spcURL <> EmptyString ->
        OSLCClient.read_document http cred spcURL (with_rootservices s1 rs) = (Ok c, s2) ->
        ServiceProviderCatalog.serviceProvider c name = None ->
        OSLCClient.use http cred server_url name domain s
        = (Throw (JsError (name +:+ " not found in service catalog")), with_spc s2 c)).
Proof.
  split; [exact serviceProvider_first|]. split; [exact serviceProvider_none|].
  intros server_url name domain spcURL s s1 s2 rs c Hroot Hspc Hne Hcat Hnone.
  rewrite (use_after_rootservices _ _ _ _ _ _ Hroot), Hspc.
  rewrite bool_decide_eq_false_2 by exact Hne.
  by rewrite Hcat, Hnone.
Qed.

End DiscoveryClaims.

(** C4, as stated, fails for a provider titled by a plain literal: the title
    equals the string asked for, and the lookup returns [undefined]. *)
Lemma plain_title_not_found :
  (exists st,
      st ∈ OSLCResource.store catalog_fixture
      /\ predicate st = dcterms "title"
      /\ object st = literal "Beta Project"
      /\ term_value (object st) = "Beta Project"
      /\ term_value (subject st) = "https://srv/ccm/oslc/sp/2")
  /\ ServiceProviderCatalog.serviceProvider catalog_fixture "Beta Project" = None.
Proof.
  split; [|reflexivity].
  eexists. split; [apply list_elem_of_further, list_elem_of_here|]. done.
Qed.

(** Titles are compared as they are. *)
Example serviceProvider_case_and_space :
  ServiceProviderCatalog.serviceProvider catalog_fixture "Alpha Project"
  = Some provider_url
  /\ ServiceProviderCatalog.serviceProvider catalog_fixture "alpha project" = None
  /\ ServiceProviderCatalog.serviceProvider catalog_fixture "Alpha Project " = None
  /\ ServiceProviderCatalog.serviceProvider catalog_fixture " Alpha Project" = None.
Proof. repeat split; reflexivity. Qed.

(** Asked for requirements management, the server's root services
    document, which lists change management only, ends discovery. *)
Lemma use_domain_not_available_witness :
  @OSLCClient.use jazz unit (@Transport.request jazz unit jazz_server alice 1) alice
    "https://srv/ccm/" "Alpha Project" "RM" initial_state
  = (Throw (JsError ("No ServiceProviderCatalog for " +:+ "RM" +:+ " services")),
     with_rootservices
       (after_dispatch (with_base_url initial_state "https://srv/ccm") tt
          (document_request root_url))
       rootservices_fixture)
  /\ sent (with_rootservices
             (after_dispatch (with_base_url initial_state "https://srv/ccm") tt
                (document_request root_url))
             rootservices_fixture)
     = sent (after_dispatch (with_base_url initial_state "https://srv/ccm") tt
               (document_request root_url)).
Proof.
  apply (@use_domain_not_available jazz unit
           (@Transport.request jazz unit jazz_server alice 1) alice
           "https://srv/ccm/" "Alpha Project" "RM" initial_state
           (after_dispatch (with_base_url initial_state "https://srv/ccm") tt
              (document_request root_url))
           rootservices_fixture).
  - right. left. reflexivity.
  - reflexivity.
  - intros st Hst _. apply list_elem_of_singleton in Hst. subst st. discriminate.
Defined.

(** Asked for a provider in lower case, the catalog has no match and
    discovery ends with the provider-not-found error. *)
Lemma serviceProvider_exact_title_witness :
  @OSLCClient.use jazz unit (@Transport.request jazz unit jazz_server alice 1) alice
    "https://srv/ccm" "alpha project" "CM" initial_state
  = (Throw (JsError ("alpha project" +:+ " not found in service catalog")),
     with_spc
       (after_dispatch
          (with_rootservices
             (after_dispatch (with_base_url initial_state "https://srv/ccm") tt
                (document_request root_url))
             rootservices_fixture)
          tt (document_request catalog_url))
       catalog_fixture).
Proof.
  apply (proj2 (proj2 (@serviceProvider_exact_title jazz unit
                         (@Transport.request jazz unit jazz_server alice 1) alice))
           "https://srv/ccm" "alpha project" "CM" catalog_url initial_state
           (after_dispatch (with_base_url initial_state "https://srv/ccm") tt
              (document_request root_url))
           (after_dispatch
              (with_rootservices
                 (after_dispatch (with_base_url initial_state "https://srv/ccm") tt
                    (document_request root_url))
                 rootservices_fixture)
              tt (document_request catalog_url))
           rootservices_fixture catalog_fixture).
  - reflexivity.
  - reflexivity.
  - discriminate.
  - reflexivity.
  - reflexivity.
Defined.

(** Discovery end to end: the provider found by its title answers for the
    query base of change requests. *)
Example use_finds_provider :
  let r := @OSLCClient.use jazz unit (@Transport.request jazz unit jazz_server alice 1)
             alice "https://srv/ccm" "Alpha Project" "CM" initial_state in
  r.1 = Ok tt
  /\ (OSLCResource.getURI <$> sp r.2) = Some provider_url
  /\ sent r.2 = [document_request root_url; document_request catalog_url;
                 document_request provider_url].
Proof. repeat split; vm_compute; reflexivity. Qed.

(** * Further properties of the code *)

(** ** OSLCResource: how [set] composes *)

Lemma filter_other_pattern (s p s' q : Term) (kb : Store) :
  s' <> s \/ q <> p ->
  List.filter (statement_matches (Some s') (Some q) None None)
    (List.filter (fun x => negb (statement_matches (Some s) (Some p) None None x)) kb)
  = List.filter (statement_matches (Some s') (Some q) None None) kb.
Proof.
  intros Hne. induction kb as [|x kb IH]; simpl; [done|].
  destruct (statement_matches (Some s) (Some p) None None x) eqn:Hx; simpl.
  - apply statement_matches_sp in Hx as [Hs Hp].
    assert (statement_matches (Some s') (Some q) None None x = false) as ->; [|done].
    destruct (statement_matches (Some s') (Some q) None None x) eqn:Hx'; [|done].
    apply statement_matches_sp in Hx' as [Hs' Hq]. destruct Hne; congruence.
  - destruct (statement_matches (Some s') (Some q) None None x); by rewrite IH.
Qed.

Lemma statementsMatching_fold_add_other (s p s' q : Term) (vs : list Term) (kb : Store) :
  s' <> s \/ q <> p ->
  statementsMatching (Some s') (Some q) None None
    (fold_left (fun acc v => add s p v acc) vs kb)
  = statementsMatching (Some s') (Some q) None None kb.
Proof.
  intros Hne. revert kb. induction vs as [|v vs IH]; intros kb; simpl; [done|].
  rewrite IH. unfold add, add_statement. destruct (holds _ kb); [done|].
  rewrite statementsMatching_app. unfold statementsMatching at 2. simpl.
  assert (statement_matches (Some s') (Some q) None None
            (mkStatement s p v DefaultGraph) = false) as ->.
  { destruct (statement_matches _ _ _ _ _) eqn:Hx; [|done].
    apply statement_matches_sp in Hx as [Hs Hp]. simpl in *. destruct Hne; congruence. }
  by rewrite app_nil_r.
Qed.

(** What [set] leaves alone. *)
Lemma set_frame (r r' : OSLCResource.t) (P Q : Property)
    (vs : SetValue) :
  OSLCResource.set r P vs = Some r' ->
  OSLCResource.property_node Q <> OSLCResource.property_node P ->
  OSLCResource.get r' Q = OSLCResource.get r Q
  /\ forall s q : Term,
       s <> OSLCResource.uri r \/ q <> OSLCResource.property_node P ->
       each s q (OSLCResource.store r') = each s q (OSLCResource.store r).
Proof.
  intros Hset Hne. rewrite set_store in Hset. injection Hset as <-.
  assert (forall s q : Term,
             s <> OSLCResource.uri r \/ q <> OSLCResource.property_node P ->
             each s q (OSLCResource.store
                         (OSLCResource.with_store r
                            (fold_left
                               (fun acc v => add (OSLCResource.uri r)
                                               (OSLCResource.property_node P) v acc)
                               (set_values vs)
                               (List.filter
                                  (fun x => negb (statement_matches
                                                    (Some (OSLCResource.uri r))
                                                    (Some (OSLCResource.property_node P))
                                                    None None x))
                                  (OSLCResource.store r)))))
             = each s q (OSLCResource.store r)) as Hframe.
  { intros s q Hsq. unfold each. simpl.
    rewrite statementsMatching_fold_add_other by done.
    unfold statementsMatching. by rewrite filter_other_pattern. }
  split; [|exact Hframe].
  rewrite !get_view. simpl OSLCResource.uri at 1.
  rewrite Hframe; [done|]. by right.
Qed.

(** X1: [set] on one property of a resource leaves the values of every
    other subject and property as they were, and so what [get] returns for
    any other property. *)
Theorem set_leaves_other_properties (r r' : OSLCResource.t) (P Q : Property)
    (vs : SetValue) :
  OSLCResource.set r P vs = Some r' ->
  OSLCResource.property_node Q <> OSLCResource.property_node P ->
  OSLCResource.get r' Q = OSLCResource.get r Q
  /\ forall s q : Term,
       s <> OSLCResource.uri r \/ q <> OSLCResource.property_node P ->
       each s q (OSLCResource.store r') = each s q (OSLCResource.store r).
Proof. apply set_frame. Qed.

Lemma set_leaves_other_properties_witness :
  exists r',
    OSLCResource.set described_item (PropString "http://purl.org/dc/terms/subject")
      (SVnode (literal "regression")) = Some r'
    /\ OSLCResource.get r' (PropString "http://purl.org/dc/terms/title")
       = OSLCResource.get described_item (PropString "http://purl.org/dc/terms/title")
    /\ forall s q : Term,
         s <> OSLCResource.uri described_item
         \/ q <> OSLCResource.property_node
                   (PropString "http://purl.org/dc/terms/subject") ->
         each s q (OSLCResource.store r') = each s q (OSLCResource.store described_item).
Proof.
  eexists. split; [reflexivity|].
  apply (set_leaves_other_properties described_item _
           (PropString "http://purl.org/dc/terms/subject")
           (PropString "http://purl.org/dc/terms/title")
           (SVnode (literal "regression"))).
  - reflexivity.
  - discriminate.
Defined.

(** X2: the last [set] of a property wins: setting it twice leaves the
    resource as setting it to the second value alone does; setting the same
    value again changes nothing. *)
Theorem set_last_wins (r : OSLCResource.t) (P : Property) (v1 v2 : SetValue) :
  (OSLCResource.set r P v1 ≫= fun r1 => OSLCResource.set r1 P v2)
  = OSLCResource.set r P v2
  /\ (OSLCResource.set r P v2 ≫= fun r2 => OSLCResource.set r2 P v2)
     = OSLCResource.set r P v2.
Proof.
  assert (forall v, (OSLCResource.set r P v ≫= fun r1 => OSLCResource.set r1 P v2)
                    = OSLCResource.set r P v2) as Hany; [|by split].
  intros v. rewrite (set_store r P v). simpl. rewrite !set_store. simpl.
  by rewrite others_fold_add, filter_negb_idem.
Qed.

(** A single node always makes the round trip. *)
Lemma set_then_get_distinct_total (r : OSLCResource.t) (P : Property) (v : Term) :
  exists r',
    OSLCResource.set r P (SVnode v) = Some r'
    /\ OSLCResource.get r' P = PVstring (term_value v).
Proof.
  eexists. split; [apply set_store|].
  rewrite get_view. unfold OSLCResource.with_store.
  cbn [OSLCResource.uri OSLCResource.store]. by rewrite each_after_replace.
Qed.

(** ** OSLCResource: the typed accessors *)

Lemma first_value_view (l : list string) :
  OSLCResource.first_value (view l) = head l.
Proof. by destruct l as [|v [|w l]]. Qed.

(** X3: [setTitle] and [getTitle] round-trip whatever titles the resource
    had, and the other accessors do not notice; the same for the
    description. *)
Theorem title_round_trip (r : OSLCResource.t) (value : string) :
  (OSLCResource.setTitle r value ≫= fun r' =>
     Some (OSLCResource.getTitle r', OSLCResource.getDescription r',
           OSLCResource.getIdentifier r', OSLCResource.getShortTitle r'))
  = Some (Some value, OSLCResource.getDescription r,
          OSLCResource.getIdentifier r, OSLCResource.getShortTitle r)
  /\ (OSLCResource.setDescription r value ≫= fun r' =>
        Some (OSLCResource.getDescription r', OSLCResource.getTitle r',
              OSLCResource.getIdentifier r', OSLCResource.getShortTitle r'))
     = Some (Some value, OSLCResource.getTitle r,
             OSLCResource.getIdentifier r, OSLCResource.getShortTitle r).
Proof.
  assert (forall P Q r', OSLCResource.set r P (SVnode (literal value)) = Some r' ->
                         OSLCResource.property_node Q <> OSLCResource.property_node P ->
                         OSLCResource.get r' Q = OSLCResource.get r Q) as Hother.
  { intros P Q r' Hset Hne.
    apply (set_frame r r' P Q _ Hset Hne). }
  split.
  - destruct (set_then_get_distinct_total r
                (PropNode (term_value (dcterms "title"))) (literal value))
      as (r' & Hset & Hget).
    unfold OSLCResource.setTitle. rewrite Hset. simpl.
    unfold OSLCResource.getTitle, OSLCResource.getDescription,
      OSLCResource.getIdentifier, OSLCResource.getShortTitle.
    rewrite Hget.
    rewrite (Hother _ (PropNode (term_value (dcterms "description"))) r' Hset)
      by discriminate.
    rewrite (Hother _ (PropNode (term_value (dcterms "identifier"))) r' Hset)
      by discriminate.
    rewrite (Hother _ (PropNode (term_value (oslc "shortTitle"))) r' Hset)
      by discriminate.
    reflexivity.
  - destruct (set_then_get_distinct_total r
                (PropNode (term_value (dcterms "description"))) (literal value))
      as (r' & Hset & Hget).
    unfold OSLCResource.setDescription. rewrite Hset. simpl.
    unfold OSLCResource.getTitle, OSLCResource.getDescription,
      OSLCResource.getIdentifier, OSLCResource.getShortTitle.
    rewrite Hget.
    rewrite (Hother _ (PropNode (term_value (dcterms "title"))) r' Hset)
      by discriminate.
    rewrite (Hother _ (PropNode (term_value (dcterms "identifier"))) r' Hset)
      by discriminate.
    rewrite (Hother _ (PropNode (term_value (oslc "shortTitle"))) r' Hset)
      by discriminate.
    reflexivity.
Qed.

(** ** OSLCResource: link types and properties *)

Lemma elem_of_link_fold (sts : list Statement) (acc : gset string) (p : string) :
  p ∈ fold_left
        (fun linkTypes statement =>
           if is_NamedNode (object statement)
           then linkTypes ∪ {[ term_value (predicate statement) ]}
           else linkTypes) sts acc
  <-> p ∈ acc
      \/ exists st, st ∈ sts /\ is_NamedNode (object st) = true
                    /\ term_value (predicate st) = p.
Proof.
  revert acc. induction sts as [|x sts IH]; intros acc; simpl.
  - split; [by left|]. intros [?|(st & Hin & _)]; [done|]. by apply elem_of_nil in Hin.
  - rewrite IH. split.
    + intros [Hacc|(st & Hin & Hnn & Hp)].
      * destruct (is_NamedNode (object x)) eqn:Hx; [|by left].
        apply elem_of_union in Hacc as [?|Hx']; [by left|].
        apply elem_of_singleton in Hx'. right. exists x.
        split; [apply list_elem_of_here|done].
      * right. exists st. split; [by apply list_elem_of_further|done].
    + intros [Hacc|(st & Hin & Hnn & Hp)].
      * left. destruct (is_NamedNode (object x)); [|done].
        apply elem_of_union. by left.
      * apply elem_of_cons in Hin as [->|Hin].
        -- left. rewrite Hnn. apply elem_of_union. right. by apply elem_of_singleton.
        -- right. by exists st.
Qed.

(** X4: [getLinkTypes] is exactly the set of predicates that link the
    resource's own subject to a named node: literals, blank nodes and
    statements about other subjects contribute nothing. *)
Theorem getLinkTypes_links (r : OSLCResource.t) (p : string) :
  p ∈ OSLCResource.getLinkTypes r
  <-> exists st,
        st ∈ OSLCResource.store r
        /\ subject st = OSLCResource.uri r
        /\ term_value (predicate st) = p
        /\ exists target, object st = NamedNode target.
Proof.
  unfold OSLCResource.getLinkTypes. rewrite elem_of_link_fold. split.
  - intros [Hin|(st & Hin & Hnn & Hp)]; [by apply elem_of_empty in Hin|].
    apply elem_of_statementsMatching in Hin as [Hin Hm].
    exists st. split; [done|]. split.
    + unfold statement_matches in Hm. simpl in Hm.
      rewrite !andb_true_r in Hm. by apply bool_decide_eq_true in Hm.
    + split; [done|]. destruct (object st); try discriminate. by eexists.
  - intros (st & Hin & Hs & Hp & target & Ho). right. exists st.
    split; [|split; [by rewrite Ho|done]].
    apply elem_of_statementsMatching. split; [done|].
    unfold statement_matches. simpl. rewrite !andb_true_r.
    by apply bool_decide_eq_true.
Qed.

Example getLinkTypes_described_item :
  OSLCResource.getLinkTypes described_item
  = {[ "http://open-services.net/ns/core#serviceProvider" ]}.
Proof. reflexivity. Qed.

Lemma getProperties_fold (r : OSLCResource.t) :
  OSLCResource.getProperties r
  = fold_left add_property
      (statementsMatching (Some (OSLCResource.uri r)) None None None (OSLCResource.store r))
      ∅.
Proof. reflexivity. Qed.

Lemma values_under_snoc (key : string) (sts : list Statement) (st : Statement) :
  values_under key (sts ++ [st])
  = values_under key sts
    ++ (if bool_decide (term_value (predicate st) = key)
        then [term_value (object st)] else []).
Proof.
  unfold values_under. rewrite List.filter_app, map_app. simpl.
  by destruct (bool_decide _).
Qed.

Lemma entry_of_snoc (l : list string) (v : string) :
  entry_of (l ++ [v])
  = match entry_of l with
    | Some (PVarray vs) => Some (PVarray (vs ++ [v]))
    | Some (PVstring w) => Some (PVarray ([w] ++ [v]))
    | Some PVundefined | None => Some (PVstring v)
    end.
Proof. by destruct l as [|a [|b l]]. Qed.

(** What the loop of [getProperties] has built after any number of
    statements. *)
Lemma add_property_fold (sts : list Statement) (key : string) :
  fold_left add_property sts ∅ !! key = entry_of (values_under key sts).
Proof.
  induction sts as [|st sts IH] using rev_ind; [done|].
  rewrite fold_left_app, values_under_snoc. simpl.
  unfold add_property at 1.
  destruct (decide (term_value (predicate st) = key)) as [Heq|Hne].
  - rewrite bool_decide_eq_true_2 by done. rewrite entry_of_snoc, <- IH.
    rewrite Heq.
    destruct (fold_left add_property sts ∅ !! key) as [[| |]|];
      by rewrite lookup_insert_eq.
  - rewrite bool_decide_eq_false_2 by done. rewrite app_nil_r, <- IH.
    destruct (fold_left add_property sts ∅ !! term_value (predicate st)) as [[| |]|];
      by rewrite lookup_insert_ne.
Qed.

Lemma getProperties_lookup (r : OSLCResource.t) (key : string) :
  OSLCResource.getProperties r !! key
  = entry_of (values_under key
                (statementsMatching (Some (OSLCResource.uri r)) None None None
                   (OSLCResource.store r))).
Proof. rewrite getProperties_fold. apply add_property_fold. Qed.

(** X5: [getProperties] has an entry for a key exactly when the resource's
    subject has statements whose predicate reads that key; the entry is
    their object strings in store order, a bare string when there is one
    and an array when there are several. *)
Theorem getProperties_entries (r : OSLCResource.t) (key : string) :
  OSLCResource.getProperties r !! key
  = entry_of (values_under key
                (statementsMatching (Some (OSLCResource.uri r)) None None None
                   (OSLCResource.store r)))
  /\ (OSLCResource.getProperties r !! key = None
      <-> forall st, st ∈ OSLCResource.store r ->
                     subject st = OSLCResource.uri r ->
                     term_value (predicate st) <> key).
Proof.
  pose proof (getProperties_lookup r key) as Hentry.
  split; [exact Hentry|]. rewrite Hentry.
  assert (forall l, entry_of l = None <-> l = []) as Hnone.
  { intros [|a [|b l]]; simpl; split; congruence. }
  rewrite Hnone. unfold values_under. split.
  - intros Hnil st Hin Hs Hk. apply fmap_nil_inv in Hnil.
    apply (proj1 (filter_nil_iff _ _)) with (x := st) in Hnil.
    + by apply bool_decide_eq_false in Hnil.
    + apply elem_of_statementsMatching. split; [done|].
      unfold statement_matches. simpl. rewrite !andb_true_r.
      by apply bool_decide_eq_true.
  - intros Hall.
    assert (List.filter (fun st => bool_decide (term_value (predicate st) = key))
              (statementsMatching (Some (OSLCResource.uri r)) None None None
                 (OSLCResource.store r)) = []) as ->; [|done].
    apply filter_nil_iff. intros st Hin.
    apply elem_of_statementsMatching in Hin as [Hin Hm].
    apply bool_decide_eq_false. apply Hall; [done|].
    unfold statement_matches in Hm. simpl in Hm. rewrite !andb_true_r in Hm.
    by apply bool_decide_eq_true in Hm.
Qed.

Example getProperties_described_item :
  OSLCResource.getProperties described_item !! "http://purl.org/dc/terms/subject"
  = Some (PVarray ["ui"; "crash"])
  /\ OSLCResource.getProperties described_item !! "http://purl.org/dc/terms/title"
     = Some (PVstring "Bug 7")
  /\ OSLCResource.getProperties described_item !! "http://purl.org/dc/terms/creator"
     = None.
Proof. repeat split; reflexivity. Qed.

Lemma entry_of_view (l : list string) : default PVundefined (entry_of l) = view l.
Proof. by destruct l as [|a [|b l]]. Qed.

Lemma statement_matches_s (s : Term) (st : Statement) :
  statement_matches (Some s) None None None st = true <-> subject st = s.
Proof.
  unfold statement_matches; simpl. rewrite !andb_true_r, bool_decide_eq_true.
  split; congruence.
Qed.

Lemma filter_key_is_pattern (s : Term) (iri : string) (kb : Store) :
  (forall st, st ∈ kb -> subject st = s -> is_NamedNode (predicate st) = true) ->
  List.filter (fun st => bool_decide (term_value (predicate st) = iri))
    (statementsMatching (Some s) None None None kb)
  = statementsMatching (Some s) (Some (NamedNode iri)) None None kb.
Proof.
  unfold statementsMatching. induction kb as [|x kb IH]; intros Hnn; simpl; [done|].
  assert (forall st, st ∈ kb -> subject st = s -> is_NamedNode (predicate st) = true)
    as Hkb by (intros st Hin; apply Hnn; by apply list_elem_of_further).
  specialize (IH Hkb).
  destruct (statement_matches (Some s) None None None x) eqn:H1;
    destruct (statement_matches (Some s) (Some (NamedNode iri)) None None x) eqn:H2;
    simpl.
  - apply statement_matches_sp in H2 as [_ Hp]. rewrite Hp. simpl.
    rewrite bool_decide_eq_true_2 by done. by rewrite IH.
  - apply statement_matches_s in H1.
    specialize (Hnn x (list_elem_of_here _ _) H1).
    destruct (predicate x) as [v| |] eqn:Hp; try discriminate. simpl.
    rewrite bool_decide_eq_false_2; [exact IH|].
    intros ->. assert (statement_matches (Some s) (Some (NamedNode iri)) None None x
                       = true) as Ht by by apply statement_matches_sp.
    congruence.
  - apply statement_matches_sp in H2 as [Hs _]. apply statement_matches_s in Hs.
    congruence.
  - exact IH.
Qed.

(** X6: on a resource whose predicates are named nodes, as rdflib's [add]
    sees to, [getProperties] and [get] agree on every property: a missing
    key where [get] is [undefined], the same string or the same array
    otherwise. *)
Theorem getProperties_agrees_with_get (r : OSLCResource.t) (iri : string) :
  (forall st, st ∈ OSLCResource.store r ->
              subject st = OSLCResource.uri r ->
              is_NamedNode (predicate st) = true) ->
  default PVundefined (OSLCResource.getProperties r !! iri)
  = OSLCResource.get r (PropNode iri)
  /\ default PVundefined (OSLCResource.getProperties r !! iri)
     = OSLCResource.get r (PropString iri).
Proof.
  intros Hnn.
  assert (default PVundefined (OSLCResource.getProperties r !! iri)
          = OSLCResource.get r (PropNode iri)) as Hagree; [|by split].
  rewrite getProperties_lookup, entry_of_view, get_view.
  f_equal. unfold values_under, each. cbn [OSLCResource.property_node].
  rewrite filter_key_is_pattern by exact Hnn. by rewrite map_map.
Qed.

Lemma getProperties_agrees_with_get_witness :
  default PVundefined
    (OSLCResource.getProperties described_item !! "http://purl.org/dc/terms/subject")
  = OSLCResource.get described_item (PropNode "http://purl.org/dc/terms/subject")
  /\ default PVundefined
       (OSLCResource.getProperties described_item !! "http://purl.org/dc/terms/subject")
     = OSLCResource.get described_item (PropString "http://purl.org/dc/terms/subject").
Proof.
  apply (getProperties_agrees_with_get described_item "http://purl.org/dc/terms/subject").
  intros st Hin _.
  repeat (apply elem_of_cons in Hin as [->|Hin]; [reflexivity|]).
  by apply elem_of_nil in Hin.
Defined.

(** ** ServiceProvider: the query base *)

(** The loops of [getQueryBase] are a search over the capabilities. *)
Lemma queryBase_of_search (r : OSLCResource.t) (node : Term) :
  ServiceProvider.queryBase_of r node
  = match List.find (capability_matches (OSLCResource.store r) node)
            (reached r (oslc "queryCapability")) with
    | Some qc => value_or_null (the qc (Some (oslc "queryBase")) (OSLCResource.store r))
    | None => None
    end.
Proof.
  rewrite <- query_capabilities_reached.
  unfold ServiceProvider.queryBase_of, query_capabilities.
  rewrite for_of_flat_map.
  rewrite (for_of_find _ (capability_matches (OSLCResource.store r) node)
             (fun qc => value_or_null
                          (the qc (Some (oslc "queryBase")) (OSLCResource.store r)))).
  - by destruct (List.find _ _).
  - intros qc. reflexivity.
Qed.

Lemma capability_matches_for (kb : Store) (node qc : Term) :
  capability_matches kb node qc = true <-> capability_for kb node qc.
Proof.
  unfold capability_matches, capability_for, statementsMatching.
  rewrite filter_some. split.
  - intros (st & Hin & Hm). apply statement_matches_spo in Hm as [Ha Ho]. by exists st.
  - intros (st & Hin & Ha & Ho). exists st. split; [done|].
    by apply statement_matches_spo.
Qed.

Lemma absolute_IRI_or_raised (s : string) :
  absolute_IRI s \/ exists message, NamedNode_new s = Raised message.
Proof.
  unfold absolute_IRI, NamedNode_new. case_bool_decide as Hne; [right; by eexists|].
  destruct (includes s ":"); [|right; by eexists].
  destruct (includes s " "); [right; by eexists|]. by left.
Qed.

(** X7: [getQueryBase] throws exactly when it is asked by a string that
    rdflib takes for no absolute IRI.  Asked by a node, or by a string
    that is an absolute IRI and then stands for its node, it returns a URI
    exactly when the first query capability, among those of the
    provider's services in store order, that has a resourceType statement
    to the node has a query base, and then that query base; it returns
    [null] exactly when no capability has such a statement or the first
    that has one has no query base, whatever later capabilities offer. *)
Theorem getQueryBase_first_match (r : OSLCResource.t) (resourceType : ResourceType) :
  let kb := OSLCResource.store r in
  let capabilities := reached r (oslc "queryCapability") in
  ((exists message, ServiceProvider.getQueryBase r resourceType = Raised message)
   <-> exists s, resourceType = RTString s /\ ~ absolute_IRI s)
  /\ (forall node : Term,
        resourceType = RTNode node
        \/ (exists s, resourceType = RTString s /\ absolute_IRI s /\ node = sym s) ->
        (forall u : string,
            ServiceProvider.getQueryBase r resourceType = Returned (Some u)
            <-> exists qc, first_of (capability_for kb node) capabilities qc
                           /\ has_value kb qc (oslc "queryBase") u)
        /\ (ServiceProvider.getQueryBase r resourceType = Returned None
            <-> (forall qc, qc ∈ capabilities -> ~ capability_for kb node qc)
                \/ exists qc, first_of (capability_for kb node) capabilities qc
                              /\ forall u, ~ has_value kb qc (oslc "queryBase") u))
  /\ (forall qc, qc ∈ capabilities <-> offered r (oslc "queryCapability") qc).
Proof.
  intros kb capabilities. split; [|split].
  - split.
    + intros [message Hraised]. destruct resourceType as [s|n]; [|discriminate].
      exists s. split; [done|]. intros Habs. simpl in Hraised.
      by rewrite (NamedNode_new_absolute s Habs) in Hraised.
    + intros (s & -> & Hnot). simpl.
      destruct (absolute_IRI_or_raised s) as [Habs|[message ->]]; [done|].
      by exists message.
  - intros node Hasks.
    assert (ServiceProvider.getQueryBase r resourceType
            = Returned (ServiceProvider.queryBase_of r node)) as ->.
    { destruct Hasks as [->|(s & -> & Habs & ->)]; [done|].
      simpl. by rewrite (NamedNode_new_absolute s Habs). }
    rewrite queryBase_of_search. split.
    + intros u. split.
      * intros [= Hu]. revert Hu.
        apply (search_some _ (capability_for kb node) _ _
                 (fun qc w => has_value kb qc (oslc "queryBase") w));
          [apply capability_matches_for|].
        intros qc w. apply value_or_null_the.
      * intros Hu. f_equal. revert Hu.
        apply (search_some _ (capability_for kb node) _ _
                 (fun qc w => has_value kb qc (oslc "queryBase") w));
          [apply capability_matches_for|].
        intros qc w. apply value_or_null_the.
    + split.
      * intros [= Hu]. revert Hu.
        apply (search_none _ (capability_for kb node) _ _
                 (fun qc w => has_value kb qc (oslc "queryBase") w));
          [apply capability_matches_for|].
        intros qc w. apply value_or_null_the.
      * intros Hu. f_equal. revert Hu.
        apply (search_none _ (capability_for kb node) _ _
                 (fun qc w => has_value kb qc (oslc "queryBase") w));
          [apply capability_matches_for|].
        intros qc w. apply value_or_null_the.
  - intros qc. apply elem_of_reached.
Qed.

(** The only capability of the fixture is one for change requests, and its
    query base is the answer to the whole URI. *)
Lemma getQueryBase_first_match_witness :
  ServiceProvider.getQueryBase provider_with_query
    (RTString "http://open-services.net/ns/cm#ChangeRequest")
  = Returned (Some query_base_url).
Proof.
  assert (absolute_IRI "http://open-services.net/ns/cm#ChangeRequest") as Habs.
  { split; [discriminate|]. split; vm_compute; reflexivity. }
  apply (proj1 (proj1 (proj2 (getQueryBase_first_match provider_with_query
                                (RTString "http://open-services.net/ns/cm#ChangeRequest")))
                  (sym "http://open-services.net/ns/cm#ChangeRequest")
                  (or_intror
                     (ex_intro _ "http://open-services.net/ns/cm#ChangeRequest"
                        (conj eq_refl (conj Habs eq_refl)))))
           query_base_url).
  exists (BlankNode "qc"). split.
  - exists [], []. split; [reflexivity|]. split.
    + exists (mkStatement (BlankNode "qc") (oslc "resourceType")
                (sym "http://open-services.net/ns/cm#ChangeRequest") DefaultGraph).
      split; [|split; [split|]; reflexivity].
      do 2 apply list_elem_of_further. apply list_elem_of_here.
    + intros y Hy. by apply elem_of_nil in Hy.
  - exists (mkStatement (BlankNode "qc") (oslc "queryBase") (sym query_base_url)
              DefaultGraph).
    split; [|split; [reflexivity|discriminate]].
    exists (firstn 3 (OSLCResource.store provider_with_query)), [].
    split; [reflexivity|]. split; [split; reflexivity|].
    intros y Hy [Hs Hp]. simpl in Hy.
    repeat (apply elem_of_cons in Hy as [->|Hy]; [discriminate|]).
    by apply elem_of_nil in Hy.
Defined.

(** The first matching capability has no query base; a suffix of the type
    is no absolute IRI, and asking by it throws. *)
Example getQueryBase_first_without_base :
  ServiceProvider.getQueryBase provider_without_base
    (RTString "http://open-services.net/ns/cm#ChangeRequest") = Returned None
  /\ ServiceProvider.getQueryBase provider_without_base (RTString "ChangeRequest")
     = Raised ("NamedNode IRI " +:+ String dquote ("ChangeRequest" +:+ String dquote
                 " must be absolute.")).
Proof. split; reflexivity. Qed.

(** ** The transport: the token realm and the login form *)

Section TransportFurther.
Context `{Host}.
Context {W : Type}.
Variable adapter : W -> Request -> W * option RawResponse.
Variable cred : Credentials.

Abbreviation request := (Transport.request adapter cred).
Abbreviation interceptor := (Transport.interceptor cred).


(** X9: a token-realm challenge that names no token endpoint ends the
    call with an error of its own; nothing is sent after the request that
    was challenged. *)
Theorem jauth_without_token_uri (n : nat) (req : Request) (s : State W)
    (w1 : W) (raw1 : RawResponse) (h : string) :
  validateStatus req = ValidateDefault ->
  adapter (world s) req = (w1, Some raw1) ->
  jauth_challenge raw1 h ->
  token_uri_match h = None ->
  request (S n) req s
  = (Throw (JsError "No token_uri found in jauth challenge"), after_dispatch s w1 req).
Proof.
  intros Hval Hnet1 Hjauth Htok.
  pose proof Hjauth as (Hst & _).
  rewrite request_step, Hnet1, Hval, Hst.
  change (validate ValidateDefault 401) with true. cbv iota.
  rewrite (interceptor_jauth cred _ raw1 req h) by exact Hjauth. by rewrite Htok.
Qed.

(** X10: when the login POST of the form challenge is answered with
    anything but a 302 redirect, the call is rejected with that answer:
    the original request is not sent again, and the failure is noted on
    the console. *)
Theorem login_rejected_no_retry (n : nat) (req : Request) (s : State W)
    (w1 w2 : W) (raw1 raw2 : RawResponse) (u : URL) :
  adapter (world s) req = (w1, Some raw1) ->
  validate (validateStatus req) (raw_status raw1) = true ->
  form_challenge raw1 ->
  URL_new (url req) = Some u ->
  adapter w1 (Transport.login_request cred (login_url u)) = (w2, Some raw2) ->
  raw_status raw2 <> 302%Z ->
  exists s',
    request (S (S n)) req s
    = (Throw (AxiosError
                (Some (response_of raw2 (Transport.login_request cred (login_url u))))),
       s')
    /\ sent s' = sent s ++ [req; Transport.login_request cred (login_url u)]
    /\ last (console s') = Some "Error during JEE authentication:".
Proof.
  intros Hnet1 Hv1 Hform Hu Hnet2 Hst2.
  rewrite request_step, Hnet1, Hv1.
  unfold Transport.interceptor.
  cbn [response_of response_headers status config].
  rewrite bool_decide_eq_true_2 by exact Hform. rewrite Hu.
  unfold try_catch, bind at 1.
  assert ((raw_status raw2 =? 302)%Z = false) as H302 by by apply Z.eqb_neq.
  destruct isNodeEnvironment.
  - unfold ret at 1. unfold bind at 1.
    rewrite request_step. change (world (after_dispatch s w1 req)) with w1.
    rewrite Hnet2. cbn [validate validateStatus Transport.login_request]. rewrite H302.
    eexists. split; [reflexivity|]. simpl. rewrite <- app_assoc. split; [done|].
    apply last_snoc.
  - unfold console_log at 1. unfold bind at 1.
    rewrite request_step.
    change (world (with_console_line (after_dispatch s w1 req)
                     "Form-based authentication in browser requires CORS-enabled backend or proxy"))
      with w1.
    rewrite Hnet2. cbn [validate validateStatus Transport.login_request]. rewrite H302.
    eexists. split; [reflexivity|]. simpl. rewrite <- app_assoc. split; [done|].
    apply last_snoc.
Qed.

End TransportFurther.


Lemma jauth_without_token_uri_witness :
  @Transport.request (fixture_host []) unit realm_without_endpoint alice 1
     work_item_request initial_state
  = (Throw (JsError "No token_uri found in jauth challenge"),
     after_dispatch initial_state tt work_item_request).
Proof.
  apply (@jauth_without_token_uri (fixture_host []) unit realm_without_endpoint alice 0
           work_item_request initial_state tt
           (mkRaw 401 (<["www-authenticate" := "jauth realm=ccm"]> ∅) "Unauthorized")
           "jauth realm=ccm").
  - reflexivity.
  - reflexivity.
  - split; [reflexivity|]. split; [unfold form_challenge; simpl; discriminate|].
    split; reflexivity.
  - reflexivity.
Defined.

Lemma login_rejected_no_retry_witness :
  exists s',
    @Transport.request (fixture_host []) unit failing_login_server alice 2
       work_item_request initial_state
    = (Throw (AxiosError
                (Some (@response_of (fixture_host []) (mkRaw 200 ∅ "Login failed")
                         (@Transport.login_request (fixture_host []) alice
                            "https://srv/ccm/j_security_check")))),
       s')
    /\ sent s'
       = [] ++ [work_item_request;
                @Transport.login_request (fixture_host []) alice
                  "https://srv/ccm/j_security_check"]
    /\ last (console s') = Some "Error during JEE authentication:".
Proof.
  apply (@login_rejected_no_retry (fixture_host []) unit failing_login_server alice 0
           work_item_request initial_state tt tt
           (mkRaw 200 (<["x-com-ibm-team-repository-web-auth-msg" := "authrequired"]> ∅)
              "Login required")
           (mkRaw 200 ∅ "Login failed")
           (mkURL "https://srv" "https://srv" "/ccm/resource/1" EmptyString EmptyString)).
  - reflexivity.
  - reflexivity.
  - reflexivity.
  - reflexivity.
  - reflexivity.
  - discriminate.
Defined.

(** ** The transport: reading the token endpoint *)

Lemma string_app_cons (c : ascii) (a b : string) :
  String c a +:+ b = String c (a +:+ b).
Proof. reflexivity. Qed.

Lemma string_app_nil (b : string) : EmptyString +:+ b = b.
Proof. reflexivity. Qed.

Lemma string_drop_0 (s : string) : string_drop 0 s = s.
Proof. unfold string_drop. rewrite Nat.sub_0_r. apply substring_whole. Qed.

Lemma string_drop_cons (n : nat) (c : ascii) (s : string) :
  string_drop (S n) (String c s) = string_drop n s.
Proof. reflexivity. Qed.

Lemma startsWith_split (s t : string) :
  startsWith s t = true -> s = t +:+ string_drop (String.length t) s.
Proof.
  revert s. induction t as [|b t IH]; intros s Hs.
  - rewrite string_app_nil. simpl. by rewrite string_drop_0.
  - destruct s as [|a s]; [by destruct t|]. simpl in Hs.
    apply andb_true_iff in Hs as [Hab Hs]. apply bool_decide_eq_true in Hab. subst b.
    simpl String.length. rewrite string_drop_cons, string_app_cons. f_equal.
    by apply IH.
Qed.

Lemma quote_free_cons (c : ascii) (v : string) :
  quote_free (String c v) <-> c <> dquote /\ quote_free v.
Proof.
  unfold quote_free. simpl. rewrite orb_false_iff, andb_false_iff, bool_decide_eq_false.
  split.
  - intros [[?|Hv] ?]; [done|]. by destruct v.
  - intros [? ?]. split; [by left|done].
Qed.

Lemma span_not_quote_spec (t a b : string) :
  span_not_quote t = (a, b) ->
  t = a +:+ b /\ quote_free a /\ (b = EmptyString \/ exists b', b = String dquote b').
Proof.
  revert a b. induction t as [|c t IH]; intros a b Hspan; simpl in Hspan.
  - injection Hspan as <- <-. split; [done|]. split; [done|by left].
  - destruct (bool_decide (c = dquote)) eqn:Hc.
    + apply bool_decide_eq_true in Hc. subst c. injection Hspan as <- <-.
      split; [done|]. split; [done|]. right. by eexists.
    + apply bool_decide_eq_false in Hc.
      destruct (span_not_quote t) as [a' b'] eqn:Ht. injection Hspan as <- <-.
      destruct (IH a' b' eq_refl) as (-> & Hfree & Hb).
      split; [done|]. split; [|done]. by apply quote_free_cons.
Qed.

Lemma span_not_quote_free (v post : string) :
  quote_free v ->
  span_not_quote (v +:+ String dquote post) = (v, String dquote post).
Proof.
  induction v as [|c v IH]; intros Hfree.
  - reflexivity.
  - apply quote_free_cons in Hfree as [Hc Hfree].
    rewrite string_app_cons. simpl.
    rewrite bool_decide_eq_false_2 by done. by rewrite IH.
Qed.

Lemma token_uri_here_spec (s v : string) :
  token_uri_here s = Some v ->
  exists post,
    s = token_uri_key +:+ v +:+ String dquote post
    /\ v <> EmptyString /\ quote_free v.
Proof.
  unfold token_uri_here. fold token_uri_key.
  destruct (startsWith s token_uri_key) eqn:Hs; [|discriminate].
  apply startsWith_split in Hs.
  destruct (span_not_quote (string_drop (String.length token_uri_key) s))
    as [a b] eqn:Hspan.
  apply span_not_quote_spec in Hspan as (Hab & Hfree & Hb).
  destruct a as [|x a]; [discriminate|]. destruct b as [|y b]; [discriminate|].
  intros [= <-]. destruct Hb as [?|[b' Hb']]; [discriminate|].
  injection Hb' as -> ->. exists b'. split; [|done].
  rewrite Hs at 1. by rewrite Hab.
Qed.

Lemma token_uri_here_found (v post : string) :
  v <> EmptyString -> quote_free v ->
  token_uri_here (token_uri_key +:+ v +:+ String dquote post) = Some v.
Proof.
  intros Hne Hfree. unfold token_uri_here. fold token_uri_key.
  rewrite startsWith_app.
  assert (string_drop (String.length token_uri_key)
            (token_uri_key +:+ v +:+ String dquote post)
          = v +:+ String dquote post) as ->.
  { unfold string_drop. rewrite length_app_string.
    replace (String.length token_uri_key
             + String.length (v +:+ String dquote post) - String.length token_uri_key)
      with (String.length (v +:+ String dquote post)) by lia.
    apply substring_after. }
  rewrite span_not_quote_free by done. by destruct v.
Qed.

(** X11: the token endpoint read from a challenge is never empty and has
    no double quote in it, and it stands in the header between double
    quotes right after token_uri=; a header that has such a quoted value
    always yields an endpoint, and yields that value when it opens the
    header. *)
Theorem token_uri_match_quoted :
  (forall s v : string,
      token_uri_match s = Some v ->
      exists pre post,
        s = pre +:+ token_uri_key +:+ v +:+ String dquote post
        /\ v <> EmptyString /\ quote_free v)
  /\ (forall pre v post : string,
        v <> EmptyString -> quote_free v ->
        token_uri_match (token_uri_key +:+ v +:+ String dquote post) = Some v
        /\ exists v',
             token_uri_match (pre +:+ token_uri_key +:+ v +:+ String dquote post)
             = Some v').
Proof.
  split.
  - intros s. induction s as [|c s IH]; intros v Hm.
    + discriminate Hm.
    + change (token_uri_match (String c s))
        with (match token_uri_here (String c s) with
              | Some v => Some v
              | None => token_uri_match s
              end) in Hm.
      destruct (token_uri_here (String c s)) as [v0|] eqn:Hh.
      * injection Hm as ->. apply token_uri_here_spec in Hh as (post & Hs & Hv).
        by exists EmptyString, post.
      * destruct (IH v Hm) as (pre & post & -> & Hv).
        by exists (String c pre), post.
  - intros pre v post Hne Hfree.
    assert (forall t, token_uri_here t = Some v -> token_uri_match t = Some v) as Hhere.
    { intros t Ht. destruct t as [|c t]; [discriminate Ht|].
      change (token_uri_match (String c t))
        with (match token_uri_here (String c t) with
              | Some v => Some v
              | None => token_uri_match t
              end).
      by rewrite Ht. }
    split; [by apply Hhere, token_uri_here_found|].
    induction pre as [|c pre IH].
    + exists v. by apply Hhere, token_uri_here_found.
    + rewrite string_app_cons.
      change (token_uri_match (String c ?t))
        with (match token_uri_here (String c t) with
              | Some v => Some v
              | None => token_uri_match t
              end).
      destruct (token_uri_here _) as [v0|]; [by eexists|exact IH].
Qed.

Lemma token_uri_match_quoted_witness :
  token_uri_match (token_uri_key +:+ token_endpoint +:+ String dquote " more")
  = Some token_endpoint
  /\ exists v',
       token_uri_match ("jauth realm=ccm " +:+ token_uri_key +:+ token_endpoint
                        +:+ String dquote " more") = Some v'.
Proof.
  apply (proj2 token_uri_match_quoted "jauth realm=ccm " token_endpoint " more").
  - discriminate.
  - reflexivity.
Defined.

(** ** The client: what [use] assigns, and when *)

(** The fields of a state reached through calls that keep them. *)
Ltac client_fields :=
  repeat match goal with
         | H : same_client _ _ |- _ => destruct H as (? & ? & ? & ?)
         end;
  simpl in *; repeat split;
  try congruence; try (apply not_eq_None_Some; congruence).

Section ClientFields.
Context `{Host}.
Context {W : Type}.

Lemma same_client_refl (s : State W) : same_client s s.
Proof. by repeat split. Qed.

Lemma same_client_trans (s1 s2 s3 : State W) :
  same_client s1 s2 -> same_client s2 s3 -> same_client s1 s3.
Proof.
  intros (? & ? & ? & ?) (? & ? & ? & ?). repeat split; congruence.
Qed.

Lemma keeps_client_ret {A} (a : A) : keeps_client (W:=W) (ret a).
Proof. intros s. apply same_client_refl. Qed.

Lemma keeps_client_throw {A} (e : Error) : keeps_client (W:=W) (A:=A) (throw e).
Proof. intros s. apply same_client_refl. Qed.

Lemma keeps_client_out {A} : keeps_client (W:=W) (A:=A) out_of_fuel.
Proof. intros s. apply same_client_refl. Qed.

Lemma keeps_client_console (line : string) : keeps_client (W:=W) (console_log line).
Proof. intros s. by repeat split. Qed.

Lemma keeps_client_bind {A B} (m : M W A) (k : A -> M W B) :
  keeps_client m -> (forall a, keeps_client (k a)) -> keeps_client (bind m k).
Proof.
  intros Hm Hk s. unfold bind. pose proof (Hm s) as Hs.
  destruct (m s) as [[a|e|] s1]; simpl in *; [|done|done].
  apply (same_client_trans _ s1); [done|apply Hk].
Qed.

Lemma keeps_client_try_catch {A} (body : M W A) (handler : Error -> M W A) :
  keeps_client body -> (forall e, keeps_client (handler e)) ->
  keeps_client (try_catch body handler).
Proof.
  intros Hb Hh s. unfold try_catch. pose proof (Hb s) as Hs.
  destruct (body s) as [[a|e|] s1]; simpl in *; [done| |done].
  apply (same_client_trans _ s1); [done|apply Hh].
Qed.

Lemma keeps_client_construct (u : option string) (st : option Store)
    (tag : option string) :
  keeps_client (W:=W) (construct u st tag).
Proof.
  intros s. unfold construct.
  destruct (OSLCResource.new _ u st tag) as [r|]; [|apply same_client_refl].
  destruct (OSLCResource.uri r); by repeat split.
Qed.

Variable adapter : W -> Request -> W * option RawResponse.
Variable cred : Credentials.

Lemma keeps_client_interceptor (client : Request -> M W Response) (response : Response) :
  (forall req, keeps_client (client req)) ->
  keeps_client (Transport.interceptor cred client response).
Proof.
  intros Hc. unfold Transport.interceptor.
  destruct (bool_decide _).
  - apply keeps_client_try_catch.
    + destruct (URL_new _); [|apply keeps_client_throw].
      apply keeps_client_bind.
      * destruct isNodeEnvironment; [apply keeps_client_ret|apply keeps_client_console].
      * intros _. apply keeps_client_bind; [apply Hc|]. intros _. apply Hc.
    + intros e. apply keeps_client_bind; [apply keeps_client_console|].
      intros _. apply keeps_client_throw.
  - destruct (_ && _).
    + destruct (_ ≫= _); [|apply keeps_client_throw].
      apply keeps_client_try_catch.
      * apply keeps_client_bind; [apply Hc|]. intros r. apply Hc.
      * intros e. apply keeps_client_bind; [apply keeps_client_console|].
        intros _. apply keeps_client_throw.
    + destruct (_ =? _)%Z; [apply Hc|apply keeps_client_ret].
Qed.

(** The transport and its negotiation never touch the client's fields. *)
Lemma keeps_client_request (n : nat) (req : Request) :
  keeps_client (Transport.request adapter cred n req).
Proof.
  revert req. induction n as [|n IH]; intros req; [apply keeps_client_out|].
  intros s. rewrite request_step.
  destruct (adapter (world s) req) as [w' [raw|]]; [|by repeat split].
  destruct (validate _ _); [|by repeat split].
  apply (same_client_trans _ (after_dispatch s w' req)); [by repeat split|].
  by apply keeps_client_interceptor.
Qed.

Variable http : Request -> M W Response.
Hypothesis http_keeps : forall req, keeps_client (http req).

Lemma keeps_client_parse_into (data : Data) (base : string) (ct : option string)
    (kb : Store) :
  keeps_client (W:=W) (OSLCClient.parse_into data base ct kb).
Proof.
  intros s. destruct (parse_into_returns data base ct kb s) as (kb' & s' & -> & _ & _ & Hs).
  exact Hs.
Qed.

Lemma keeps_client_getResource (u oslc_version accept : string) :
  keeps_client (OSLCClient.getResource http cred u oslc_version accept).
Proof.
  unfold OSLCClient.getResource. apply keeps_client_bind.
  - apply keeps_client_try_catch; [apply http_keeps|].
    intros e. apply keeps_client_bind; [apply keeps_client_console|].
    intros _. apply keeps_client_throw.
  - intros response.
    destruct (response_headers response !! "content-type") as [ct|];
      [|apply keeps_client_throw].
    destruct (_ || _).
    { destruct (DOMParser_parseFromString _ _);
        [apply keeps_client_throw|apply keeps_client_ret]. }
    destruct (includes ct "application/atom+xml"); [apply keeps_client_ret|].
    apply keeps_client_bind; [apply keeps_client_parse_into|].
    intros g. apply keeps_client_bind; [apply keeps_client_construct|].
    intros r. apply keeps_client_ret.
Qed.

Lemma keeps_client_read_document (u : string) :
  keeps_client (OSLCClient.read_document http cred u).
Proof.
  unfold OSLCClient.read_document. apply keeps_client_bind.
  - apply keeps_client_getResource.
  - intros f. unfold OSLCClient.rewrap. apply keeps_client_bind.
    + destruct f; [apply keeps_client_throw|apply keeps_client_throw|apply keeps_client_ret].
    + intros r. apply keeps_client_construct.
Qed.

(** [use] when the root services document cannot be read. *)
Lemma use_without_rootservices (server_url name domain : string) (s : State W) :
  match OSLCClient.read_document http cred (strip_slash server_url +:+ "/rootservices")
          (with_base_url s (strip_slash server_url)) with
  | (Ok _, _) => True
  | (Throw _, s1) =>
      OSLCClient.use http cred server_url name domain s
      = (Throw (JsError "Failed to fetch rootservices document"),
         with_console_line s1 "Error fetching rootservices:")
  | (OutOfFuel, s1) =>
      OSLCClient.use http cred server_url name domain s = (OutOfFuel, s1)
  end.
Proof.
  destruct (OSLCClient.read_document _ _ _ _) as [[rs|e|] s1] eqn:Hroot; [done| |].
  - unfold OSLCClient.use.
    unfold bind at 1. unfold OSLCClient.set_base_url.
    unfold bind at 1. unfold try_catch at 1. unfold bind at 1. by rewrite Hroot.
  - unfold OSLCClient.use.
    unfold bind at 1. unfold OSLCClient.set_base_url.
    unfold bind at 1. unfold try_catch at 1. unfold bind at 1. by rewrite Hroot.
Qed.

Lemma use_fields (server_url name domain : string) (s : State W) :
  let r := OSLCClient.use http cred server_url name domain s in
  base_url r.2 = Some (strip_slash server_url)
  /\ match r.1 with
     | Ok _ => is_Some (rootservices r.2) /\ is_Some (spc r.2) /\ is_Some (sp r.2)
     | _ => sp r.2 = sp s
     end.
Proof.
  pose proof (use_without_rootservices server_url name domain s) as Hfail.
  pose proof (keeps_client_read_document (strip_slash server_url +:+ "/rootservices")
                (with_base_url s (strip_slash server_url))) as Hs1.
  destruct (OSLCClient.read_document _ _ _ _) as [[rs|e|] s1] eqn:Hroot;
    [clear Hfail| |]; cycle 1.
  { rewrite Hfail. client_fields. }
  { rewrite Hfail. client_fields. }
  rewrite (use_after_rootservices _ _ _ _ _ _ _ _ Hroot).
  destruct (RootServices.serviceProviderCatalog rs (serviceProviders domain))
    as [spcURL|]; [|client_fields].
  destruct (bool_decide (spcURL = EmptyString)); [client_fields|].
  pose proof (keeps_client_read_document spcURL (with_rootservices s1 rs)) as Hs2.
  destruct (OSLCClient.read_document http cred spcURL (with_rootservices s1 rs))
    as [[c|e|] s2]; [|client_fields|client_fields].
  destruct (ServiceProviderCatalog.serviceProvider c name) as [spURL|]; [|client_fields].
  destruct (bool_decide (spURL = EmptyString)); [client_fields|].
  pose proof (keeps_client_read_document spURL (with_spc s2 c)) as Hs3.
  unfold bind.
  destruct (OSLCClient.read_document http cred spURL (with_spc s2 c))
    as [[p|e|] s3]; client_fields.
Qed.

End ClientFields.

(** X12: whatever the servers answer and however the authentication goes,
    [use] leaves the client with the base URL it was given, less one
    trailing slash; when it returns, the root services document, the
    catalog and the provider are all set; when it fails, or does not come
    back, the provider is the one the client had before. *)
Theorem use_assigns_provider_last `{Host} {W : Type}
    (adapter : W -> Request -> W * option RawResponse) (cred : Credentials)
    (n : nat) (server_url name domain : string) (s : State W) :
  let r := OSLCClient.use (Transport.request adapter cred n) cred
             server_url name domain s in
  base_url r.2 = Some (strip_slash server_url)
  /\ match r.1 with
     | Ok _ => is_Some (rootservices r.2) /\ is_Some (spc r.2) /\ is_Some (sp r.2)
     | _ => sp r.2 = sp s
     end.
Proof. apply use_fields. intros req. apply keeps_client_request. Qed.

(** ** The client: a root services document that cannot be read *)

Section DiscoveryFurther.
Context `{Host}.
Context {W : Type}.
Variable http : Request -> M W Response.
Variable cred : Credentials.

(** What [getResource] makes of an answer that is not RDF, and what the
    document classes make of that. *)
Lemma read_document_not_rdf (u : string) (s s1 : State W) (response : Response) :
  http (Transport.make_request cred GET u None
          (<["Accept" := "application/rdf+xml"]> (<["OSLC-Core-Version" := "2.0"]> ∅))) s
  = (Ok response, s1) ->
  not_rdf (response_headers response !! "content-type") = true ->
  exists e, OSLCClient.read_document http cred u s = (Throw e, s1).
Proof.
  intros Hhttp Hct.
  unfold OSLCClient.read_document, OSLCClient.getResource, OSLCClient.http_get.
  unfold bind at 1. unfold bind at 1. unfold try_catch. rewrite Hhttp.
  destruct (response_headers response !! "content-type") as [ct|]; [|by eexists].
  simpl in Hct.
  destruct (includes ct "text/xml" || includes ct "application/xml").
  { destruct (DOMParser_parseFromString _ _); by eexists. }
  simpl in Hct. rewrite Hct. by eexists.
Qed.

Lemma read_document_rejected (u : string) (s s1 : State W) (e : Error) :
  http (Transport.make_request cred GET u None
          (<["Accept" := "application/rdf+xml"]> (<["OSLC-Core-Version" := "2.0"]> ∅))) s
  = (Throw e, s1) ->
  OSLCClient.read_document http cred u s
  = (Throw e, with_console_line s1 "Error fetching resource:").
Proof.
  intros Hhttp.
  unfold OSLCClient.read_document, OSLCClient.getResource, OSLCClient.http_get.
  unfold bind at 1. unfold bind at 1. unfold try_catch. by rewrite Hhttp.
Qed.

(** X13: whatever keeps [use] from reading the root services document, the
    caller gets one and the same error.  A request the transport rejects
    (no answer, a status of 400 or more, a failed login) is reported twice
    on the console; an answer that is XML or an Atom feed, or that has no
    content type, is reported once.  Nothing else is requested. *)
Theorem use_rootservices_failure_masked (server_url name domain : string)
    (s : State W) :
  let base := strip_slash server_url in
  let req := Transport.make_request cred GET (base +:+ "/rootservices") None
               (<["Accept" := "application/rdf+xml"]>
                  (<["OSLC-Core-Version" := "2.0"]> ∅)) in
  let masked := JsError "Failed to fetch rootservices document" in
  (forall (e : Error) (s1 : State W),
      http req (with_base_url s base) = (Throw e, s1) ->
      OSLCClient.use http cred server_url name domain s
      = (Throw masked,
         with_console_line (with_console_line s1 "Error fetching resource:")
           "Error fetching rootservices:"))
  /\ (forall (response : Response) (s1 : State W),
        http req (with_base_url s base) = (Ok response, s1) ->
        not_rdf (response_headers response !! "content-type") = true ->
        OSLCClient.use http cred server_url name domain s
        = (Throw masked, with_console_line s1 "Error fetching rootservices:")).
Proof.
  intros base req masked.
  pose proof (use_without_rootservices cred http server_url name domain s) as Huse.
  fold base in Huse. split.
  - intros e s1 Hhttp. apply read_document_rejected in Hhttp.
    by rewrite Hhttp in Huse.
  - intros response s1 Hhttp Hct.
    destruct (read_document_not_rdf _ _ _ _ Hhttp Hct) as [e He].
    by rewrite He in Huse.
Qed.

End DiscoveryFurther.

Lemma use_rootservices_failure_masked_witness :
  @OSLCClient.use jazz unit (@Transport.request jazz unit offline alice 1) alice
    "https://srv/ccm" "Alpha Project" "CM" initial_state
  = (Throw (JsError "Failed to fetch rootservices document"),
     with_console_line
       (with_console_line
          (after_dispatch (with_base_url initial_state "https://srv/ccm") tt
             (document_request root_url))
          "Error fetching resource:")
       "Error fetching rootservices:")
  /\ @OSLCClient.use jazz unit (@Transport.request jazz unit xml_server alice 1) alice
       "https://srv/ccm" "Alpha Project" "CM" initial_state
     = (Throw (JsError "Failed to fetch rootservices document"),
        with_console_line
          (after_dispatch (with_base_url initial_state "https://srv/ccm") tt
             (document_request root_url))
          "Error fetching rootservices:").
Proof.
  split.
  - apply (proj1 (@use_rootservices_failure_masked jazz unit
                    (@Transport.request jazz unit offline alice 1) alice
                    "https://srv/ccm" "Alpha Project" "CM" initial_state)
             (AxiosError None)).
    reflexivity.
  - apply (proj2 (@use_rootservices_failure_masked jazz unit
                    (@Transport.request jazz unit xml_server alice 1) alice
                    "https://srv/ccm" "Alpha Project" "CM" initial_state)
             (@response_of jazz
                (mkRaw 200 (<["content-type" := "application/xml"]> ∅) "<rootservices/>")
                (document_request root_url))).
    + reflexivity.
    + reflexivity.
Defined.

(** ** The client: the trailing slash of the server URL *)

Lemma substring_prefix (b t : string) : substring 0 (String.length b) (b +:+ t) = b.
Proof.
  induction b as [|c b IH]; simpl; [by destruct t|]. by rewrite IH.
Qed.

Lemma strip_slash_app (b : string) : strip_slash (b +:+ "/") = b.
Proof.
  unfold strip_slash.
  assert (endsWith (b +:+ "/") "/" = true) as ->.
  { apply endsWith_suffix. by exists b. }
  rewrite length_app_string. simpl String.length.
  replace (String.length b + 1 - 1) with (String.length b) by lia.
  apply substring_prefix.
Qed.

(** X14: [use] takes one slash off the end of the server URL, whatever
    stands before it; so a server URL that does not end in a slash and the
    same URL with a slash added are used alike. *)
Theorem use_trailing_slash :
  (forall b : string, strip_slash (b +:+ "/") = b)
  /\ (forall `{Host} {W : Type} (http : Request -> M W Response)
             (cred : Credentials) (b name domain : string) (s : State W),
        endsWith b "/" = false ->
        OSLCClient.use http cred (b +:+ "/") name domain s
        = OSLCClient.use http cred b name domain s).
Proof.
  split; [exact strip_slash_app|].
  intros H W http cred b name domain s Hb.
  unfold OSLCClient.use. rewrite strip_slash_app.
  unfold strip_slash. by rewrite Hb.
Qed.

Lemma use_trailing_slash_witness :
  @OSLCClient.use jazz unit (@Transport.request jazz unit jazz_server alice 1) alice
    ("https://srv/ccm" +:+ "/") "Alpha Project" "CM" initial_state
  = @OSLCClient.use jazz unit (@Transport.request jazz unit jazz_server alice 1) alice
      "https://srv/ccm" "Alpha Project" "CM" initial_state.
Proof.
  apply (proj2 use_trailing_slash jazz unit
           (@Transport.request jazz unit jazz_server alice 1) alice
           "https://srv/ccm" "Alpha Project" "CM" initial_state).
  reflexivity.
Defined.

(** ** The client: compact resources *)

Section CompactResources.
Context `{Host}.
Context {W : Type}.
Variable http : Request -> M W Response.
Variable cred : Credentials.

(** X15: [getCompactResource] reads every answer as RDF/XML, whatever its
    content type.  When the parser throws, the exception is the caller's
    and nothing is put on the console; when it does not, the resource
    holds the statements read and has no entity tag, whatever the answer's
    headers. *)
Theorem getCompactResource_parse (u oslc_version accept : string) (s s1 : State W)
    (response : Response) :
  http (Transport.make_request cred GET u None
          (<["Accept" := accept]> (<["OSLC-Core-Version" := oslc_version]> ∅))) s
  = (Ok response, s1) ->
  (forall (sts : list Statement) (msg : string),
      rdf_parse (response_data response) u (Some "application/rdf+xml")
      = (sts, Some msg) ->
      OSLCClient.getCompactResource http cred u oslc_version accept s
      = (Throw (JsError msg), s1))
  /\ (forall (sts : list Statement) (U : URL),
        rdf_parse (response_data response) u (Some "application/rdf+xml")
        = (sts, None) ->
        u <> EmptyString ->
        URL_new u = Some U ->
        OSLCClient.getCompactResource http cred u oslc_version accept s
        = (Ok {| OSLCResource.uri := sym (origin U +:+ pathname U);
                 OSLCResource.store := add_all sts graph;
                 OSLCResource.etag := None;
                 OSLCResource.queryURI := Some u |}, s1)).
Proof.
  intros Hhttp. split.
  - intros sts msg Hparse.
    unfold OSLCClient.getCompactResource, OSLCClient.http_get, bind, try_catch.
    by rewrite Hhttp, Hparse.
  - intros sts U Hparse Hu HU.
    unfold OSLCClient.getCompactResource, OSLCClient.http_get, bind, try_catch.
    rewrite Hhttp, Hparse. unfold construct, OSLCResource.new.
    rewrite bool_decide_eq_false_2 by exact Hu. by rewrite HU.
Qed.

End CompactResources.

Lemma getCompactResource_parse_witness :
  @OSLCClient.getCompactResource jazz unit
    (@Transport.request jazz unit jazz_server alice 1) alice
    broken_url "2.0" "application/x-oslc-compact+xml" initial_state
  = (Throw (JsError "unexpected end of input"),
     after_dispatch initial_state tt
       (Transport.make_request alice GET broken_url None
          (<["Accept" := "application/x-oslc-compact+xml"]>
             (<["OSLC-Core-Version" := "2.0"]> ∅)))).
Proof.
  apply (proj1 (@getCompactResource_parse jazz unit
                  (@Transport.request jazz unit jazz_server alice 1) alice
                  broken_url "2.0" "application/x-oslc-compact+xml" initial_state
                  (after_dispatch initial_state tt
                     (Transport.make_request alice GET broken_url None
                        (<["Accept" := "application/x-oslc-compact+xml"]>
                           (<["OSLC-Core-Version" := "2.0"]> ∅))))
                  (response_of (rdf_document "broken.rdf")
                     (Transport.make_request alice GET broken_url None
                        (<["Accept" := "application/x-oslc-compact+xml"]>
                           (<["OSLC-Core-Version" := "2.0"]> ∅))))
                  eq_refl)
           [ mkStatement (sym broken_url) (dcterms "title") (literal "Bug 2")
               (NamedGraph broken_url) ]).
  reflexivity.
Defined.

(** ** The client: the owner cache *)

Section Owners.
Context `{Host}.
Context {W : Type}.
Variable http : Request -> M W Response.
Variable cred : Credentials.

(** X16: [getOwner] changes the cache at the URL asked for only.  A name
    it returns is either in the cache afterwards, and then asking again
    returns it without a request, a parse or a change of state; or it is
    the placeholder for a lookup that found no name, which is not cached.
    A lookup that fails altogether was not answered from the cache. *)
Theorem getOwner_cache (ownerMap : gmap string string) (u : string) (s : State W) :
  match OSLCClient.getOwner http cred ownerMap u s with
  | (Ok (name, ownerMap'), s') =>
      (forall v, v <> u -> ownerMap' !! v = ownerMap !! v)
      /\ ((ownerMap' !! u = Some name
           /\ OSLCClient.getOwner http cred ownerMap' u s' = (Ok (name, ownerMap'), s'))
          \/ (ownerMap !! u = None /\ ownerMap' = ownerMap /\ name = "Unknown"))
  | (_, _) => ownerMap !! u = None
  end.
Proof.
  unfold OSLCClient.getOwner at 1.
  destruct (ownerMap !! u) as [cached|] eqn:Hcached.
  - simpl. split; [done|]. left. split; [done|].
    unfold OSLCClient.getOwner. by rewrite Hcached.
  - unfold bind at 1. destruct (OSLCClient.http_get http cred u _ s) as [[response|e|] s1];
      [|done|done].
    destruct (negb (status response =? 200)%Z); [by split; [|right]|].
    unfold bind at 1.
    destruct (parse_into_returns (response_data response) u
                (response_headers response !! "content-type") graph s1)
      as (kb' & s2 & -> & _).
    destruct (NamedNode_new _) as [subject|message]; [|done].
    destruct (term_value <$> any _ _ _) as [name|]; [|by split; [|right]].
    destruct (truthy (Some name)); [|by split; [|right]].
    simpl. split.
    + intros v Hv. by rewrite lookup_insert_ne.
    + left. rewrite lookup_insert_eq. split; [done|].
      unfold OSLCClient.getOwner. by rewrite lookup_insert_eq.
Qed.

End Owners.

(** ** The client: the resources of a query result *)

Section QueryResources.
Context `{Host}.
Context {W : Type}.




Variable http : Request -> M W Response.
Variable cred : Credentials.
Variable Node_toString : Term -> string.


End QueryResources.

(** The three members of the server's query result, each a resource over
    an empty graph: the result says nothing about them. *)
Example queryResources_three_members :
  match (@OSLCClient.queryResources jazz unit
           (@Transport.request jazz unit jazz_server alice 1) alice term_value 3
           (RTString "http://open-services.net/ns/cm#ChangeRequest") None
           (provider_state provider_with_query)).1 with
  | Ok rs =>
      map OSLCResource.getURI rs
      = ["https://srv/ccm/resource/1"; "https://srv/ccm/resource/2";
         "https://srv/ccm/resource/3"]
      /\ map OSLCResource.store rs = [[]; []; []]
  | _ => False
  end.
Proof. vm_compute. split; reflexivity. Qed.

(** ** The client: creating and deleting *)

Section Creating.
Context `{Host}.
Context {W : Type}.
Variable adapter : W -> Request -> W * option RawResponse.
Variable cred : Credentials.
Variable Node_toString : Term -> string.
Variable getResource_undefined : M W Fetched.
Variable n : nat.



End Creating.



Section Deleting.
Context `{Host}.
Context {W : Type}.
Variable adapter : W -> Request -> W * option RawResponse.
Variable cred : Credentials.
Variable getCookiesSync : W -> string -> option (list (string * string)).
Variable n : nat.



End Deleting.


(** ** Compact: the previews *)

Lemma the_none (s p : Term) (kb : Store) :
  the s (Some p) kb = None
  <-> forall st, st ∈ kb -> subject st = s -> predicate st <> p.
Proof.
  unfold the, any, statementsMatching. split.
  - destruct (List.filter _ kb) as [|st0 rest] eqn:Hf; [|discriminate].
    intros _ st Hst Hs Hp.
    pose proof (proj1 (filter_nil_iff _ _) Hf st Hst) as Hm.
    assert (statement_matches (Some s) (Some p) None None st = true) as Hyes
      by by apply statement_matches_sp.
    congruence.
  - intros Hall.
    assert (List.filter (statement_matches (Some s) (Some p) None None) kb = []) as ->;
      [|done].
    apply filter_nil_iff. intros st Hst.
    destruct (statement_matches _ _ _ _ st) eqn:Hm; [|done].
    apply statement_matches_sp in Hm as [Hs Hp]. by destruct (Hall st Hst Hs).
Qed.

(** X20: a preview getter returns [null] exactly when the store has no
    statement from the resource with the preview predicate; the two
    getters differ in that predicate only.  A preview node the store says
    nothing about still gives a preview: its document is the empty string
    and it has no hints. *)
Theorem preview_null_or_defaults (r : OSLCResource.t) :
  (Compact.getSmallPreview r = None
   <-> forall st, st ∈ OSLCResource.store r -> subject st = OSLCResource.uri r ->
                  predicate st <> oslc "smallPreview")
  /\ (Compact.getLargePreview r = None
      <-> forall st, st ∈ OSLCResource.store r -> subject st = OSLCResource.uri r ->
                     predicate st <> oslc "largePreview")
  /\ (forall which preview : Term,
        the (OSLCResource.uri r) (Some which) (OSLCResource.store r) = Some preview ->
        (forall st, st ∈ OSLCResource.store r -> subject st <> preview) ->
        Compact.preview_info r which
        = Some {| document := EmptyString; hintHeight := None; hintWidth := None |}).
Proof.
  assert (forall which,
             Compact.preview_info r which = None
             <-> the (OSLCResource.uri r) (Some which) (OSLCResource.store r) = None)
    as Hnull.
  { intros which. unfold Compact.preview_info.
    by destruct (the (OSLCResource.uri r) (Some which) (OSLCResource.store r)). }
  split; [|split].
  - unfold Compact.getSmallPreview. rewrite Hnull. apply the_none.
  - unfold Compact.getLargePreview. rewrite Hnull. apply the_none.
  - intros which preview Hpreview Hsilent. unfold Compact.preview_info.
    rewrite Hpreview.
    assert (forall p, the preview (Some p) (OSLCResource.store r) = None) as Hnone.
    { intros p. apply the_none. intros st Hst Hs. by destruct (Hsilent st Hst). }
    by rewrite !Hnone.
Qed.

Lemma preview_null_or_defaults_witness :
  Compact.preview_info compact_item (oslc "smallPreview")
  = Some {| document := EmptyString; hintHeight := None; hintWidth := None |}.
Proof.
  apply (proj2 (proj2 (preview_null_or_defaults compact_item))
           (oslc "smallPreview") (BlankNode "small")).
  - reflexivity.
  - intros st Hst.
    repeat (apply elem_of_cons in Hst as [->|Hst]; [discriminate|]).
    by apply elem_of_nil in Hst.
Defined.

(** The large preview of the same resource, read from its node. *)
Example getLargePreview_compact_item :
  Compact.getLargePreview compact_item
  = Some {| document := "https://srv/ccm/resource/1/large";
            hintHeight := Some "20em"; hintWidth := None |}
  /\ Compact.getShortTitle compact_item = None.
Proof. split; reflexivity. Qed.
